(** * StockControl: expiration tracking, name autocompletion and the
      Gemini caller of the stock-control application

    A shallow embedding of the logic of the [App] component: every
    handler of the component is a function on an explicit application
    state, the Firestore collections are finite maps, and the host
    services the component calls (the [Date] parser, [localeCompare],
    [toLowerCase], the text-generation endpoint) are parameters. *)

From Stdlib Require Import ZArith NArith List Lia String Ascii.
From Stdlib Require Import Numbers.DecimalString Numbers.DecimalPos.
From stdpp Require Import base numbers list sorting gmap.

Local Open Scope Z_scope.

(** ** JavaScript values *)

(** Strings are sequences of UTF-16 code units. *)
Abbreviation jsstring := (list N).

(** A string literal of this file, read as UTF-8, gives its code units
    (characters of the basic plane, which is all the source uses). *)
Fixpoint js (s : string) : jsstring :=
  match s with
  | EmptyString => []
  | String c1 s1 =>
      let b1 := N_of_ascii c1 in
      if (b1 <? 192)%N then b1 :: js s1
      else
        match s1 with
        | EmptyString => [b1]
        | String c2 s2 =>
            let b2 := N_of_ascii c2 in
            if (b1 <? 224)%N then ((b1 - 192) * 64 + (b2 - 128))%N :: js s2
            else
              match s2 with
              | EmptyString => [b1]
              | String c3 s3 =>
                  let b3 := N_of_ascii c3 in
                  ((b1 - 224) * 4096 + (b2 - 128) * 64 + (b3 - 128))%N :: js s3
              end
        end
  end.
Arguments js _%_string.

(** Numbers: the integers (every time value, day count and quantity of
    the application is an integer that a double holds exactly) and NaN. *)
Inductive jsnum :=
  | Num (z : Z)
  | NaN.

Inductive jsval :=
  | VUndefined
  | VNull
  | VBool (b : bool)
  | VNum (n : jsnum)
  | VStr (s : jsstring).

Global Instance jsnum_eq_dec : EqDecision jsnum.
Proof. solve_decision. Defined.

Global Instance jsval_eq_dec : EqDecision jsval.
Proof. solve_decision. Defined.

Module Js.

(** [a - b] *)
Definition sub (a b : jsnum) : jsnum :=
  match a, b with
  | Num x, Num y => Num (x - y)
  | _, _ => NaN
  end.

(** [a < b] and [a <= b]: false as soon as one side is NaN. *)
Definition lt (a b : jsnum) : bool :=
  match a, b with
  | Num x, Num y => x <? y
  | _, _ => false
  end.

Definition le (a b : jsnum) : bool :=
  match a, b with
  | Num x, Num y => x <=? y
  | _, _ => false
  end.

(** [Math.ceil(a / d)] for a positive integer [d], the quotient taken
    exactly. *)
Definition ceil_div (a d : Z) : Z := - ((- a) / d).

Definition Math_ceil_div (a : jsnum) (d : Z) : jsnum :=
  match a with
  | Num x => Num (ceil_div x d)
  | NaN => NaN
  end.

Definition Math_abs (a : jsnum) : jsnum :=
  match a with
  | Num x => Num (Z.abs x)
  | NaN => NaN
  end.

Definition Math_max (a b : jsnum) : jsnum :=
  match a, b with
  | Num x, Num y => Num (Z.max x y)
  | _, _ => NaN
  end.

(** Truthiness of a number and of a string. *)
Definition truthy_num (n : jsnum) : bool :=
  match n with
  | Num z => negb (z =? 0)
  | NaN => false
  end.

Definition truthy_str (s : jsstring) : bool :=
  match s with
  | [] => false
  | _ :: _ => true
  end.

Definition truthy (v : jsval) : bool :=
  match v with
  | VUndefined | VNull => false
  | VBool b => b
  | VNum n => truthy_num n
  | VStr s => truthy_str s
  end.

(** [a || b] on numbers, on strings and on values. *)
Definition or_num (a b : jsnum) : jsnum := if truthy_num a then a else b.
Definition or_str (a b : jsstring) : jsstring := if truthy_str a then a else b.
Definition or_val (a b : jsval) : jsval := if truthy a then a else b.

(** White space and line terminators, the code units that [trim] and
    [parseInt] strip. *)
Definition isWhiteSpace (c : N) : bool :=
  match c with
  | 9 | 10 | 11 | 12 | 13 | 32 | 160 | 5760
  | 8232 | 8233 | 8239 | 8287 | 12288 | 65279 => true
  | _ => (8192 <=? c) && (c <=? 8202)
  end%N.

Fixpoint trimStart (s : jsstring) : jsstring :=
  match s with
  | [] => []
  | c :: s' => if isWhiteSpace c then trimStart s' else s
  end.

Definition trimEnd (s : jsstring) : jsstring := rev (trimStart (rev s)).

Definition trim (s : jsstring) : jsstring := trimEnd (trimStart s).

(** [s.split(sep)] for a separator of one code unit. *)
Fixpoint split (sep : N) (s : jsstring) : list jsstring :=
  match s with
  | [] => [[]]
  | c :: s' =>
      if (c =? sep)%N then [] :: split sep s'
      else match split sep s' with
           | p :: ps => (c :: p) :: ps
           | [] => [[c]]
           end
  end.

(** [s.replace(/c/g, d)] for single code units. *)
Definition replaceAll (c d : N) (s : jsstring) : jsstring :=
  map (fun x => if (x =? c)%N then d else x) s.

(** [parseInt(s, 10)]. The digits are read as the integer they denote.
    The language then rounds that integer to a double: the two agree
    up to [2^53 - 1] in absolute value, the range to which the
    statements that depend on the value are restricted. *)
Definition digitValue (c : N) : option Z :=
  if ((48 <=? c) && (c <=? 57))%N then Some (Z.of_N c - 48) else None.

Fixpoint parseDigits (acc : Z) (s : jsstring) : Z :=
  match s with
  | [] => acc
  | c :: s' =>
      match digitValue c with
      | Some d => parseDigits (10 * acc + d) s'
      | None => acc
      end
  end.

Definition parseInt (s : jsstring) : jsnum :=
  let s1 := trimStart s in
  let '(sign, s2) :=
    match s1 with
    | 45%N :: r => (-1, r)
    | 43%N :: r => (1, r)
    | _ => (1, s1)
    end in
  match s2 with
  | [] => NaN
  | c :: _ =>
      match digitValue c with
      | Some _ => Num (sign * parseDigits 0 s2)
      | None => NaN
      end
  end.

(** Conversion to string, as a template literal or [parseInt] does it.
    An integer is printed in full, as the language does below 1e21. *)
Definition Number_toString (n : jsnum) : jsstring :=
  match n with
  | Num z => js (NilZero.string_of_int (Z.to_int z))
  | NaN => js "NaN"
  end.

Definition ToString (v : jsval) : jsstring :=
  match v with
  | VUndefined => js "undefined"
  | VNull => js "null"
  | VBool true => js "true"
  | VBool false => js "false"
  | VNum n => Number_toString n
  | VStr s => s
  end.

(** A [Set] keeps its members in insertion order. *)
Definition Set_add (x : jsstring) (s : list jsstring) : list jsstring :=
  if decide (x ∈ s) then s else s ++ [x].

Definition Set_from (l : list jsstring) : list jsstring :=
  foldl (fun s x => Set_add x s) [] l.

(** [Array.prototype.sort(cmp)]: the comparator's NaN counts as 0; the
    sort is stable. For a consistent comparator the result is the one
    the language prescribes. For a comparator that is not consistent
    (one that answers NaN for some elements and not for others) the
    language leaves the order to the engine: the definition then gives
    one rearrangement, which need not be the engine's, and what is
    proved of an order assumes a consistent comparator. *)
Section Sort.
Context {A : Type} (cmp : A -> A -> jsnum).

Definition SortCompare (x y : A) : Z :=
    match cmp x y with
    | Num v => v
    | NaN => 0
    end.

Fixpoint sort_insert (x : A) (l : list A) : list A :=
    match l with
    | [] => [x]
    | y :: l' =>
        if SortCompare x y <=? 0 then x :: l else y :: sort_insert x l'
    end.

Definition Array_sort (l : list A) : list A := foldr sort_insert [] l.
End Sort.

End Js.

(** ** Module constants *)

Definition DEFAULT_ALARM_DAYS : Z := 7.

Definition CATEGORIES : list jsstring :=
  [ js "General";
    js "Bebidas";
    js "Alimentos Secos";
    js "Lácteos";
    js "Fiambres y Embutidos";
    js "Quesos";
    js "Refrigerados";
    js "Congelados";
    js "Limpieza";
    js "Otros" ].

(** [CATEGORIES[0]] *)
Definition CATEGORIES_0 : jsstring := hd [] CATEGORIES.

(** [sanitizeDocId]: every slash becomes an underscore. *)
Definition sanitizeDocId (name : jsstring) : jsstring :=
  Js.replaceAll 47 95 name.


(** ** Records of the stores and of the component *)

(** A document of the [stock_items] collection. The name and the date
    are strings, as every writer of the application stores them; the
    fields the snapshot handler parses or defaults are raw values. *)
Module DocData.
Record t := mk {
  name : jsstring;
  quantity : jsval;
  expirationDate : jsstring;
  alarmDays : jsval;
  category : jsval;
  createdAt : jsval }.
End DocData.

(** A document as a query snapshot delivers it. *)
Module QueryDoc.
Record t := mk {
  id : jsstring;
  data : DocData.t }.
End QueryDoc.

(** An element of [items]: the document's fields, the identifier, and
    the three fields the handler overrides. *)
Module Item.
Record t := mk {
  id : jsstring;
  name : jsstring;
  quantity : jsnum;
  expirationDate : jsstring;
  alarmDays : jsnum;
  category : jsval;
  createdAt : jsval }.
End Item.

(** The draft of the creation form. *)
Module NewItem.
Record t := mk {
  name : jsstring;
  quantity : jsnum;
  expirationDate : jsstring;
  alarmDays : jsnum;
  category : jsstring }.
End NewItem.

(** The [name] attribute of the inputs of both forms. *)
Inductive Field :=
  | FName
  | FQuantity
  | FExpirationDate
  | FAlarmDays
  | FCategory.

Inductive Status :=
  | OK
  | Warning
  | Expired.

Global Instance Status_eq_dec : EqDecision Status.
Proof. solve_decision. Defined.

Record ExpirationStatus := {
  status : Status;
  days : jsnum;
  message : jsstring }.

(** The state of [App]: one field per [useState], then what React
    keeps for the [urgentItems] memo and for the effect that opens the
    alarm modal. *)
Record AppState := {
  items : list Item.t;
  commonNames : list jsstring;
  db : bool;
  userId : option jsstring;
  isAuthReady : bool;
  newItem : NewItem.t;
  loading : bool;
  errorMessage : option jsstring;
  editingItem : option Item.t;
  showUrgentModal : bool;
  showImportModal : bool;
  importData : jsstring;
  urgentItems : list Item.t;
  urgentModalDeps : option (nat * bool) }.

Definition setItems (v : list Item.t) (s : AppState) : AppState :=
  {| items := v;
     commonNames := commonNames s;
     db := db s;
     userId := userId s;
     isAuthReady := isAuthReady s;
     newItem := newItem s;
     loading := loading s;
     errorMessage := errorMessage s;
     editingItem := editingItem s;
     showUrgentModal := showUrgentModal s;
     showImportModal := showImportModal s;
     importData := importData s;
     urgentItems := urgentItems s;
     urgentModalDeps := urgentModalDeps s |}.

Definition setCommonNames (v : list jsstring) (s : AppState) : AppState :=
  {| items := items s;
     commonNames := v;
     db := db s;
     userId := userId s;
     isAuthReady := isAuthReady s;
     newItem := newItem s;
     loading := loading s;
     errorMessage := errorMessage s;
     editingItem := editingItem s;
     showUrgentModal := showUrgentModal s;
     showImportModal := showImportModal s;
     importData := importData s;
     urgentItems := urgentItems s;
     urgentModalDeps := urgentModalDeps s |}.

Definition setDb (v : bool) (s : AppState) : AppState :=
  {| items := items s;
     commonNames := commonNames s;
     db := v;
     userId := userId s;
     isAuthReady := isAuthReady s;
     newItem := newItem s;
     loading := loading s;
     errorMessage := errorMessage s;
     editingItem := editingItem s;
     showUrgentModal := showUrgentModal s;
     showImportModal := showImportModal s;
     importData := importData s;
     urgentItems := urgentItems s;
     urgentModalDeps := urgentModalDeps s |}.

Definition setUserId (v : option jsstring) (s : AppState) : AppState :=
  {| items := items s;
     commonNames := commonNames s;
     db := db s;
     userId := v;
     isAuthReady := isAuthReady s;
     newItem := newItem s;
     loading := loading s;
     errorMessage := errorMessage s;
     editingItem := editingItem s;
     showUrgentModal := showUrgentModal s;
     showImportModal := showImportModal s;
     importData := importData s;
     urgentItems := urgentItems s;
     urgentModalDeps := urgentModalDeps s |}.

Definition setIsAuthReady (v : bool) (s : AppState) : AppState :=
  {| items := items s;
     commonNames := commonNames s;
     db := db s;
     userId := userId s;
     isAuthReady := v;
     newItem := newItem s;
     loading := loading s;
     errorMessage := errorMessage s;
     editingItem := editingItem s;
     showUrgentModal := showUrgentModal s;
     showImportModal := showImportModal s;
     importData := importData s;
     urgentItems := urgentItems s;
     urgentModalDeps := urgentModalDeps s |}.

Definition setNewItem (v : NewItem.t) (s : AppState) : AppState :=
  {| items := items s;
     commonNames := commonNames s;
     db := db s;
     userId := userId s;
     isAuthReady := isAuthReady s;
     newItem := v;
     loading := loading s;
     errorMessage := errorMessage s;
     editingItem := editingItem s;
     showUrgentModal := showUrgentModal s;
     showImportModal := showImportModal s;
     importData := importData s;
     urgentItems := urgentItems s;
     urgentModalDeps := urgentModalDeps s |}.

Definition setLoading (v : bool) (s : AppState) : AppState :=
  {| items := items s;
     commonNames := commonNames s;
     db := db s;
     userId := userId s;
     isAuthReady := isAuthReady s;
     newItem := newItem s;
     loading := v;
     errorMessage := errorMessage s;
     editingItem := editingItem s;
     showUrgentModal := showUrgentModal s;
     showImportModal := showImportModal s;
     importData := importData s;
     urgentItems := urgentItems s;
     urgentModalDeps := urgentModalDeps s |}.

Definition setErrorMessage (v : option jsstring) (s : AppState) : AppState :=
  {| items := items s;
     commonNames := commonNames s;
     db := db s;
     userId := userId s;
     isAuthReady := isAuthReady s;
     newItem := newItem s;
     loading := loading s;
     errorMessage := v;
     editingItem := editingItem s;
     showUrgentModal := showUrgentModal s;
     showImportModal := showImportModal s;
     importData := importData s;
     urgentItems := urgentItems s;
     urgentModalDeps := urgentModalDeps s |}.

Definition setEditingItem (v : option Item.t) (s : AppState) : AppState :=
  {| items := items s;
     commonNames := commonNames s;
     db := db s;
     userId := userId s;
     isAuthReady := isAuthReady s;
     newItem := newItem s;
     loading := loading s;
     errorMessage := errorMessage s;
     editingItem := v;
     showUrgentModal := showUrgentModal s;
     showImportModal := showImportModal s;
     importData := importData s;
     urgentItems := urgentItems s;
     urgentModalDeps := urgentModalDeps s |}.

Definition setShowUrgentModal (v : bool) (s : AppState) : AppState :=
  {| items := items s;
     commonNames := commonNames s;
     db := db s;
     userId := userId s;
     isAuthReady := isAuthReady s;
     newItem := newItem s;
     loading := loading s;
     errorMessage := errorMessage s;
     editingItem := editingItem s;
     showUrgentModal := v;
     showImportModal := showImportModal s;
     importData := importData s;
     urgentItems := urgentItems s;
     urgentModalDeps := urgentModalDeps s |}.

Definition setShowImportModal (v : bool) (s : AppState) : AppState :=
  {| items := items s;
     commonNames := commonNames s;
     db := db s;
     userId := userId s;
     isAuthReady := isAuthReady s;
     newItem := newItem s;
     loading := loading s;
     errorMessage := errorMessage s;
     editingItem := editingItem s;
     showUrgentModal := showUrgentModal s;
     showImportModal := v;
     importData := importData s;
     urgentItems := urgentItems s;
     urgentModalDeps := urgentModalDeps s |}.

Definition setImportData (v : jsstring) (s : AppState) : AppState :=
  {| items := items s;
     commonNames := commonNames s;
     db := db s;
     userId := userId s;
     isAuthReady := isAuthReady s;
     newItem := newItem s;
     loading := loading s;
     errorMessage := errorMessage s;
     editingItem := editingItem s;
     showUrgentModal := showUrgentModal s;
     showImportModal := showImportModal s;
     importData := v;
     urgentItems := urgentItems s;
     urgentModalDeps := urgentModalDeps s |}.

Definition setUrgentItems (v : list Item.t) (s : AppState) : AppState :=
  {| items := items s;
     commonNames := commonNames s;
     db := db s;
     userId := userId s;
     isAuthReady := isAuthReady s;
     newItem := newItem s;
     loading := loading s;
     errorMessage := errorMessage s;
     editingItem := editingItem s;
     showUrgentModal := showUrgentModal s;
     showImportModal := showImportModal s;
     importData := importData s;
     urgentItems := v;
     urgentModalDeps := urgentModalDeps s |}.

Definition setUrgentModalDeps (v : option (nat * bool)) (s : AppState) : AppState :=
  {| items := items s;
     commonNames := commonNames s;
     db := db s;
     userId := userId s;
     isAuthReady := isAuthReady s;
     newItem := newItem s;
     loading := loading s;
     errorMessage := errorMessage s;
     editingItem := editingItem s;
     showUrgentModal := showUrgentModal s;
     showImportModal := showImportModal s;
     importData := importData s;
     urgentItems := urgentItems s;
     urgentModalDeps := v |}.

(** The two Firestore collections of the user: [stock_items] by
    document identifier, and [common_names], whose documents hold one
    field, the name. *)
Record Firestore := {
  stock_items : gmap jsstring DocData.t;
  common_names : gmap jsstring jsstring }.

(** ** A concrete host

    One host to run the component on: its [Date] reads the calendar
    dates [YYYY-MM-DD] that a date input produces, as UTC midnight; its
    [toLowerCase] folds the letters of Latin-1; its [localeCompare]
    orders strings by code units. *)
Module DemoHost.

Definition digitsValue (s : jsstring) : option Z :=
  if forallb (fun c => bool_decide (is_Some (Js.digitValue c))) s
  then Some (Js.parseDigits 0 s) else None.

(** Days from 1970-01-01 to a date of the proleptic Gregorian calendar. *)
Definition daysFromCivil (y m d : Z) : Z :=
  let y' := if m <=? 2 then y - 1 else y in
  let era := y' / 400 in
  let yoe := y' - era * 400 in
  let mp := (m + 9) mod 12 in
  let doy := (153 * mp + 2) / 5 + d - 1 in
  let doe := yoe * 365 + yoe / 4 - yoe / 100 + doy in
  era * 146097 + doe - 719468.

Definition isLeap (y : Z) : bool :=
  ((y mod 4 =? 0) && negb (y mod 100 =? 0)) || (y mod 400 =? 0).

Definition daysInMonth (y m : Z) : Z :=
  if m =? 2 then (if isLeap y then 29 else 28)
  else if (m =? 4) || (m =? 6) || (m =? 9) || (m =? 11) then 30
  else 31.

Definition Date_getTime (s : jsstring) : jsnum :=
  match s with
  | [y1; y2; y3; y4; 45; m1; m2; 45; d1; d2]%N =>
      match digitsValue [y1; y2; y3; y4], digitsValue [m1; m2], digitsValue [d1; d2] with
      | Some y, Some m, Some d =>
          if (1 <=? m) && (m <=? 12) && (1 <=? d) && (d <=? daysInMonth y m)
          then Num (daysFromCivil y m d * 86400000)
          else NaN
      | _, _, _ => NaN
      end
  | _ => NaN
  end.

Definition lowerUnit (c : N) : N :=
  if ((65 <=? c) && (c <=? 90))%N then (c + 32)%N
  else if ((192 <=? c) && (c <=? 222) && negb (c =? 215))%N then (c + 32)%N
  else c.

Definition toLowerCase (s : jsstring) : jsstring := map lowerUnit s.

Fixpoint compareUnits (a b : jsstring) : Z :=
  match a, b with
  | [], [] => 0
  | [], _ :: _ => -1
  | _ :: _, [] => 1
  | x :: a', y :: b' =>
      if (x <? y)%N then -1
      else if (y <? x)%N then 1
      else compareUnits a' b'
  end.

Definition localeCompare (a b : jsstring) : Z := compareUnits a b.

End DemoHost.

(** ** Sample records

    A clock reading, 2025-03-01T00:00:00Z, and a few documents. *)
Module Sample.

Definition now : Z := 1740787200000.

Definition stockDoc (id name date : jsstring) (alarmDays category : jsval)
    : QueryDoc.t :=
  {| QueryDoc.id := id;
     QueryDoc.data :=
       {| DocData.name := name;
          DocData.quantity := VNum (Num 2);
          DocData.expirationDate := date;
          DocData.alarmDays := alarmDays;
          DocData.category := category;
          DocData.createdAt := VStr (js "2025-02-01T10:00:00.000Z") |} |}.

(** Expires in three days; alarm seven days ahead. *)
Definition milk : QueryDoc.t :=
  stockDoc (js "a1") (js "Leche") (js "2025-03-04") (VNum (Num 7)) (VStr (js "Lácteos")).

(** Expires in five days; alarm seven days ahead. *)
Definition cheese : QueryDoc.t :=
  stockDoc (js "b2") (js "Queso") (js "2025-03-06") (VNum (Num 7)) (VStr (js "Quesos")).

(** Expires next year. *)
Definition rice : QueryDoc.t :=
  stockDoc (js "c3") (js "Arroz") (js "2026-01-15") (VNum (Num 7)) VUndefined.

(** A document whose category is not one of [CATEGORIES]. *)
Definition soap : QueryDoc.t :=
  stockDoc (js "d4") (js "Jabón") (js "2025-06-30") VUndefined (VStr (js "Higiene")).

(** A document whose name was stored with a leading space. *)
Definition paddedMilk : QueryDoc.t :=
  stockDoc (js "e5") (js " Leche") (js "2025-03-04") (VNum (Num 7)) (VStr (js "Lácteos")).

Definition emptyStore : Firestore :=
  {| stock_items := ∅; common_names := ∅ |}.

End Sample.

(** ** The component *)

Section App.

(** The host: [new Date(s).getTime()], [s.toLowerCase()] and
    [a.localeCompare(b)]. *)
Variable Date_getTime : jsstring -> jsnum.
Variable toLowerCase : jsstring -> jsstring.
Variable localeCompare : jsstring -> jsstring -> Z.

(** *** Module-level helpers *)

Definition normalizeCategory (cat : jsstring) : jsstring :=
  let normalizedCat := toLowerCase (Js.trim cat) in
  let found := find (fun c => bool_decide (toLowerCase c = normalizedCat)) CATEGORIES in
  match found with
  | Some c => Js.or_str c CATEGORIES_0
  | None => CATEGORIES_0
  end.

(** *** checkExpirationStatus

    [currentTime] is the value of [new Date().getTime()] at the call. *)
Definition msPerDay : Z := 1000 * 60 * 60 * 24.

Definition checkExpirationStatus (currentTime : Z)
    (dateString : jsstring) (thresholdDays : jsnum) : ExpirationStatus :=
  let expirationTime := Date_getTime dateString in
  let diffMs := Js.sub expirationTime (Num currentTime) in
  let diffDays := Js.Math_ceil_div diffMs msPerDay in
  if Js.lt diffDays (Num 0) then
    {| status := Expired;
       days := diffDays;
       message := js "VENCIDO hace " ++ Js.Number_toString (Js.Math_abs diffDays)
                  ++ js " días" |}
  else if Js.le diffDays thresholdDays then
    {| status := Warning;
       days := diffDays;
       message := js "¡ALARMA! Vence en " ++ Js.Number_toString diffDays
                  ++ js " días (Umbral: " ++ Js.Number_toString thresholdDays
                  ++ js " días)" |}
  else
    {| status := OK;
       days := diffDays;
       message := Js.Number_toString diffDays ++ js " días restantes" |}.

(** *** The stock snapshot handler *)

(** The callback of [snapshot.docs.map]. *)
Definition fetchItem (doc : QueryDoc.t) : Item.t :=
  let d := QueryDoc.data doc in
  {| Item.id := QueryDoc.id doc;
     Item.name := DocData.name d;
     Item.expirationDate := DocData.expirationDate d;
     Item.createdAt := DocData.createdAt d;
     Item.quantity := Js.parseInt (Js.ToString (DocData.quantity d));
     Item.alarmDays :=
       Js.or_num (Js.parseInt (Js.ToString (DocData.alarmDays d)))
                 (Num DEFAULT_ALARM_DAYS);
     Item.category := Js.or_val (DocData.category d) (VStr CATEGORIES_0) |}.

(** The comparator of [fetchedItems.sort]. *)
Definition byExpirationDate (a b : Item.t) : jsnum :=
  Js.sub (Date_getTime (Item.expirationDate a))
         (Date_getTime (Item.expirationDate b)).

Definition fetchedItems (docs : list QueryDoc.t) : list Item.t :=
  Js.Array_sort byExpirationDate (map fetchItem docs).

(** *** The memoised values *)

Definition isUrgent (currentTime : Z) (item : Item.t) : bool :=
  let st := status (checkExpirationStatus currentTime
                      (Item.expirationDate item) (Item.alarmDays item)) in
  bool_decide (st = Expired) || bool_decide (st = Warning).

(** [urgentItems]. The source reads the clock in every call of
    [checkExpirationStatus]; here one reading, [currentTime], serves
    the whole pass over [items], as if the pass took no time. What is
    stated of the urgent items below does not depend on which reading
    each item got. *)
Definition computeUrgentItems (currentTime : Z) (items : list Item.t) : list Item.t :=
  filter (fun item => isUrgent currentTime item = true) items.

(** [urgent.filter(item => checkExpirationStatus(...).status === st)].
    Every call of [checkExpirationStatus] reads the clock anew:
    [clock k] is the reading of the call made for the element at
    index [k]. *)
Fixpoint filterByStatus (st : Status) (clock : nat -> Z) (k : nat)
    (urgent : list Item.t) : list Item.t :=
  match urgent with
  | [] => []
  | item :: rest =>
      if bool_decide (status (checkExpirationStatus (clock k)
                                (Item.expirationDate item) (Item.alarmDays item)) = st)
      then item :: filterByStatus st clock (S k) rest
      else filterByStatus st clock (S k) rest
  end.

(** The two lists of [NotificationModal], each a filter pass of its
    own over the urgent items. *)
Definition criticalItems (clock : nat -> Z) (urgent : list Item.t) : list Item.t :=
  filterByStatus Warning clock 0 urgent.

Definition expiredItems (clock : nat -> Z) (urgent : list Item.t) : list Item.t :=
  filterByStatus Expired clock 0 urgent.

Definition byLocale (a b : jsstring) : jsnum := Num (localeCompare a b).

Definition uniqueItemNames (items : list Item.t) (commonNames : list jsstring)
    : list jsstring :=
  let namesFromStock := map (fun item => Js.trim (Item.name item)) items in
  let combinedNames := Js.Set_from (namesFromStock ++ commonNames) in
  Js.Array_sort byLocale combinedNames.

(** *** The forms *)

Definition initialNewItem : NewItem.t :=
  {| NewItem.name := [];
     NewItem.quantity := Num 1;
     NewItem.expirationDate := [];
     NewItem.alarmDays := Num DEFAULT_ALARM_DAYS;
     NewItem.category := CATEGORIES_0 |}.

Definition initialState : AppState :=
  {| items := [];
     commonNames := [];
     db := false;
     userId := None;
     isAuthReady := false;
     newItem := initialNewItem;
     loading := true;
     errorMessage := None;
     editingItem := None;
     showUrgentModal := false;
     showImportModal := false;
     importData := [];
     urgentItems := [];
     urgentModalDeps := None |}.

(** [Math.max(1, parseInt(value, 10) || 1)] *)
Definition coerceCount (value : jsstring) : jsnum :=
  Js.Math_max (Num 1) (Js.or_num (Js.parseInt value) (Num 1)).

Definition handleInputChange (name : Field) (value : jsstring) (s : AppState)
    : AppState :=
  let prev := newItem s in
  let next :=
    match name with
    | FName =>
        {| NewItem.name := value;
           NewItem.quantity := NewItem.quantity prev;
           NewItem.expirationDate := NewItem.expirationDate prev;
           NewItem.alarmDays := NewItem.alarmDays prev;
           NewItem.category := NewItem.category prev |}
    | FQuantity =>
        {| NewItem.name := NewItem.name prev;
           NewItem.quantity := coerceCount value;
           NewItem.expirationDate := NewItem.expirationDate prev;
           NewItem.alarmDays := NewItem.alarmDays prev;
           NewItem.category := NewItem.category prev |}
    | FExpirationDate =>
        {| NewItem.name := NewItem.name prev;
           NewItem.quantity := NewItem.quantity prev;
           NewItem.expirationDate := value;
           NewItem.alarmDays := NewItem.alarmDays prev;
           NewItem.category := NewItem.category prev |}
    | FAlarmDays =>
        {| NewItem.name := NewItem.name prev;
           NewItem.quantity := NewItem.quantity prev;
           NewItem.expirationDate := NewItem.expirationDate prev;
           NewItem.alarmDays := coerceCount value;
           NewItem.category := NewItem.category prev |}
    | FCategory =>
        {| NewItem.name := NewItem.name prev;
           NewItem.quantity := NewItem.quantity prev;
           NewItem.expirationDate := NewItem.expirationDate prev;
           NewItem.alarmDays := NewItem.alarmDays prev;
           NewItem.category := value |}
    end in
  setNewItem next s.

Definition editField (name : Field) (value : jsstring) (prev : Item.t) : Item.t :=
  {| Item.id := Item.id prev;
     Item.createdAt := Item.createdAt prev;
     Item.name := match name with FName => value | _ => Item.name prev end;
     Item.quantity :=
       match name with FQuantity => coerceCount value | _ => Item.quantity prev end;
     Item.expirationDate :=
       match name with FExpirationDate => value | _ => Item.expirationDate prev end;
     Item.alarmDays :=
       match name with FAlarmDays => coerceCount value | _ => Item.alarmDays prev end;
     Item.category :=
       match name with FCategory => VStr value | _ => Item.category prev end |}.

(** The edit form is rendered only while an item is being edited. *)
Definition handleEditChange (name : Field) (value : jsstring) (s : AppState)
    : AppState :=
  setEditingItem (editField name value <$> editingItem s) s.

(** *** Writes to the store

    A handler acts on the component and on the store; what the store
    answers to a write is an argument of the handler. *)
Abbreviation World := (AppState * Firestore)%type.

(** [!db || !userId] *)
Definition notConnected (s : AppState) : bool :=
  negb (db s) || negb (Js.truthy_str (default [] (userId s))).

Definition saveCommonName (setDocOk : bool) (name : jsstring) (w : World) : World :=
  let '(s, fs) := w in
  if notConnected s || negb (Js.truthy_str name) then w
  else
    let trimmedName := Js.trim name in
    if Js.truthy_str trimmedName && negb (bool_decide (trimmedName ∈ commonNames s))
    then
      if setDocOk then
        (s, {| stock_items := stock_items fs;
               common_names := <[sanitizeDocId trimmedName := trimmedName]> (common_names fs) |})
      else w
    else w.

(** [addItem]: [addDocResult] is the identifier the store assigns, or
    [None] when the write fails; [createdAt] is the clock reading. *)
Definition addItem (addDocResult : option jsstring) (createdAt : jsstring)
    (setDocOk : bool) (w : World) : World :=
  let '(s, fs) := w in
  if notConnected s then w
  else
    let n := newItem s in
    if negb (Js.truthy_str (NewItem.name n))
       || negb (Js.truthy_str (NewItem.expirationDate n))
       || Js.le (NewItem.quantity n) (Num 0)
       || Js.le (NewItem.alarmDays n) (Num 0)
    then
      (setErrorMessage
         (Some (js "Por favor, complete todos los campos requeridos correctamente.")) s,
       fs)
    else
      let s1 := setErrorMessage None s in
      let trimmedName := Js.trim (NewItem.name n) in
      match addDocResult with
      | Some newId =>
          let doc :=
            {| DocData.name := trimmedName;
               DocData.quantity := VNum (NewItem.quantity n);
               DocData.expirationDate := NewItem.expirationDate n;
               DocData.alarmDays := VNum (NewItem.alarmDays n);
               DocData.category := VStr (NewItem.category n);
               DocData.createdAt := VStr createdAt |} in
          let fs1 :=
            {| stock_items := <[newId := doc]> (stock_items fs);
               common_names := common_names fs |} in
          let '(s2, fs2) := saveCommonName setDocOk trimmedName (s1, fs1) in
          (setNewItem initialNewItem s2, fs2)
      | None =>
          (setErrorMessage (Some (js "Error al guardar el artículo.")) s1, fs)
      end.

(** [updateItem]: [updateDoc] rewrites five fields of an existing
    document and fails when there is none. *)
Definition updateItem (updateDocOk setDocOk : bool) (w : World) : World :=
  let '(s, fs) := w in
  if notConnected s then w
  else
    match editingItem s with
    | None => w
    | Some e =>
        if negb (Js.truthy_str (Item.name e))
           || negb (Js.truthy_str (Item.expirationDate e))
           || Js.le (Item.quantity e) (Num 0)
           || Js.le (Item.alarmDays e) (Num 0)
        then
          (setErrorMessage
             (Some (js "Por favor, complete todos los campos de edición correctamente.")) s,
           fs)
        else
          let s1 := setErrorMessage None s in
          let trimmedName := Js.trim (Item.name e) in
          match stock_items fs !! Item.id e with
          | Some old =>
              if updateDocOk then
                let doc :=
                  {| DocData.name := trimmedName;
                     DocData.quantity := VNum (Item.quantity e);
                     DocData.expirationDate := Item.expirationDate e;
                     DocData.alarmDays := VNum (Item.alarmDays e);
                     DocData.category := Item.category e;
                     DocData.createdAt := DocData.createdAt old |} in
                let fs1 :=
                  {| stock_items := <[Item.id e := doc]> (stock_items fs);
                     common_names := common_names fs |} in
                let '(s2, fs2) := saveCommonName setDocOk trimmedName (s1, fs1) in
                (setEditingItem None s2, fs2)
              else
                (setErrorMessage (Some (js "Error al actualizar el artículo.")) s1, fs)
          | None =>
              (setErrorMessage (Some (js "Error al actualizar el artículo.")) s1, fs)
          end
    end.

Definition deleteItem (id : jsstring) (deleteDocOk : bool) (w : World) : World :=
  let '(s, fs) := w in
  if notConnected s then w
  else if deleteDocOk then
    (s, {| stock_items := delete id (stock_items fs);
           common_names := common_names fs |})
  else
    (setErrorMessage (Some (js "Error al eliminar el artículo.")) s, fs).

(** *** handleImport *)

Record ImportScan := {
  namesToSave : list jsstring;
  successCount : Z;
  errorCount : Z }.

(** [values[0]?.trim()], where [values] is the line split on tabs when
    that gives more than one piece and on commas otherwise. *)
Definition firstValue (line : jsstring) : option jsstring :=
  let values :=
    if (1 <? length (Js.split 9 line))%nat then Js.split 9 line
    else Js.split 44 line in
  Js.trim <$> head values.

Definition scanLine (acc : ImportScan) (line : jsstring) : ImportScan :=
  let name := default [] (firstValue line) in
  if Js.truthy_str name then
    {| namesToSave := Js.Set_add name (namesToSave acc);
       successCount := successCount acc + 1;
       errorCount := errorCount acc |}
  else
    {| namesToSave := namesToSave acc;
       successCount := successCount acc;
       errorCount := errorCount acc + 1 |}.

Definition scanImport (data : jsstring) : ImportScan :=
  foldl scanLine
    {| namesToSave := []; successCount := 0; errorCount := 0 |}
    (Js.split 10 (Js.trim data)).

(** The write batch: one [set] per name, on the document whose
    identifier is the sanitized name. *)
Definition importBatch (scan : ImportScan) : list (jsstring * jsstring) :=
  map (fun name => (sanitizeDocId name, name)) (namesToSave scan).

Definition batch_commit (batch : list (jsstring * jsstring))
    (names : gmap jsstring jsstring) : gmap jsstring jsstring :=
  foldl (fun m op => <[op.1 := op.2]> m) names batch.

(** A call of [handleImport] waiting for [batch.commit()]. *)
Record PendingImport := {
  pendingBatch : list (jsstring * jsstring);
  pendingScan : ImportScan }.

(** [handleImport] up to the [await]. *)
Definition handleImport_start (s : AppState) : AppState * option PendingImport :=
  if notConnected s || negb (Js.truthy_str (Js.trim (importData s))) then
    (setErrorMessage
       (Some (js "No hay datos para importar o Firebase no está listo.")) s,
     None)
  else
    let s1 := setErrorMessage None (setLoading true s) in
    let scan := scanImport (importData s) in
    (s1, Some {| pendingBatch := importBatch scan; pendingScan := scan |}).

(** [handleImport] from the [await] on: the commit applies the whole
    batch or, rejecting with [commitError], none of it. *)
Definition handleImport_resume (commitError : option jsstring)
    (p : PendingImport) (w : World) : World :=
  let '(s, fs) := w in
  match commitError with
  | None =>
      let fs1 :=
        {| stock_items := stock_items fs;
           common_names := batch_commit (pendingBatch p) (common_names fs) |} in
      let text :=
        js "Importación de nombres completada: "
        ++ Js.Number_toString (Num (Z.of_nat (length (namesToSave (pendingScan p)))))
        ++ js " nombres únicos agregados/actualizados. "
        ++ Js.Number_toString (Num (errorCount (pendingScan p)))
        ++ js " líneas ignoradas." in
      (setLoading false
         (setErrorMessage (Some text)
            (setShowImportModal false (setImportData [] s))),
       fs1)
  | Some err =>
      (setLoading false
         (setErrorMessage
            (Some (js "Error grave al guardar los nombres comunes en Firestore. " ++ err))
            s),
       fs)
  end.

(** *** Subscriptions and start-up *)

Definition onStockSnapshot (docs : list QueryDoc.t) (s : AppState) : AppState :=
  setLoading false (setItems (fetchedItems docs) s).

Definition onStockSnapshotError (s : AppState) : AppState :=
  setLoading false
    (setErrorMessage (Some (js "No se pudieron cargar los artículos.")) s).

Definition onNamesSnapshot (names : list jsstring) (s : AppState) : AppState :=
  setCommonNames names s.

(** The body of the effect that subscribes to [stock_items]. *)
Definition subscribeStock (s : AppState) : AppState :=
  if negb (db s) || negb (isAuthReady s)
     || negb (Js.truthy_str (default [] (userId s)))
  then s
  else setLoading true s.

(** *** The alarm modal *)

(** The body of the effect on [urgentItems.length] and [loading]. *)
Definition urgentModalEffect (s : AppState) : AppState :=
  if (0 <? length (urgentItems s))%nat && negb (loading s)
  then setShowUrgentModal true s
  else s.

(** [NotificationModal]'s [handleClose]. *)
Definition handleClose (s : AppState) : AppState := setShowUrgentModal false s.

(** What the modal effect depends on. *)
Definition urgentModalKey (s : AppState) : nat * bool :=
  (length (urgentItems s), loading s).

(** One render and commit. [newItems] carries the clock reading when
    [items] is a new array, so that the memo recomputes; the effect
    runs on the first commit and whenever its dependencies differ from
    those of its last run. *)
Definition render (newItems : option Z) (s : AppState) : AppState :=
  let s1 :=
    match newItems with
    | Some currentTime =>
        setUrgentItems (computeUrgentItems currentTime (items s)) s
    | None => s
    end in
  if decide (urgentModalDeps s1 = Some (urgentModalKey s1)) then s1
  else urgentModalEffect (setUrgentModalDeps (Some (urgentModalKey s1)) s1).

(** *** The component as a transition system *)

Inductive Event :=
  | FirebaseUnavailable
  | FirebaseInitialized
  | FirebaseInitFailed
  | AuthUser (uid : jsstring)
  | AuthAnonymous (fallbackUid : option jsstring)
  | SubscribeStock
  | StockSnapshot (docs : list QueryDoc.t) (currentTime : Z)
  | StockSnapshotError
  | NamesSnapshot (names : list jsstring)
  | InputChange (name : Field) (value : jsstring)
  | EditChange (name : Field) (value : jsstring)
  | EditStart (item : Item.t)
  | EditCancel
  | SubmitNew (addDocResult : option jsstring) (createdAt : jsstring) (setDocOk : bool)
  | SubmitEdit (updateDocOk setDocOk : bool)
  | Delete (id : jsstring) (deleteDocOk : bool)
  | ImportOpen
  | ImportCancel
  | ImportType (value : jsstring)
  | ImportStart
  | ImportSettled (commitError : option jsstring)
  | UrgentModalClose.

Record System := {
  app : AppState;
  firestore : Firestore;
  pendingImports : list PendingImport }.

(** The state updates of one event, before the render that follows. *)
Definition handle (e : Event) (sys : System) : System :=
  let s := app sys in
  let fs := firestore sys in
  let ps := pendingImports sys in
  let only (s' : AppState) :=
    {| app := s'; firestore := fs; pendingImports := ps |} in
  let both (w : World) :=
    {| app := w.1; firestore := w.2; pendingImports := ps |} in
  match e with
  | FirebaseUnavailable =>
      only (setLoading false
              (setErrorMessage
                 (Some (js "Error: La configuración de Firebase no está disponible.")) s))
  | FirebaseInitialized => only (setDb true s)
  | FirebaseInitFailed =>
      only (setLoading false
              (setErrorMessage (Some (js "Error de inicialización de Firebase.")) s))
  | AuthUser uid => only (setUserId (Some uid) s)
  | AuthAnonymous fallbackUid =>
      only (setIsAuthReady true
              match fallbackUid with
              | Some uid => setUserId (Some uid) s
              | None => s
              end)
  | SubscribeStock => only (subscribeStock s)
  | StockSnapshot docs _ => only (onStockSnapshot docs s)
  | StockSnapshotError => only (onStockSnapshotError s)
  | NamesSnapshot names => only (onNamesSnapshot names s)
  | InputChange name value => only (handleInputChange name value s)
  | EditChange name value => only (handleEditChange name value s)
  | EditStart item => only (setEditingItem (Some item) s)
  | EditCancel => only (setEditingItem None s)
  | SubmitNew addDocResult createdAt setDocOk =>
      both (addItem addDocResult createdAt setDocOk (s, fs))
  | SubmitEdit updateDocOk setDocOk => both (updateItem updateDocOk setDocOk (s, fs))
  | Delete id deleteDocOk => both (deleteItem id deleteDocOk (s, fs))
  | ImportOpen => only (setErrorMessage None (setShowImportModal true s))
  | ImportCancel => only (setErrorMessage None (setShowImportModal false s))
  | ImportType value => only (setImportData value s)
  | ImportStart =>
      let '(s1, p) := handleImport_start s in
      {| app := s1; firestore := fs; pendingImports := ps ++ option_list p |}
  | ImportSettled commitError =>
      match ps with
      | [] => sys
      | p :: ps' =>
          let w := handleImport_resume commitError p (s, fs) in
          {| app := w.1; firestore := w.2; pendingImports := ps' |}
      end
  | UrgentModalClose => only (handleClose s)
  end.

Definition step (e : Event) (sys : System) : System :=
  let sys1 := handle e sys in
  let newItems :=
    match e with
    | StockSnapshot _ currentTime => Some currentTime
    | _ => None
    end in
  {| app := render newItems (app sys1);
     firestore := firestore sys1;
     pendingImports := pendingImports sys1 |}.

(** The component after its first render, on a store [fs]. *)
Definition mounted (fs : Firestore) : System :=
  {| app := render None initialState;
     firestore := fs;
     pendingImports := [] |}.

Definition run (fs : Firestore) (trace : list Event) : System :=
  foldl (fun sys e => step e sys) (mounted fs) trace.

(** *** generateGeminiContent *)

(** What [response.json()] and the reading of its result give.
    [BodyRejects]: the body is not a JSON document and [json()]
    rejects, or it is the document [null], of which reading a field
    throws; either way control passes to the [catch]. [BodyJson
    field]: the body is a JSON document other than [null], of which
    the caller reads one field, the generated text of a success or the
    [error.message] of a failure; the field may be absent. *)
Inductive Body :=
  | BodyRejects
  | BodyJson (field : option jsstring).

(** What one [fetch] gives: it rejects (transport failure), or it
    resolves to a response. *)
Inductive FetchOutcome :=
  | FetchRejects
  | FetchResponse (status : Z) (statusText : jsstring) (body : Body).

(** [response.ok] *)
Definition response_ok (status : Z) : bool := (200 <=? status) && (status <=? 299).

(** What the caller does to the outside, in order. *)
Inductive Effect :=
  | Fetch (attempt : nat)
  | Sleep (ms : Z).

Record GeminiState := {
  geminiLoading : bool;
  geminiResponse : option jsstring;
  showGeminiModal : bool }.

(** The [for] loop, from iteration [i] on, with [fuel] iterations left:
    the response text it leaves and the effects it performs. [server i]
    is the outcome of the fetch of iteration [i]. *)
Fixpoint retryLoop (server : nat -> FetchOutcome) (maxRetries : nat)
    (fuel i : nat) (delay : Z) (response : option jsstring)
    : option jsstring * list Effect :=
  match fuel with
  | O => (response, [])
  | S fuel' =>
      let retry :=
        let '(r, effects) := retryLoop server maxRetries fuel' (S i) (delay * 2) response in
        (r, Fetch i :: Sleep delay :: effects) in
      let caught :=
        if (i <? maxRetries - 1)%nat then retry
        else
          let '(r, effects) :=
            retryLoop server maxRetries fuel' (S i) delay
              (Some (js "Error de conexión con el servicio de IA.")) in
          (r, Fetch i :: effects) in
      match server i with
      | FetchRejects => caught
      | FetchResponse status statusText body =>
          if response_ok status then
            match body with
            | BodyJson text =>
                (Some (Js.or_str (default [] text)
                         (js "No se pudo generar una respuesta.")),
                 [Fetch i])
            | BodyRejects => caught
            end
          else if (status =? 429) && (i <? maxRetries - 1)%nat then retry
          else
            match body with
            | BodyJson errorMessage =>
                (Some (js "Error: " ++ Js.or_str (default [] errorMessage) statusText),
                 [Fetch i])
            | BodyRejects => caught
            end
      end
  end.

Definition maxRetries : nat := 3.

Definition generateGeminiContent (server : nat -> FetchOutcome)
    : GeminiState * list Effect :=
  let '(response, effects) := retryLoop server maxRetries maxRetries 0 1000 None in
  ({| geminiLoading := false;
      geminiResponse := response;
      showGeminiModal := true |},
   effects).

(** The effects of a call that ends on its [n]-th fetch: fetches
    separated by sleeps of 1000 ms, 2000 ms, and so on, doubling. *)
Definition backoffTrace (n : nat) : list Effect :=
  match n with
  | O => []
  | S k =>
      Fetch 0 :: flat_map (fun j => [Sleep (1000 * 2 ^ Z.of_nat j); Fetch (S j)]) (seq 0 k)
  end.

(** *** uniqueItemNames on shared arrays

    [items] and [commonNames] are references to arrays that the rest of
    the component reads too. The memo is run here on a heap of objects:
    every step that builds an array or a set allocates, and [sort]
    rewrites the array it is called on. *)
Inductive HeapObject :=
  | ItemArray (l : list Item.t)
  | StringArray (l : list jsstring)
  | StringSet (l : list jsstring).

Abbreviation Heap := (gmap positive HeapObject).

Definition Mem (A : Type) : Type := Heap -> option (A * Heap).

Definition mem_ret {A} (x : A) : Mem A := fun h => Some (x, h).

Definition mem_bind {A B} (m : Mem A) (k : A -> Mem B) : Mem B :=
  fun h =>
    match m h with
    | Some (x, h') => k x h'
    | None => None
    end.

Local Notation "'let*' x := m 'in' k" := (mem_bind m (fun x => k))
  (at level 10, x name, m at level 100, k at level 200).

Definition allocate (o : HeapObject) : Mem positive :=
  fun h => let r := fresh (dom h) in Some (r, <[r := o]> h).

Definition readItems (r : positive) : Mem (list Item.t) :=
  fun h =>
    match h !! r with
    | Some (ItemArray l) => Some (l, h)
    | _ => None
    end.

Definition readStrings (r : positive) : Mem (list jsstring) :=
  fun h =>
    match h !! r with
    | Some (StringArray l) => Some (l, h)
    | _ => None
    end.

Definition readSet (r : positive) : Mem (list jsstring) :=
  fun h =>
    match h !! r with
    | Some (StringSet l) => Some (l, h)
    | _ => None
    end.

(** [array.sort(byLocale)]: sorts in place and returns the array. *)
Definition sortInPlace (r : positive) : Mem positive :=
  fun h =>
    match h !! r with
    | Some (StringArray l) =>
        Some (r, <[r := StringArray (Js.Array_sort byLocale l)]> h)
    | _ => None
    end.

Definition uniqueItemNames_heap (items commonNames : positive) : Mem positive :=
  let* its := readItems items in
  let* namesFromStock := allocate (StringArray (map (fun item => Js.trim (Item.name item)) its)) in
  let* a := readStrings namesFromStock in
  let* b := readStrings commonNames in
  let* spread := allocate (StringArray (a ++ b)) in
  let* c := readStrings spread in
  let* combinedNames := allocate (StringSet (Js.Set_from c)) in
  let* d := readSet combinedNames in
  let* fromSet := allocate (StringArray d) in
  sortInPlace fromSet.

(** *** Orderings used to state facts *)

(** [a] expires no later than [b]; both dates are readable. *)
Definition expiresNoLater (a b : Item.t) : Prop :=
  match Date_getTime (Item.expirationDate a), Date_getTime (Item.expirationDate b) with
  | Num ta, Num tb => ta <= tb
  | _, _ => False
  end.

Definition readableDate (dateString : jsstring) : Prop :=
  exists t : Z, Date_getTime dateString = Num t.

(** Every stock snapshot of the trace carries readable dates only. *)
Definition readableSnapshots (trace : list Event) : Prop :=
  Forall (fun e =>
            match e with
            | StockSnapshot docs _ =>
                Forall (fun doc =>
                          readableDate (DocData.expirationDate (QueryDoc.data doc))) docs
            | _ => True
            end) trace.

(** *** Reading a trace of effects *)

(** The number of fetches performed. *)
Fixpoint attempts (effects : list Effect) : nat :=
  match effects with
  | [] => 0
  | Fetch _ :: rest => S (attempts rest)
  | Sleep _ :: rest => attempts rest
  end.

(** The fetches and sleeps from iteration [i] on, when [k] retries follow. *)
Definition backoffFrom (i k : nat) : list Effect :=
  Fetch i :: flat_map (fun j => [Sleep (1000 * 2 ^ Z.of_nat j); Fetch (S j)]) (seq i k).

(** An outcome after which the loop goes on: a rejected fetch, a 429,
    or a response whose body cannot be read. *)
Definition retried (outcome : FetchOutcome) : bool :=
  match outcome with
  | FetchRejects => true
  | FetchResponse status _ body =>
      (negb (response_ok status) && (status =? 429))
      || match body with
         | BodyRejects => true
         | BodyJson _ => false
         end
  end.

(** *** Mock servers *)

(** 429 twice, then 200 with a generated text. *)
Definition mockLimitedTwice (attempt : nat) : FetchOutcome :=
  match attempt with
  | 0%nat | 1%nat =>
      FetchResponse 429 (js "Too Many Requests") (BodyJson (Some (js "Resource exhausted")))
  | _ => FetchResponse 200 (js "OK") (BodyJson (Some (js "Preparar un flan con la leche.")))
  end.

(** 429 twice, then 200 with a body that is not a JSON document. *)
Definition mockLimitedThenUnreadable (attempt : nat) : FetchOutcome :=
  match attempt with
  | 0%nat | 1%nat =>
      FetchResponse 429 (js "Too Many Requests") (BodyJson (Some (js "Resource exhausted")))
  | _ => FetchResponse 200 (js "OK") BodyRejects
  end.

(** 500 with an error document. *)
Definition mockServerError (attempt : nat) : FetchOutcome :=
  FetchResponse 500 (js "Internal Server Error") (BodyJson (Some (js "Internal error"))).

(** 502 from a gateway, the body an HTML page. *)
Definition mockBadGateway (attempt : nat) : FetchOutcome :=
  FetchResponse 502 (js "Bad Gateway") BodyRejects.

(** 429 on every fetch, and 500 on every fetch: in both, no status text
    and no message in the document. *)
Definition mockAlwaysLimited (attempt : nat) : FetchOutcome :=
  FetchResponse 429 [] (BodyJson None).

Definition mockAlwaysFailing (attempt : nat) : FetchOutcome :=
  FetchResponse 500 [] (BodyJson None).

(** No network. *)
Definition mockOffline (attempt : nat) : FetchOutcome := FetchRejects.

(** *** The first field of a line, in the words of the specification *)

(** The part of [line] before the first [sep]; all of it if there is none. *)
Fixpoint beforeFirst (sep : N) (line : jsstring) : jsstring :=
  match line with
  | [] => []
  | c :: rest => if (c =? sep)%N then [] else c :: beforeFirst sep rest
  end.

(** Split on tab when the line contains a tab, on comma otherwise; take
    the first field and trim it. *)
Definition firstField (line : jsstring) : jsstring :=
  Js.trim (if decide (9%N ∈ line) then beforeFirst 9 line else beforeFirst 44 line).

(** The raw text of the example: Milk, Milk, an empty line, Cheese. *)
Definition milkMilkCheese : jsstring :=
  js "Milk" ++ [10%N] ++ js "Milk" ++ [10%N] ++ [10%N] ++ js "Cheese".

(** Typing [data] into the import box, pressing the button, and the
    store accepting the batch. *)
Definition importSession (data : jsstring) : list Event :=
  [ImportType data; ImportStart; ImportSettled None].

(** *** Validity of a draft *)



(** A session that has reached the store: Firebase initialised, the
    user signed in, the stock subscription started and a first, empty
    snapshot delivered. *)
Definition connectedTrace : list Event :=
  [FirebaseInitialized; AuthUser (js "u-1"); AuthAnonymous None; SubscribeStock;
   StockSnapshot [] Sample.now].

(** *** Membership in the fixed categories *)

Definition isCategory (v : jsval) : Prop :=
  exists c : jsstring, c ∈ CATEGORIES /\ v = VStr c.

(** *** Words for stating further facts *)

(** Two code units that [sanitizeDocId] does not tell apart: equal, or
    each a slash or an underscore. *)
Definition sameUnitUpToSlash (x y : N) : Prop :=
  x = y \/ ((x = 47%N \/ x = 95%N) /\ (y = 47%N \/ y = 95%N)).

(** No white space at either end. *)
Definition noEdgeSpace (s : jsstring) : Prop :=
  (forall c : N, head s = Some c -> Js.isWhiteSpace c = false)
  /\ (forall c : N, last s = Some c -> Js.isWhiteSpace c = false).

(** [parts.join(sep)] for a separator of one code unit. *)
Fixpoint joinWith (sep : N) (parts : list jsstring) : jsstring :=
  match parts with
  | [] => []
  | [p] => p
  | p :: rest => p ++ sep :: joinWith sep rest
  end.

(** The number of occurrences of a code unit. *)
Fixpoint countUnit (c : N) (s : jsstring) : nat :=
  match s with
  | [] => 0
  | x :: rest => (if (x =? c)%N then 1 else 0) + countUnit c rest
  end.

(** An import whose commit the store rejects with [err], followed by a
    second press of the button that the store accepts. *)
Definition retrySession (data err : jsstring) : list Event :=
  [ImportType data; ImportStart; ImportSettled (Some err); ImportStart; ImportSettled None].

(** How pressing a status is. *)
Definition severity (st : Status) : Z :=
  match st with
  | OK => 0
  | Warning => 1
  | Expired => 2
  end.

(** The documents and the clock reading of the last stock snapshot of
    a trace. *)
Definition lastStockSnapshot (trace : list Event) : option (list QueryDoc.t * Z) :=
  foldl (fun acc e =>
           match e with
           | StockSnapshot docs currentTime => Some (docs, currentTime)
           | _ => acc
           end) None trace.

(** *** What the component writes to the store *)

(** A stock document as both submit handlers leave it: the name
    trimmed, a date present, and counts that are not at or below zero. *)
Definition submittedDoc (id : jsstring) (d : DocData.t) : Prop :=
  noEdgeSpace (DocData.name d)
  /\ DocData.expirationDate d <> []
  /\ exists quantity alarmDays : jsnum,
       DocData.quantity d = VNum quantity
       /\ Js.le quantity (Num 0) = false
       /\ DocData.alarmDays d = VNum alarmDays
       /\ Js.le alarmDays (Num 0) = false.

(** A common name as the component stores it: under its sanitized
    form, non-empty, trimmed. *)
Definition storedName (id name : jsstring) : Prop :=
  id = sanitizeDocId name /\ name <> [] /\ noEdgeSpace name.

(** The document [addItem] sends to the store for a draft. *)
Definition draftDoc (n : NewItem.t) (createdAt : jsstring) : DocData.t :=
  {| DocData.name := Js.trim (NewItem.name n);
     DocData.quantity := VNum (NewItem.quantity n);
     DocData.expirationDate := NewItem.expirationDate n;
     DocData.alarmDays := VNum (NewItem.alarmDays n);
     DocData.category := VStr (NewItem.category n);
     DocData.createdAt := VStr createdAt |}.

(** The document [updateItem] leaves for an edited item, given the
    document that was there. *)
Definition editedDoc (e : Item.t) (old : DocData.t) : DocData.t :=
  {| DocData.name := Js.trim (Item.name e);
     DocData.quantity := VNum (Item.quantity e);
     DocData.expirationDate := Item.expirationDate e;
     DocData.alarmDays := VNum (Item.alarmDays e);
     DocData.category := Item.category e;
     DocData.createdAt := DocData.createdAt old |}.

(** The value of a decimal numeral read from the left into [acc]. *)
Fixpoint uintValue (acc : Z) (d : Decimal.uint) : Z :=
  match d with
  | Decimal.Nil => acc
  | Decimal.D0 d' => uintValue (10 * acc) d'
  | Decimal.D1 d' => uintValue (10 * acc + 1) d'
  | Decimal.D2 d' => uintValue (10 * acc + 2) d'
  | Decimal.D3 d' => uintValue (10 * acc + 3) d'
  | Decimal.D4 d' => uintValue (10 * acc + 4) d'
  | Decimal.D5 d' => uintValue (10 * acc + 5) d'
  | Decimal.D6 d' => uintValue (10 * acc + 6) d'
  | Decimal.D7 d' => uintValue (10 * acc + 7) d'
  | Decimal.D8 d' => uintValue (10 * acc + 8) d'
  | Decimal.D9 d' => uintValue (10 * acc + 9) d'
  end.

(** The largest integer that a double holds exactly together with all
    smaller ones. *)
Definition MAX_SAFE_INTEGER : Z := 9007199254740991.

(** *** Sample sessions for the store handlers *)

(** A store that holds one stock document and its common name. *)
Definition savedStore : Firestore :=
  {| stock_items := {[ QueryDoc.id Sample.milk := QueryDoc.data Sample.milk ]};
     common_names := {[ js "Leche" := js "Leche" ]} |}.

(** A connected session in which a draft has been typed. *)
Definition draftTrace : list Event :=
  connectedTrace
  ++ [InputChange FName (js " Yogur ");
      InputChange FExpirationDate (js "2025-03-10");
      InputChange FQuantity (js "3")].

(** A connected session in which the edit form has been opened on the
    item of the stored document. *)
Definition editTrace : list Event :=
  connectedTrace ++ [EditStart (fetchItem Sample.milk)].


(** *** The range in which counts are exact *)



(** *** A snapshot with a date the host cannot read *)

(** A document whose expiration date is not a date. *)
Definition undated : QueryDoc.t :=
  Sample.stockDoc (js "f6") (js "Pan") (js "pronto") (VNum (Num 7)) (VStr (js "General")).

(** A connected session whose last snapshot delivers a later date, the
    unreadable one, and an earlier date, in this order. *)
Definition undatedTrace : list Event :=
  connectedTrace ++ [StockSnapshot [Sample.cheese; undated; Sample.milk] Sample.now].

(** ** The expiration status *)

Lemma ceil_div_bounds (a d : Z) :
  0 < d -> (Js.ceil_div a d - 1) * d < a <= Js.ceil_div a d * d.
Proof.
  intros Hd. unfold Js.ceil_div.
  pose proof (Z.div_mod (- a) d ltac:(lia)) as Hdm.
  pose proof (Z.mod_pos_bound (- a) d Hd) as Hm.
  nia.
Qed.

Lemma msPerDay_pos : 0 < msPerDay.
Proof. reflexivity. Qed.

(** C1. For a date the host can read, a threshold of at least one day
    and any clock reading, [checkExpirationStatus] returns as [days]
    the ceiling [d] of the remaining time in whole days, and its
    status is [Expired] exactly when [d < 0], [Warning] exactly when
    [0 <= d <= T], and [OK] exactly when [d > T]. *)
Theorem checkExpirationStatus_classifies
    (currentTime : Z) (dateString : jsstring) (expirationTime T : Z) :
  Date_getTime dateString = Num expirationTime ->
  1 <= T ->
  exists d : Z,
    days (checkExpirationStatus currentTime dateString (Num T)) = Num d
    /\ (d - 1) * msPerDay < expirationTime - currentTime <= d * msPerDay
    /\ (status (checkExpirationStatus currentTime dateString (Num T)) = Expired
        <-> d < 0)
    /\ (status (checkExpirationStatus currentTime dateString (Num T)) = Warning
        <-> 0 <= d <= T)
    /\ (status (checkExpirationStatus currentTime dateString (Num T)) = OK
        <-> T < d).
Proof.
  intros Hdate HT.
  exists (Js.ceil_div (expirationTime - currentTime) msPerDay).
  pose proof (ceil_div_bounds (expirationTime - currentTime) msPerDay msPerDay_pos) as Hb.
  unfold checkExpirationStatus. rewrite Hdate. cbn [Js.sub Js.Math_ceil_div Js.lt Js.le].
  set (d := Js.ceil_div (expirationTime - currentTime) msPerDay) in *.
  destruct (Z.ltb_spec d 0) as [Hneg | Hnn]; cbn [days status].
  - repeat split; try lia; intros; try discriminate; try lia.
  - destruct (Z.leb_spec d T) as [Hle | Hgt]; cbn [days status].
    + repeat split; try lia; intros; try discriminate; try lia.
    + repeat split; try lia; intros; try discriminate; try lia.
Qed.

(** A date the host cannot read leaves [days] at NaN and the status at
    [OK]. *)
Lemma checkExpirationStatus_invalid_date (currentTime : Z) (dateString : jsstring)
    (thresholdDays : jsnum) :
  Date_getTime dateString = NaN ->
  status (checkExpirationStatus currentTime dateString thresholdDays) = OK
  /\ days (checkExpirationStatus currentTime dateString thresholdDays) = NaN.
Proof.
  intros H. unfold checkExpirationStatus. rewrite H. split; reflexivity.
Qed.

(** ** Array.prototype.sort *)

Section SortFacts.
Context {A : Type} (cmp : A -> A -> jsnum) (P : A -> Prop) (R : A -> A -> Prop).
Hypothesis R_le : forall x y, P x -> P y -> Js.SortCompare cmp x y <= 0 -> R x y.
Hypothesis R_gt : forall x y, P x -> P y -> 0 < Js.SortCompare cmp x y -> R y x.
Hypothesis R_trans : forall x y z, P x -> P y -> P z -> R x y -> R y z -> R x z.

Lemma sort_insert_perm (x : A) (l : list A) : Js.sort_insert cmp x l ≡ₚ x :: l.
Proof.
  induction l as [| y l IH]; cbn [Js.sort_insert]; [done |].
  destruct (Js.SortCompare cmp x y <=? 0); [done |].
  rewrite IH. apply Permutation_swap.
Qed.

Lemma Array_sort_perm (l : list A) : Js.Array_sort cmp l ≡ₚ l.
Proof.
  induction l as [| x l IH]; cbn; [done |].
  fold (Js.Array_sort cmp l). by rewrite sort_insert_perm, IH.
Qed.

Lemma sort_insert_sorted (x : A) (l : list A) :
  P x -> Forall P l -> StronglySorted R l ->
  StronglySorted R (Js.sort_insert cmp x l).
Proof.
  intros Hx HP Hs. induction Hs as [| y l Hs IH Hy]; cbn [Js.sort_insert].
  - repeat constructor.
  - apply Forall_cons in HP as [Py HP].
    destruct (Z.leb_spec (Js.SortCompare cmp x y) 0) as [Hle | Hgt].
    + constructor; [by constructor |].
      constructor; [by apply R_le |].
      rewrite Forall_forall in Hy, HP |- *. intros z Hz.
      apply (R_trans x y z); auto.
    + constructor; [by apply IH |].
      rewrite sort_insert_perm. constructor; [by apply R_gt | done].
Qed.

Lemma Array_sort_sorted (l : list A) :
  Forall P l -> StronglySorted R (Js.Array_sort cmp l).
Proof.
  induction 1 as [| x l Hx HP IH]; cbn; [constructor |].
  fold (Js.Array_sort cmp l). apply sort_insert_sorted; [done | | done].
  by rewrite Array_sort_perm.
Qed.

End SortFacts.

(** ** Renders and events *)

Lemma saveCommonName_app (setDocOk : bool) (name : jsstring) (w : World) :
  (saveCommonName setDocOk name w).1 = w.1.
Proof.
  destruct w as [s fs]. unfold saveCommonName.
  repeat case_match; reflexivity.
Qed.

Lemma saveCommonName_stock (setDocOk : bool) (name : jsstring) (w : World) :
  stock_items (saveCommonName setDocOk name w).2 = stock_items w.2.
Proof.
  destruct w as [s fs]. unfold saveCommonName.
  repeat case_match; reflexivity.
Qed.

Ltac open_handlers :=
  cbn [handle app firestore pendingImports fst snd];
  unfold addItem, updateItem, deleteItem, handleImport_start, handleImport_resume,
    onStockSnapshot, onStockSnapshotError, onNamesSnapshot, subscribeStock,
    handleInputChange, handleEditChange, handleClose.

Ltac split_handlers :=
  repeat (first
    [ match goal with
      | |- context [saveCommonName ?ok ?n ?w] =>
          let H := fresh "Hsave" in
          let s := fresh "s" in
          let fs := fresh "fs" in
          pose proof (saveCommonName_app ok n w) as H;
          destruct (saveCommonName ok n w) as [s fs]; cbn [fst snd] in H; subst s
      end
    | match goal with
      | |- context [if ?c then _ else _] => destruct c
      end
    | match goal with
      | |- context [match ?x with _ => _ end] => destruct x
      end ];
    cbv beta iota);
  cbn.

Lemma handle_items (e : Event) (sys : System) :
  items (app (handle e sys)) =
    match e with
    | StockSnapshot docs _ => fetchedItems docs
    | _ => items (app sys)
    end.
Proof. destruct e; open_handlers; split_handlers; reflexivity. Qed.

Lemma handle_urgentItems (e : Event) (sys : System) :
  urgentItems (app (handle e sys)) = urgentItems (app sys).
Proof. destruct e; open_handlers; split_handlers; reflexivity. Qed.

Lemma handle_urgentModalDeps (e : Event) (sys : System) :
  urgentModalDeps (app (handle e sys)) = urgentModalDeps (app sys).
Proof. destruct e; open_handlers; split_handlers; reflexivity. Qed.

Lemma handle_showUrgentModal (e : Event) (sys : System) :
  showUrgentModal (app (handle e sys)) =
    match e with
    | UrgentModalClose => false
    | _ => showUrgentModal (app sys)
    end.
Proof. destruct e; open_handlers; split_handlers; reflexivity. Qed.

Lemma render_items (newItems : option Z) (s : AppState) :
  items (render newItems s) = items s.
Proof.
  unfold render, urgentModalEffect. destruct newItems; repeat case_match; reflexivity.
Qed.

Lemma render_loading (newItems : option Z) (s : AppState) :
  loading (render newItems s) = loading s.
Proof.
  unfold render, urgentModalEffect. destruct newItems; repeat case_match; reflexivity.
Qed.

Lemma render_newItem (newItems : option Z) (s : AppState) :
  newItem (render newItems s) = newItem s.
Proof.
  unfold render, urgentModalEffect. destruct newItems; repeat case_match; reflexivity.
Qed.

Lemma render_urgentItems (newItems : option Z) (s : AppState) :
  urgentItems (render newItems s) =
    match newItems with
    | Some currentTime => computeUrgentItems currentTime (items s)
    | None => urgentItems s
    end.
Proof.
  unfold render, urgentModalEffect. destruct newItems; repeat case_match; reflexivity.
Qed.

(** After a render the effect has seen the current dependencies. *)
Lemma render_committed (newItems : option Z) (s : AppState) :
  urgentModalDeps (render newItems s) = Some (urgentModalKey (render newItems s)).
Proof.
  unfold render, urgentModalEffect.
  destruct newItems; repeat case_match; try done.
Qed.

Lemma run_snoc (fs : Firestore) (trace : list Event) (e : Event) :
  run fs (trace ++ [e]) = step e (run fs trace).
Proof. unfold run. by rewrite foldl_app. Qed.

Lemma run_committed (fs : Firestore) (trace : list Event) :
  urgentModalDeps (app (run fs trace)) = Some (urgentModalKey (app (run fs trace))).
Proof.
  destruct trace as [| e trace _] using rev_ind.
  - apply render_committed.
  - rewrite run_snoc. apply render_committed.
Qed.

(** ** The order of [items] *)

Lemma fetchedItems_perm (docs : list QueryDoc.t) :
  fetchedItems docs ≡ₚ map fetchItem docs.
Proof. apply Array_sort_perm. Qed.

Lemma fetchedItems_sorted (docs : list QueryDoc.t) :
  Forall (fun doc => readableDate (DocData.expirationDate (QueryDoc.data doc))) docs ->
  StronglySorted expiresNoLater (fetchedItems docs).
Proof.
  intros Hdocs. unfold fetchedItems.
  apply (Array_sort_sorted byExpirationDate
           (fun item => readableDate (Item.expirationDate item))).
  - intros x y [tx Hx] [ty Hy]. unfold Js.SortCompare, byExpirationDate, expiresNoLater.
    rewrite Hx, Hy. cbn. lia.
  - intros x y [tx Hx] [ty Hy]. unfold Js.SortCompare, byExpirationDate, expiresNoLater.
    rewrite Hx, Hy. cbn. lia.
  - intros x y z [tx Hx] [ty Hy] [tz Hz]. unfold expiresNoLater.
    rewrite Hx, Hy, Hz. lia.
  - rewrite Forall_map. eapply Forall_impl; [exact Hdocs |]. intros doc H. exact H.
Qed.

Lemma step_items (e : Event) (sys : System) :
  items (app (step e sys)) =
    match e with
    | StockSnapshot docs _ => fetchedItems docs
    | _ => items (app sys)
    end.
Proof. unfold step. cbn [app]. rewrite render_items. apply handle_items. Qed.

(** C10, as the handler has it. Along every run whose stock snapshots
    carry readable dates, [items] is sorted by expiration date,
    earliest first, and each snapshot of readable dates installs the
    sorted rearrangement of the items it delivers. The handler filters
    nothing: after every snapshot, readable or not, [items] holds
    exactly the documents delivered. *)
Theorem items_sorted_by_expirationDate (fs : Firestore) (trace : list Event) :
  (readableSnapshots trace ->
   StronglySorted expiresNoLater (items (app (run fs trace))))
  /\ (forall (docs : list QueryDoc.t) (currentTime : Z),
        Forall (fun doc => readableDate (DocData.expirationDate (QueryDoc.data doc))) docs ->
        StronglySorted expiresNoLater
          (items (app (step (StockSnapshot docs currentTime) (run fs trace)))))
  /\ (forall (docs : list QueryDoc.t) (currentTime : Z),
        items (app (step (StockSnapshot docs currentTime) (run fs trace)))
        ≡ₚ map fetchItem docs).
Proof.
  split; [| split].
  - intros Htrace. induction trace as [| e trace IH] using rev_ind.
    + unfold run, mounted. cbn [foldl app]. rewrite render_items. constructor.
    + apply Forall_app in Htrace as [Htrace He].
      apply Forall_cons in He as [He _].
      rewrite run_snoc, step_items.
      destruct e; try (by apply IH).
      by apply fetchedItems_sorted.
  - intros docs currentTime Hdocs. rewrite step_items. by apply fetchedItems_sorted.
  - intros docs currentTime. rewrite step_items. apply fetchedItems_perm.
Qed.

(** ** The alarm modal *)

Lemma step_app (e : Event) (sys : System) :
  app (step e sys) =
    render match e with
           | StockSnapshot _ currentTime => Some currentTime
           | _ => None
           end (app (handle e sys)).
Proof. reflexivity. Qed.

Lemma urgentModalEffect_key (s : AppState) :
  urgentModalKey (urgentModalEffect s) = urgentModalKey s.
Proof. unfold urgentModalEffect. by case_match. Qed.

(** What a render does to the flag, when the effect last ran with the
    dependencies [k]. *)
Lemma render_showUrgentModal (newItems : option Z) (s : AppState) (k : nat * bool) :
  urgentModalDeps s = Some k ->
  showUrgentModal (render newItems s) =
    if decide (urgentModalKey (render newItems s) = k)
    then showUrgentModal s
    else if (0 <? length (urgentItems (render newItems s)))%nat
            && negb (loading (render newItems s))
         then true
         else showUrgentModal s.
Proof.
  intros Hdeps. unfold render.
  set (s1 := match newItems with
             | Some currentTime =>
                 setUrgentItems (computeUrgentItems currentTime (items s)) s
             | None => s
             end).
  assert (urgentModalDeps s1 = Some k) as Hd by (subst s1; by destruct newItems).
  assert (showUrgentModal s1 = showUrgentModal s) as Hshow
    by (subst s1; by destruct newItems).
  rewrite Hd.
  destruct (decide (Some k = Some (urgentModalKey s1))) as [Heq | Hne].
  - injection Heq as Heq. rewrite decide_True by done. exact Hshow.
  - rewrite urgentModalEffect_key.
    change (urgentModalKey (setUrgentModalDeps (Some (urgentModalKey s1)) s1))
      with (urgentModalKey s1).
    rewrite decide_False by (intros E; apply Hne; by rewrite E).
    unfold urgentModalEffect.
    change (urgentItems (setUrgentModalDeps (Some (urgentModalKey s1)) s1))
      with (urgentItems s1).
    change (loading (setUrgentModalDeps (Some (urgentModalKey s1)) s1))
      with (loading s1).
    clearbody s1.
    destruct ((0 <? length (urgentItems s1))%nat && negb (loading s1)) eqn:Hc;
      cbn [urgentItems loading showUrgentModal setShowUrgentModal setUrgentModalDeps];
      rewrite Hc; [reflexivity | exact Hshow].
Qed.

Lemma handle_committed (e : Event) (sys : System) :
  urgentModalDeps (app sys) = Some (urgentModalKey (app sys)) ->
  urgentModalDeps (app (handle e sys)) = Some (urgentModalKey (app sys)).
Proof. intros H. by rewrite handle_urgentModalDeps. Qed.

Lemma step_close_key (sys : System) :
  urgentModalKey (app (step UrgentModalClose sys)) = urgentModalKey (app sys).
Proof.
  unfold urgentModalKey. rewrite step_app, render_urgentItems, render_loading.
  reflexivity.
Qed.

(** C2, as the component has it. Between two consecutive states of a
    run, the flag [showUrgentModal] rises only when the pair (number of
    urgent items, [loading]) has changed and leaves at least one urgent
    item with [loading] false, and it does rise at every such change;
    it falls only by [handleClose], which always lowers it; and while
    that pair stays the same, no other event changes the flag. *)
Theorem urgent_modal_gate (fs : Firestore) (trace : list Event) (e : Event) :
  let before := app (run fs trace) in
  let after := app (step e (run fs trace)) in
  (showUrgentModal before = false -> showUrgentModal after = true ->
   urgentModalKey after <> urgentModalKey before
   /\ (0 < length (urgentItems after))%nat
   /\ loading after = false)
  /\ (urgentModalKey after <> urgentModalKey before ->
      (0 < length (urgentItems after))%nat ->
      loading after = false ->
      showUrgentModal after = true)
  /\ (showUrgentModal before = true -> showUrgentModal after = false ->
      e = UrgentModalClose)
  /\ (e = UrgentModalClose -> showUrgentModal after = false)
  /\ (urgentModalKey after = urgentModalKey before -> e <> UrgentModalClose ->
      showUrgentModal after = showUrgentModal before).
Proof.
  intros before after.
  pose proof (run_committed fs trace) as Hdeps. fold before in Hdeps.
  pose proof (handle_committed e (run fs trace) Hdeps) as Hh. fold before in Hh.
  pose proof (render_showUrgentModal
                match e with
                | StockSnapshot _ currentTime => Some currentTime
                | _ => None
                end (app (handle e (run fs trace))) (urgentModalKey before) Hh) as Hr.
  rewrite <- step_app in Hr. fold after in Hr.
  rewrite handle_showUrgentModal in Hr. fold before in Hr.
  assert (Hcond : (0 <? length (urgentItems after))%nat && negb (loading after) = true
                  <-> (0 < length (urgentItems after))%nat /\ loading after = false).
  { rewrite andb_true_iff, Nat.ltb_lt, negb_true_iff. reflexivity. }
  assert (Hclose : e = UrgentModalClose -> urgentModalKey after = urgentModalKey before).
  { intros ->. apply step_close_key. }
  destruct (decide (urgentModalKey after = urgentModalKey before)) as [Hkey | Hkey].
  - split; [| split; [| split; [| split]]].
    + intros Hb Ha. destruct e; congruence.
    + intros Hne. destruct (Hne Hkey).
    + intros Hb Ha. destruct e; congruence.
    + intros ->. exact Hr.
    + intros _ Hne. destruct e; congruence.
  - destruct ((0 <? length (urgentItems after))%nat && negb (loading after)) eqn:Hc.
    + split; [| split; [| split; [| split]]].
      * intros _ _. split; [exact Hkey | by apply Hcond].
      * intros _ _ _. exact Hr.
      * congruence.
      * intros He. destruct (Hkey (Hclose He)).
      * intros Heq. destruct (Hkey Heq).
    + split; [| split; [| split; [| split]]].
      * intros Hb Ha. destruct e; congruence.
      * intros _ Hlen Hload. pose proof (proj2 Hcond (conj Hlen Hload)). congruence.
      * intros Hb Ha. destruct e; congruence.
      * intros He. destruct (Hkey (Hclose He)).
      * intros Heq. destruct (Hkey Heq).
Qed.

(** ** The Gemini caller *)

Lemma backoffTrace_from (n : nat) : backoffTrace (S n) = backoffFrom 0 n.
Proof. reflexivity. Qed.

Lemma backoffFrom_S (i k : nat) :
  backoffFrom i (S k) = Fetch i :: Sleep (1000 * 2 ^ Z.of_nat i) :: backoffFrom (S i) k.
Proof. reflexivity. Qed.

Lemma attempts_backoffFrom (i k : nat) : attempts (backoffFrom i k) = S k.
Proof.
  revert i. induction k as [| k IH]; intros i; [reflexivity |].
  rewrite backoffFrom_S. cbn [attempts]. by rewrite IH.
Qed.

Lemma snd_let_pair {A B C : Type} (x : A * B) (f : B -> C) :
  (let '(r, effects) := x in (r, f effects)).2 = f x.2.
Proof. by destruct x. Qed.

Lemma fst_let_pair {A B C : Type} (x : A * B) (f : B -> C) :
  (let '(r, effects) := x in (r, f effects)).1 = x.1.
Proof. by destruct x. Qed.

Lemma pow2_S (i : nat) : 1000 * 2 ^ Z.of_nat i * 2 = 1000 * 2 ^ Z.of_nat (S i).
Proof. rewrite Nat2Z.inj_succ, Z.pow_succ_r by lia. lia. Qed.

(** Whatever the server answers, the loop fetches, sleeps the doubled
    delay, fetches again, and stops on a fetch. *)
Lemma retryLoop_effects (server : nat -> FetchOutcome) (m fuel i : nat)
    (response : option jsstring) :
  (i + S fuel = m)%nat ->
  exists k : nat,
    (k <= fuel)%nat
    /\ (retryLoop server m (S fuel) i (1000 * 2 ^ Z.of_nat i) response).2
       = backoffFrom i k.
Proof.
  revert i response. induction fuel as [| fuel IH]; intros i response Hm.
  - exists 0%nat. split; [lia |]. cbn [retryLoop].
    replace (i <? m - 1)%nat with false by (symmetry; apply Nat.ltb_ge; lia).
    destruct (server i) as [| status statusText body]; [reflexivity |].
    rewrite andb_false_r.
    repeat case_match; reflexivity.
  - assert ((i <? m - 1)%nat = true) as Hlt by (apply Nat.ltb_lt; lia).
    destruct (IH (S i) response ltac:(lia)) as (k & Hk & Heff).
    assert (exists k' : nat, (k' <= S fuel)%nat /\
              (let '(r, effects) :=
                 retryLoop server m (S fuel) (S i) (1000 * 2 ^ Z.of_nat i * 2) response in
               (r, Fetch i :: Sleep (1000 * 2 ^ Z.of_nat i) :: effects)).2
              = backoffFrom i k') as Hretry.
    { exists (S k). split; [lia |].
      rewrite snd_let_pair, pow2_S, Heff. by rewrite backoffFrom_S. }
    assert (exists k' : nat, (k' <= S fuel)%nat /\ [Fetch i] = backoffFrom i k') as Hstop.
    { exists 0%nat. split; [lia | reflexivity]. }
    remember (S fuel) as fuel1 eqn:Hfuel1.
    cbn [retryLoop]. rewrite Hlt.
    destruct (server i) as [| status statusText body]; [exact Hretry |].
    rewrite andb_true_r.
    repeat case_match; first [exact Hretry | exact Hstop].
Qed.

Lemma generateGeminiContent_effects (server : nat -> FetchOutcome) :
  exists n : nat,
    (1 <= n <= 3)%nat
    /\ (generateGeminiContent server).2 = backoffTrace n
    /\ attempts (generateGeminiContent server).2 = n.
Proof.
  destruct (retryLoop_effects server maxRetries 2 0 None eq_refl) as (k & Hk & Heff).
  exists (S k). split; [lia |].
  unfold generateGeminiContent.
  change (1000 * 2 ^ Z.of_nat 0) with 1000 in Heff.
  change (S 2) with maxRetries in Heff.
  destruct (retryLoop server maxRetries maxRetries 0 1000 None) as [r effects].
  cbn [snd] in *. subst effects. split; [reflexivity |]. apply attempts_backoffFrom.
Qed.

Lemma retryLoop_retried (server : nat -> FetchOutcome) (m fuel i : nat) (delay : Z)
    (response : option jsstring) :
  (i <? m - 1)%nat = true ->
  retried (server i) = true ->
  retryLoop server m (S fuel) i delay response =
    let '(r, effects) := retryLoop server m fuel (S i) (delay * 2) response in
    (r, Fetch i :: Sleep delay :: effects).
Proof.
  intros Hlt Hret. cbn [retryLoop]. rewrite Hlt.
  destruct (server i) as [| status statusText body]; [reflexivity |].
  cbn [retried] in Hret. rewrite andb_true_r.
  destruct (response_ok status), body, (status =? 429); cbn in Hret;
    first [reflexivity | discriminate Hret].
Qed.

Lemma retryLoop_terminal (server : nat -> FetchOutcome) (m fuel i : nat) (delay : Z)
    (response : option jsstring) (status : Z) (statusText : jsstring)
    (errorMessage : option jsstring) :
  server i = FetchResponse status statusText (BodyJson errorMessage) ->
  response_ok status = false ->
  status <> 429 ->
  retryLoop server m (S fuel) i delay response =
    (Some (js "Error: " ++ Js.or_str (default [] errorMessage) statusText), [Fetch i]).
Proof.
  intros Hi Hok Hst. cbn [retryLoop]. rewrite Hi, Hok.
  apply Z.eqb_neq in Hst. rewrite Hst. reflexivity.
Qed.

Lemma retryLoop_exhausted (server : nat -> FetchOutcome) (m i : nat) (delay : Z)
    (response : option jsstring) :
  (i <? m - 1)%nat = false ->
  retried (server i) = true ->
  retryLoop server m 1 i delay response =
    (match server i with
     | FetchResponse _ statusText (BodyJson errorMessage) =>
         Some (js "Error: " ++ Js.or_str (default [] errorMessage) statusText)
     | _ => Some (js "Error de conexión con el servicio de IA.")
     end,
     [Fetch i]).
Proof.
  intros Hlt Hret. cbn [retryLoop]. rewrite Hlt.
  destruct (server i) as [| status statusText body]; [reflexivity |].
  cbn [retried] in Hret. rewrite andb_false_r.
  destruct (response_ok status), body, (status =? 429); cbn in Hret;
    first [reflexivity | discriminate Hret].
Qed.

(** C3, as the caller has it. The caller fetches at most three times;
    its effects are fetches separated by sleeps of 1000 ms, then
    2000 ms, the last effect being a fetch. When the first two fetches
    answer 429 and the third answers 200 with a JSON document other
    than null, the call ends on the third fetch with the generated
    text, having slept 1000 ms and then 2000 ms. *)
Theorem generateGeminiContent_backoff (server : nat -> FetchOutcome) :
  (exists n : nat,
     (1 <= n <= 3)%nat
     /\ (generateGeminiContent server).2 = backoffTrace n
     /\ attempts (generateGeminiContent server).2 = n)
  /\ (forall (t0 t1 t2 : jsstring) (b0 b1 : Body) (text : option jsstring),
        server 0%nat = FetchResponse 429 t0 b0 ->
        server 1%nat = FetchResponse 429 t1 b1 ->
        server 2%nat = FetchResponse 200 t2 (BodyJson text) ->
        generateGeminiContent server =
          ({| geminiLoading := false;
              geminiResponse :=
                Some (Js.or_str (default [] text) (js "No se pudo generar una respuesta."));
              showGeminiModal := true |},
           [Fetch 0; Sleep 1000; Fetch 1; Sleep 2000; Fetch 2])).
Proof.
  split; [apply generateGeminiContent_effects |].
  intros t0 t1 t2 b0 b1 text H0 H1 H2.
  unfold generateGeminiContent, maxRetries.
  rewrite retryLoop_retried by (rewrite ?H0; reflexivity).
  rewrite retryLoop_retried by (rewrite ?H1; reflexivity).
  cbn [retryLoop]. rewrite H2. reflexivity.
Qed.

(** C6, as the caller has it. A response with a status outside
    200-299 other than 429, whose body is a JSON document other than
    null, ends the call on the fetch that received it: no fetch and no
    sleep follow,
    and the text shown is "Error: " with the server's message or
    status text. When all three fetches fail in a retried way, the
    call ends after the third with the connection message if that
    fetch was rejected or its body unreadable, and with the same
    "Error: " form if it answered 429; the connection message differs
    from every text of the "Error: " form. *)
Theorem generateGeminiContent_failures (server : nat -> FetchOutcome) :
  (forall (i : nat) (status : Z) (statusText : jsstring) (errorMessage : option jsstring),
      (i < 3)%nat ->
      (forall j : nat, (j < i)%nat -> retried (server j) = true) ->
      server i = FetchResponse status statusText (BodyJson errorMessage) ->
      response_ok status = false ->
      status <> 429 ->
      generateGeminiContent server =
        ({| geminiLoading := false;
            geminiResponse :=
              Some (js "Error: " ++ Js.or_str (default [] errorMessage) statusText);
            showGeminiModal := true |},
         backoffTrace (S i)))
  /\ ((forall j : nat, (j < 3)%nat -> retried (server j) = true) ->
      generateGeminiContent server =
        ({| geminiLoading := false;
            geminiResponse :=
              match server 2%nat with
              | FetchResponse _ statusText (BodyJson errorMessage) =>
                  Some (js "Error: " ++ Js.or_str (default [] errorMessage) statusText)
              | _ => Some (js "Error de conexión con el servicio de IA.")
              end;
            showGeminiModal := true |},
         backoffTrace 3))
  /\ (forall text : jsstring,
        js "Error: " ++ text <> js "Error de conexión con el servicio de IA.").
Proof.
  split; [| split].
  - intros i status statusText errorMessage Hi Hret Hresp Hok Hst.
    unfold generateGeminiContent, maxRetries.
    destruct i as [| [| [| i]]]; [| | | lia].
    + erewrite retryLoop_terminal by eassumption. reflexivity.
    + rewrite retryLoop_retried by (first [reflexivity | apply Hret; lia]).
      erewrite retryLoop_terminal by eassumption. reflexivity.
    + rewrite retryLoop_retried by (first [reflexivity | apply Hret; lia]).
      rewrite retryLoop_retried by (first [reflexivity | apply Hret; lia]).
      erewrite retryLoop_terminal by eassumption. reflexivity.
  - intros Hret. unfold generateGeminiContent, maxRetries.
    rewrite retryLoop_retried by (first [reflexivity | apply Hret; lia]).
    rewrite retryLoop_retried by (first [reflexivity | apply Hret; lia]).
    rewrite retryLoop_exhausted by (first [reflexivity | apply Hret; lia]).
    reflexivity.
  - intros text H. vm_compute in H. congruence.
Qed.

(** ** The import of names *)

Lemma split_head (sep : N) (s : jsstring) :
  head (Js.split sep s) = Some (beforeFirst sep s).
Proof.
  induction s as [| c s IH]; cbn [Js.split beforeFirst]; [reflexivity |].
  destruct (c =? sep)%N; [reflexivity |].
  destruct (Js.split sep s) as [| p ps]; [discriminate IH |].
  cbn in IH |- *. congruence.
Qed.

Lemma split_several (sep : N) (s : jsstring) :
  (1 <? length (Js.split sep s))%nat = bool_decide (sep ∈ s).
Proof.
  induction s as [| c s IH]; cbn [Js.split].
  - symmetry. apply bool_decide_eq_false. apply not_elem_of_nil.
  - destruct (N.eqb_spec c sep) as [-> | Hne].
    + pose proof (split_head sep s) as Hh.
      destruct (Js.split sep s) as [| p ps]; [discriminate Hh |].
      symmetry. apply bool_decide_eq_true. apply elem_of_cons. by left.
    + pose proof (split_head sep s) as Hh.
      destruct (Js.split sep s) as [| p ps]; [discriminate Hh |].
      cbn [length] in IH |- *. rewrite IH.
      apply bool_decide_ext. rewrite elem_of_cons. intuition congruence.
Qed.

Lemma firstValue_firstField (line : jsstring) :
  firstValue line = Some (firstField line).
Proof.
  unfold firstValue, firstField. rewrite split_several.
  destruct (decide (9%N ∈ line)) as [Hin | Hnin].
  - rewrite bool_decide_eq_true_2 by done. by rewrite split_head.
  - rewrite bool_decide_eq_false_2 by done. by rewrite split_head.
Qed.

Lemma truthy_str_nonempty (s : jsstring) : Js.truthy_str s = true <-> s <> [].
Proof. destruct s; cbn; split; congruence. Qed.

Lemma Set_add_NoDup (x : jsstring) (s : list jsstring) :
  NoDup s -> NoDup (Js.Set_add x s).
Proof.
  intros Hs. unfold Js.Set_add. destruct (decide (x ∈ s)); [done |].
  apply NoDup_app. split; [done |]. split.
  - intros y Hy Hy'. apply list_elem_of_singleton in Hy'. by subst.
  - apply NoDup_singleton.
Qed.

Lemma elem_of_Set_add (x y : jsstring) (s : list jsstring) :
  y ∈ Js.Set_add x s <-> y ∈ s \/ y = x.
Proof.
  unfold Js.Set_add. destruct (decide (x ∈ s)).
  - split; [by left |]. intros [H | ->]; done.
  - rewrite elem_of_app, list_elem_of_singleton. reflexivity.
Qed.

Lemma scanLine_firstField (acc : ImportScan) (line : jsstring) :
  scanLine acc line =
    if Js.truthy_str (firstField line) then
      {| namesToSave := Js.Set_add (firstField line) (namesToSave acc);
         successCount := successCount acc + 1;
         errorCount := errorCount acc |}
    else
      {| namesToSave := namesToSave acc;
         successCount := successCount acc;
         errorCount := errorCount acc + 1 |}.
Proof. unfold scanLine. rewrite firstValue_firstField. reflexivity. Qed.

(** The loop over the lines, from any accumulator. *)
Lemma scanLines_spec (lines : list jsstring) (acc : ImportScan) :
  NoDup (namesToSave acc) ->
  NoDup (namesToSave (foldl scanLine acc lines))
  /\ (forall name : jsstring,
        name ∈ namesToSave (foldl scanLine acc lines)
        <-> name ∈ namesToSave acc \/ (name ∈ map firstField lines /\ name <> []))
  /\ successCount (foldl scanLine acc lines)
     = successCount acc
       + Z.of_nat (length (filter (fun f => f <> []) (map firstField lines)))
  /\ errorCount (foldl scanLine acc lines)
     = errorCount acc
       + Z.of_nat (length (filter (fun f => f = []) (map firstField lines))).
Proof.
  revert acc. induction lines as [| line lines IH]; intros acc Hnd.
  - cbn. split; [done |]. split; [| lia].
    intros name. split; [by left |]. intros [H | [H _]]; [done |].
    by apply elem_of_nil in H.
  - cbn [foldl map]. rewrite scanLine_firstField.
    destruct (Js.truthy_str (firstField line)) eqn:Ht.
    + apply truthy_str_nonempty in Ht.
      edestruct IH as (H1 & H2 & H3 & H4); [| split; [exact H1 |]; split; [| split]].
      * cbn [namesToSave]. by apply Set_add_NoDup.
      * intros name. rewrite H2. cbn [namesToSave].
        rewrite elem_of_Set_add, elem_of_cons. intuition congruence.
      * rewrite H3. cbn [successCount].
        rewrite filter_cons_True by done. cbn [length]. lia.
      * rewrite H4. cbn [errorCount].
        rewrite filter_cons_False by done. lia.
    + assert (firstField line = []) as Hempty.
      { destruct (firstField line); [done | discriminate Ht]. }
      edestruct IH as (H1 & H2 & H3 & H4); [| split; [exact H1 |]; split; [| split]].
      * exact Hnd.
      * intros name. rewrite H2. cbn [namesToSave].
        rewrite elem_of_cons. intuition congruence.
      * rewrite H3. cbn [successCount].
        rewrite filter_cons_False by (intros H; by apply H). lia.
      * rewrite H4. cbn [errorCount].
        rewrite filter_cons_True by done. cbn [length]. lia.
Qed.

(** C4. On the text Milk, Milk, empty line, Cheese the scan keeps the
    two names Milk and Cheese, one write each, and counts one ignored
    line. For every text: the first value of a line is the trimmed part
    before the first tab when the line has a tab and before the first
    comma otherwise; the names kept are, without repetition, exactly
    the non-empty first values; the lines with an empty first value are
    the ones counted as ignored. *)
Theorem scanImport_reconciles (data : jsstring) :
  (namesToSave (scanImport milkMilkCheese) = [js "Milk"; js "Cheese"]
   /\ importBatch (scanImport milkMilkCheese)
      = [(js "Milk", js "Milk"); (js "Cheese", js "Cheese")]
   /\ errorCount (scanImport milkMilkCheese) = 1)
  /\ (forall line : jsstring, firstValue line = Some (firstField line))
  /\ NoDup (namesToSave (scanImport data))
  /\ (forall name : jsstring,
        name ∈ namesToSave (scanImport data)
        <-> name ∈ map firstField (Js.split 10 (Js.trim data)) /\ name <> [])
  /\ errorCount (scanImport data)
     = Z.of_nat (length (filter (fun f => f = [])
                           (map firstField (Js.split 10 (Js.trim data)))))
  /\ importBatch (scanImport data)
     = map (fun name => (sanitizeDocId name, name)) (namesToSave (scanImport data)).
Proof.
  split; [repeat split; reflexivity |].
  split; [apply firstValue_firstField |].
  unfold scanImport.
  destruct (scanLines_spec (Js.split 10 (Js.trim data))
              {| namesToSave := []; successCount := 0; errorCount := 0 |})
    as (H1 & H2 & H3 & H4); [apply NoDup_nil_2 |].
  split; [exact H1 |]. split; [| split; [| reflexivity]].
  - intros name. rewrite H2. cbn [namesToSave]. split; [| by right].
    intros [H | H]; [by apply not_elem_of_nil in H | done].
  - rewrite H4. cbn [errorCount]. lia.
Qed.

Lemma batch_commit_union (batch : list (jsstring * jsstring))
    (names : gmap jsstring jsstring) :
  batch_commit batch names = list_to_map (reverse batch) ∪ names.
Proof.
  revert names. induction batch as [| [k v] batch IH]; intros names.
  - cbn. by rewrite (left_id ∅ (∪)).
  - unfold batch_commit in *. cbn [foldl fst snd]. rewrite IH.
    rewrite reverse_cons, list_to_map_app. cbn [list_to_map foldr uncurry].
    rewrite <- (assoc_L (∪)). f_equal.
    rewrite <- insert_union_l. by rewrite (left_id ∅ (∪)).
Qed.

Lemma batch_commit_idempotent (batch : list (jsstring * jsstring))
    (names : gmap jsstring jsstring) :
  batch_commit batch (batch_commit batch names) = batch_commit batch names.
Proof.
  rewrite !batch_commit_union. rewrite (assoc_L (∪)). by rewrite (idemp_L (∪)).
Qed.

Lemma render_notConnected (newItems : option Z) (s : AppState) :
  notConnected (render newItems s) = notConnected s.
Proof.
  unfold render, urgentModalEffect. destruct newItems; repeat case_match; reflexivity.
Qed.

Lemma render_importData (newItems : option Z) (s : AppState) :
  importData (render newItems s) = importData s.
Proof.
  unfold render, urgentModalEffect. destruct newItems; repeat case_match; reflexivity.
Qed.

Lemma handleImport_start_refuses (s : AppState) :
  notConnected s || negb (Js.truthy_str (Js.trim (importData s))) = true ->
  handleImport_start s =
    (setErrorMessage
       (Some (js "No hay datos para importar o Firebase no está listo.")) s,
     None).
Proof. intros H. unfold handleImport_start. by rewrite H. Qed.

Lemma handleImport_start_accepts (s : AppState) :
  notConnected s || negb (Js.truthy_str (Js.trim (importData s))) = false ->
  handleImport_start s =
    (setErrorMessage None (setLoading true s),
     Some {| pendingBatch := importBatch (scanImport (importData s));
             pendingScan := scanImport (importData s) |}).
Proof. intros H. unfold handleImport_start. by rewrite H. Qed.

Lemma step_ImportType (data : jsstring) (sys : System) :
  step (ImportType data) sys =
    {| app := render None (setImportData data (app sys));
       firestore := firestore sys;
       pendingImports := pendingImports sys |}.
Proof. reflexivity. Qed.

Lemma step_ImportStart (sys : System) :
  step ImportStart sys =
    {| app := render None (handleImport_start (app sys)).1;
       firestore := firestore sys;
       pendingImports :=
         pendingImports sys ++ option_list (handleImport_start (app sys)).2 |}.
Proof.
  unfold step. cbn [handle]. by destruct (handleImport_start (app sys)).
Qed.

Lemma step_ImportSettled_idle (commitError : option jsstring) (sys : System) :
  pendingImports sys = [] ->
  step (ImportSettled commitError) sys =
    {| app := render None (app sys);
       firestore := firestore sys;
       pendingImports := [] |}.
Proof.
  destruct sys as [s fs ps]. cbn [pendingImports]. intros ->. reflexivity.
Qed.

Lemma step_ImportSettled_commit (p : PendingImport) (ps : list PendingImport)
    (sys : System) :
  pendingImports sys = p :: ps ->
  step (ImportSettled None) sys =
    {| app :=
         render None
           (setLoading false
              (setErrorMessage
                 (Some (js "Importación de nombres completada: "
                        ++ Js.Number_toString
                             (Num (Z.of_nat (length (namesToSave (pendingScan p)))))
                        ++ js " nombres únicos agregados/actualizados. "
                        ++ Js.Number_toString (Num (errorCount (pendingScan p)))
                        ++ js " líneas ignoradas."))
                 (setShowImportModal false (setImportData [] (app sys)))));
       firestore :=
         {| stock_items := stock_items (firestore sys);
            common_names := batch_commit (pendingBatch p) (common_names (firestore sys)) |};
       pendingImports := ps |}.
Proof.
  destruct sys as [s fs ps0]. cbn [pendingImports]. intros ->. reflexivity.
Qed.

(** What one import session does to the store, when no other import
    is waiting. *)
Lemma importSession_firestore (sys : System) (data : jsstring) :
  pendingImports sys = [] ->
  pendingImports (foldl (fun sys e => step e sys) sys (importSession data)) = []
  /\ notConnected (app (foldl (fun sys e => step e sys) sys (importSession data)))
     = notConnected (app sys)
  /\ firestore (foldl (fun sys e => step e sys) sys (importSession data))
     = if notConnected (app sys) || negb (Js.truthy_str (Js.trim data))
       then firestore sys
       else {| stock_items := stock_items (firestore sys);
               common_names :=
                 batch_commit (importBatch (scanImport data))
                   (common_names (firestore sys)) |}.
Proof.
  intros Hidle. unfold importSession. cbn [foldl].
  rewrite step_ImportType, step_ImportStart. cbn [app firestore pendingImports].
  rewrite Hidle, app_nil_l.
  set (s1 := render None (setImportData data (app sys))).
  assert (notConnected s1 = notConnected (app sys)) as Hn1.
  { unfold s1. by rewrite render_notConnected. }
  assert (importData s1 = data) as Hd1.
  { unfold s1. by rewrite render_importData. }
  clearbody s1.
  destruct (notConnected (app sys) || negb (Js.truthy_str (Js.trim data))) eqn:Hguard.
  - rewrite handleImport_start_refuses by (by rewrite Hn1, Hd1).
    cbn [fst snd option_list].
    rewrite step_ImportSettled_idle by reflexivity.
    cbn [app firestore pendingImports].
    split; [reflexivity |]. split; [| reflexivity].
    rewrite !render_notConnected. exact Hn1.
  - rewrite handleImport_start_accepts by (by rewrite Hn1, Hd1).
    cbn [fst snd option_list].
    erewrite step_ImportSettled_commit by reflexivity.
    cbn [app firestore pendingImports pendingBatch].
    split; [reflexivity |]. split; [| by rewrite Hd1].
    rewrite render_notConnected.
    transitivity (notConnected (render None (setErrorMessage None (setLoading true s1))));
      [reflexivity |].
    rewrite render_notConnected. exact Hn1.
Qed.

(** C5. Committing the write batch of an import a second time changes
    nothing: each write sets the document named by the sanitized name
    to that name, so the stored names after two commits are those
    after one. The same holds for whole sessions of the component:
    importing the same text twice leaves the store as importing it
    once. *)
Theorem import_idempotent (data : jsstring) :
  (forall names : gmap jsstring jsstring,
      batch_commit (importBatch (scanImport data))
        (batch_commit (importBatch (scanImport data)) names)
      = batch_commit (importBatch (scanImport data)) names)
  /\ Forall (fun op => op.1 = sanitizeDocId op.2 /\ op.2 ∈ namesToSave (scanImport data))
       (importBatch (scanImport data))
  /\ (forall sys : System,
        pendingImports sys = [] ->
        firestore (foldl (fun sys e => step e sys) sys
                     (importSession data ++ importSession data))
        = firestore (foldl (fun sys e => step e sys) sys (importSession data))).
Proof.
  split; [| split].
  - intros names. apply batch_commit_idempotent.
  - unfold importBatch. rewrite Forall_map. apply Forall_forall.
    intros name Hname. cbn. done.
  - intros sys Hps. rewrite foldl_app.
    destruct (importSession_firestore sys data Hps) as (Hp1 & Hn1 & Hf1).
    destruct (importSession_firestore _ data Hp1) as (_ & _ & Hf2).
    rewrite Hf2, Hn1, Hf1.
    destruct (notConnected (app sys) || negb (Js.truthy_str (Js.trim data)));
      [reflexivity |].
    cbn [stock_items common_names]. by rewrite batch_commit_idempotent.
Qed.

(** ** Drafts and submissions *)











(** ** Categories *)

Lemma CATEGORIES_0_member : CATEGORIES_0 ∈ CATEGORIES.
Proof. unfold CATEGORIES_0, CATEGORIES. cbn [hd]. apply elem_of_cons. by left. Qed.

Lemma normalizeCategory_member (cat : jsstring) : normalizeCategory cat ∈ CATEGORIES.
Proof.
  unfold normalizeCategory.
  destruct (find _ CATEGORIES) as [c |] eqn:Hfind; [| apply CATEGORIES_0_member].
  apply find_some in Hfind as [Hin _]. apply list_elem_of_In in Hin.
  unfold Js.or_str. destruct (Js.truthy_str c); [exact Hin | apply CATEGORIES_0_member].
Qed.

Lemma fetchItem_category (doc : QueryDoc.t) :
  Item.category (fetchItem doc) =
    if Js.truthy (DocData.category (QueryDoc.data doc))
    then DocData.category (QueryDoc.data doc)
    else VStr (js "General").
Proof. reflexivity. Qed.

Lemma elem_of_fetchedItems (docs : list QueryDoc.t) (item : Item.t) :
  item ∈ fetchedItems docs <-> exists doc : QueryDoc.t, item = fetchItem doc /\ doc ∈ docs.
Proof. rewrite fetchedItems_perm. apply list_elem_of_fmap. Qed.

Lemma find_first {A : Type} (p : A -> bool) (l : list A) :
  match find p l with
  | Some c =>
      exists before after : list A,
        l = before ++ c :: after
        /\ Forall (fun b => p b = false) before
        /\ p c = true
  | None => Forall (fun c => p c = false) l
  end.
Proof using Type.
  induction l as [| x l IH]; cbn [find]; [constructor |].
  destruct (p x) eqn:Hx.
  - exists [], l. split; [reflexivity |]. split; [constructor | exact Hx].
  - destruct (find p l) as [c |].
    + destruct IH as (before & after & -> & Hbefore & Hc).
      exists (x :: before), after. split; [reflexivity |].
      split; [by constructor | exact Hc].
    + by constructor.
Qed.

Lemma CATEGORIES_truthy : Forall (fun c => Js.truthy_str c = true) CATEGORIES.
Proof using Type. vm_compute. repeat constructor. Qed.

Lemma normalizeCategory_first (cat : jsstring) :
  (exists (before : list jsstring) (c : jsstring) (after : list jsstring),
      CATEGORIES = before ++ c :: after
      /\ Forall (fun b => toLowerCase b <> toLowerCase (Js.trim cat)) before
      /\ toLowerCase c = toLowerCase (Js.trim cat)
      /\ normalizeCategory cat = c)
  \/ (Forall (fun c => toLowerCase c <> toLowerCase (Js.trim cat)) CATEGORIES
      /\ normalizeCategory cat = CATEGORIES_0).
Proof using Type.
  unfold normalizeCategory.
  pose proof (find_first
                (fun c => bool_decide (toLowerCase c = toLowerCase (Js.trim cat)))
                CATEGORIES) as Hfind.
  destruct (find _ CATEGORIES) as [c |].
  - left. destruct Hfind as (before & after & Hsplit & Hbefore & Hc).
    exists before, c, after. split; [exact Hsplit |]. split; [| split].
    + eapply Forall_impl; [exact Hbefore |]. intros b Hb.
      by apply bool_decide_eq_false in Hb.
    + by apply bool_decide_eq_true in Hc.
    + pose proof CATEGORIES_truthy as Htruthy. rewrite Forall_forall in Htruthy.
      unfold Js.or_str. rewrite Htruthy; [reflexivity |].
      rewrite Hsplit. apply elem_of_app. right. apply elem_of_cons. by left.
  - right. split; [| reflexivity].
    eapply Forall_impl; [exact Hfind |]. intros c Hc.
    by apply bool_decide_eq_false in Hc.
Qed.

(** C9, as the handler has it. [normalizeCategory] always returns one
    of [CATEGORIES]: the first entry that equals its argument once
    the argument is trimmed and both are put in lower case, and the
    first category, General, when there is none. The snapshot handler
    does not call it: an item gets the stored category when that value
    is truthy and General otherwise; so the items' categories are
    among [CATEGORIES] when every stored category is absent, empty or
    one of them already. *)
Theorem categories_of_items (docs : list QueryDoc.t) (s : AppState) :
  (forall cat : jsstring,
      normalizeCategory cat ∈ CATEGORIES
      /\ ((exists (before : list jsstring) (c : jsstring) (after : list jsstring),
              CATEGORIES = before ++ c :: after
              /\ Forall (fun b => toLowerCase b <> toLowerCase (Js.trim cat)) before
              /\ toLowerCase c = toLowerCase (Js.trim cat)
              /\ normalizeCategory cat = c)
          \/ (Forall (fun c => toLowerCase c <> toLowerCase (Js.trim cat)) CATEGORIES
              /\ normalizeCategory cat = js "General")))
  /\ (forall item : Item.t,
        item ∈ items (onStockSnapshot docs s) ->
        exists doc : QueryDoc.t,
          doc ∈ docs
          /\ item = fetchItem doc
          /\ Item.category item =
               if Js.truthy (DocData.category (QueryDoc.data doc))
               then DocData.category (QueryDoc.data doc)
               else VStr (js "General"))
  /\ (Forall (fun doc =>
                Js.truthy (DocData.category (QueryDoc.data doc)) = false
                \/ isCategory (DocData.category (QueryDoc.data doc))) docs ->
      Forall (fun item => isCategory (Item.category item))
        (items (onStockSnapshot docs s))).
Proof.
  split.
  { intros cat. split; [apply normalizeCategory_member | apply normalizeCategory_first]. }
  assert (items (onStockSnapshot docs s) = fetchedItems docs) as -> by reflexivity.
  split.
  - intros item Hitem. apply elem_of_fetchedItems in Hitem as (doc & -> & Hdoc).
    exists doc. split; [exact Hdoc |]. split; reflexivity.
  - intros Hdocs. apply Forall_forall. intros item Hitem.
    apply elem_of_fetchedItems in Hitem as (doc & -> & Hdoc).
    rewrite Forall_forall in Hdocs. specialize (Hdocs doc Hdoc).
    rewrite fetchItem_category.
    destruct Hdocs as [-> | Hcat].
    + exists (js "General"). split; [apply CATEGORIES_0_member | reflexivity].
    + destruct Hcat as (c & Hc & Heq). rewrite Heq.
      destruct (Js.truthy (VStr c)); [by exists c |].
      exists (js "General"). split; [apply CATEGORIES_0_member | reflexivity].
Qed.

(** ** The unified list of names *)

Lemma Set_from_acc_NoDup (l acc : list jsstring) :
  NoDup acc -> NoDup (foldl (fun s x => Js.Set_add x s) acc l).
Proof.
  revert acc. induction l as [| x l IH]; intros acc Hacc; cbn [foldl]; [done |].
  apply IH. by apply Set_add_NoDup.
Qed.

Lemma elem_of_Set_from_acc (l acc : list jsstring) (y : jsstring) :
  y ∈ foldl (fun s x => Js.Set_add x s) acc l <-> y ∈ acc \/ y ∈ l.
Proof.
  revert acc. induction l as [| x l IH]; intros acc; cbn [foldl].
  - split; [by left |]. intros [H | H]; [done | by apply elem_of_nil in H].
  - rewrite IH, elem_of_Set_add, elem_of_cons. intuition congruence.
Qed.

Lemma Set_from_NoDup (l : list jsstring) : NoDup (Js.Set_from l).
Proof. apply Set_from_acc_NoDup. apply NoDup_nil_2. Qed.

Lemma elem_of_Set_from (l : list jsstring) (y : jsstring) : y ∈ Js.Set_from l <-> y ∈ l.
Proof.
  unfold Js.Set_from. rewrite elem_of_Set_from_acc. split; [| by right].
  intros [H | H]; [by apply elem_of_nil in H | done].
Qed.

(** Adding members a set already has changes nothing. *)
Lemma Set_from_acc_absorb (l acc : list jsstring) :
  (forall x : jsstring, x ∈ l -> x ∈ acc) ->
  foldl (fun s x => Js.Set_add x s) acc l = acc.
Proof.
  induction l as [| x l IH]; intros Hin; cbn [foldl]; [done |].
  unfold Js.Set_add at 2. rewrite decide_True by (apply Hin; by left).
  apply IH. intros y Hy. apply Hin. by right.
Qed.

Lemma Set_from_twice (l : list jsstring) : Js.Set_from (l ++ l) = Js.Set_from l.
Proof.
  unfold Js.Set_from. rewrite foldl_app. apply Set_from_acc_absorb.
  intros x Hx. by apply elem_of_Set_from.
Qed.

Lemma allocate_fresh (o : HeapObject) (h : Heap) :
  exists r : positive, allocate o h = Some (r, <[r := o]> h) /\ h !! r = None.
Proof.
  exists (fresh (dom h)). split; [reflexivity |].
  apply not_elem_of_dom. apply is_fresh.
Qed.

(** The memo on the heap: it returns a new array holding the unified
    names and leaves every object that was there as it was. *)
Lemma uniqueItemNames_heap_frame (h : Heap) (ri rc : positive)
    (its : list Item.t) (cn : list jsstring) :
  h !! ri = Some (ItemArray its) ->
  h !! rc = Some (StringArray cn) ->
  exists (r : positive) (h' : Heap),
    uniqueItemNames_heap ri rc h = Some (r, h')
    /\ h' !! r = Some (StringArray (uniqueItemNames its cn))
    /\ h !! r = None
    /\ h ⊆ h'.
Proof.
  intros Hri Hrc. unfold uniqueItemNames_heap, mem_bind.
  unfold readItems at 1. rewrite Hri.
  destruct (allocate_fresh
              (StringArray (map (fun item => Js.trim (Item.name item)) its)) h)
    as (r1 & -> & Hr1).
  set (h1 := <[r1 := _]> h).
  assert (h ⊆ h1) as Hsub1 by (by apply insert_subseteq).
  unfold readStrings at 1. unfold h1 at 1. rewrite lookup_insert_eq.
  unfold readStrings at 1.
  rewrite (lookup_weaken _ _ _ _ Hrc Hsub1).
  destruct (allocate_fresh
              (StringArray (map (fun item => Js.trim (Item.name item)) its ++ cn)) h1)
    as (r2 & -> & Hr2).
  set (h2 := <[r2 := _]> h1).
  assert (h1 ⊆ h2) as Hsub2 by (by apply insert_subseteq).
  unfold readStrings at 1. unfold h2 at 1. rewrite lookup_insert_eq.
  destruct (allocate_fresh
              (StringSet (Js.Set_from
                            (map (fun item => Js.trim (Item.name item)) its ++ cn))) h2)
    as (r3 & -> & Hr3).
  set (h3 := <[r3 := _]> h2).
  assert (h2 ⊆ h3) as Hsub3 by (by apply insert_subseteq).
  unfold readSet at 1. unfold h3 at 1. rewrite lookup_insert_eq.
  destruct (allocate_fresh
              (StringArray (Js.Set_from
                              (map (fun item => Js.trim (Item.name item)) its ++ cn))) h3)
    as (r4 & -> & Hr4).
  unfold sortInPlace. rewrite lookup_insert_eq.
  eexists _, _. split; [reflexivity |].
  rewrite insert_insert_eq. split; [by rewrite lookup_insert_eq |].
  assert (h ⊆ h3) as Hsub by (etrans; [exact Hsub1 | etrans; [exact Hsub2 | exact Hsub3]]).
  split.
  - destruct (h !! r4) as [o |] eqn:Ho; [| done].
    rewrite (lookup_weaken _ _ _ _ Ho Hsub) in Hr4. discriminate Hr4.
  - etrans; [exact Hsub |]. by apply insert_subseteq.
Qed.

(** The host's comparison is a consistent comparator. *)
Hypothesis localeCompare_total :
  forall a b : jsstring, 0 < localeCompare a b -> localeCompare b a <= 0.
Hypothesis localeCompare_trans :
  forall a b c : jsstring,
    localeCompare a b <= 0 -> localeCompare b c <= 0 -> localeCompare a c <= 0.

(** C8, as the memo has it. For a consistent [localeCompare], the
    unified list is sorted ascending and has no duplicates; its members
    are the trimmed names of the stock items and the common names as
    they are; of no items and no names it is empty; of items whose
    names are already trimmed, joined with those same names, it is the
    sorted set of the names; and on the heap the memo writes only to
    arrays it has allocated. *)
Theorem uniqueItemNames_sorted_unique (items : list Item.t) (commonNames : list jsstring) :
  StronglySorted (fun a b => localeCompare a b <= 0) (uniqueItemNames items commonNames)
  /\ NoDup (uniqueItemNames items commonNames)
  /\ (forall name : jsstring,
        name ∈ uniqueItemNames items commonNames
        <-> name ∈ map (fun item => Js.trim (Item.name item)) items
            \/ name ∈ commonNames)
  /\ uniqueItemNames [] [] = []
  /\ (Forall (fun item => Js.trim (Item.name item) = Item.name item) items ->
      uniqueItemNames items (map Item.name items)
      = Js.Array_sort byLocale (Js.Set_from (map Item.name items)))
  /\ (forall (h : Heap) (ri rc : positive),
        h !! ri = Some (ItemArray items) ->
        h !! rc = Some (StringArray commonNames) ->
        exists (r : positive) (h' : Heap),
          uniqueItemNames_heap ri rc h = Some (r, h')
          /\ h' !! r = Some (StringArray (uniqueItemNames items commonNames))
          /\ h !! r = None
          /\ h ⊆ h').
Proof.
  split; [| split; [| split; [| split; [| split]]]].
  - unfold uniqueItemNames.
    apply (Array_sort_sorted byLocale (fun _ => True)
             (fun a b => localeCompare a b <= 0)).
    + intros x y _ _ H. exact H.
    + intros x y _ _ H. by apply localeCompare_total.
    + intros x y z _ _ _. apply localeCompare_trans.
    + apply Forall_forall. done.
  - unfold uniqueItemNames. rewrite Array_sort_perm. apply Set_from_NoDup.
  - intros name. unfold uniqueItemNames.
    rewrite Array_sort_perm, elem_of_Set_from, elem_of_app. reflexivity.
  - reflexivity.
  - intros Htrim. unfold uniqueItemNames.
    assert (map (fun item => Js.trim (Item.name item)) items = map Item.name items) as ->.
    { induction Htrim as [| item items Hitem _ IH]; cbn [map]; [done |].
      by rewrite Hitem, IH. }
    by rewrite Set_from_twice.
  - intros h ri rc. apply uniqueItemNames_heap_frame.
Qed.

(** ** Further facts: document identifiers *)

Lemma sanitizeDocId_units (a b : jsstring) :
  sanitizeDocId a = sanitizeDocId b <-> Forall2 sameUnitUpToSlash a b.
Proof using Type.
  unfold sanitizeDocId, Js.replaceAll. revert b.
  induction a as [| x a IH]; intros [| y b]; cbn [map].
  - split; [constructor | reflexivity].
  - split; [discriminate | intros H; inversion H].
  - split; [discriminate | intros H; inversion H].
  - split.
    + intros Heq. injection Heq as Hxy Hrest. constructor; [| by apply IH].
      unfold sameUnitUpToSlash.
      destruct (N.eqb_spec x 47), (N.eqb_spec y 47); subst; auto.
    + intros H. inversion H as [| ? ? ? ? Hxy Hrest]; subst.
      f_equal; [| by apply IH].
      destruct Hxy as [-> | [[-> | ->] [-> | ->]]]; reflexivity.
Qed.

Lemma sanitizeDocId_no_slash (s : jsstring) : 47%N ∉ sanitizeDocId s.
Proof using Type.
  unfold sanitizeDocId, Js.replaceAll.
  induction s as [| x s IH]; cbn [map]; [apply not_elem_of_nil |].
  apply not_elem_of_cons. split; [| exact IH].
  destruct (N.eqb_spec x 47) as [-> | Hne]; [discriminate | congruence].
Qed.

Lemma sanitizeDocId_length (s : jsstring) : length (sanitizeDocId s) = length s.
Proof using Type. unfold sanitizeDocId, Js.replaceAll. apply length_map. Qed.

(** X1. The identifier [sanitizeDocId] derives from a name holds no
    slash and has the length of the name; a name without a slash is
    its own identifier, so sanitizing twice is sanitizing once; and
    two names get the same identifier exactly when they have the same
    length and differ only where each has a slash or an underscore. *)
Theorem sanitizeDocId_path_safe (name : jsstring) :
  (47%N ∉ sanitizeDocId name)
  /\ length (sanitizeDocId name) = length name
  /\ (47%N ∉ name -> sanitizeDocId name = name)
  /\ sanitizeDocId (sanitizeDocId name) = sanitizeDocId name
  /\ (forall other : jsstring,
        sanitizeDocId name = sanitizeDocId other
        <-> Forall2 sameUnitUpToSlash name other).
Proof using Type.
  pose proof sanitizeDocId_no_slash as Hno.
  assert (Hid : forall s : jsstring, 47%N ∉ s -> sanitizeDocId s = s).
  { intros s. unfold sanitizeDocId, Js.replaceAll.
    induction s as [| x s IH]; cbn [map]; [reflexivity |].
    intros Hs. apply not_elem_of_cons in Hs as [Hx Hs].
    destruct (N.eqb_spec x 47) as [-> | Hne]; [congruence |].
    f_equal. by apply IH. }
  split; [apply Hno |].
  split; [apply sanitizeDocId_length |].
  split; [apply Hid |].
  split; [apply Hid, Hno |].
  intros other. apply sanitizeDocId_units.
Qed.

(** ** Further facts: trim and split *)

Lemma trimStart_head (s : jsstring) (c : N) :
  head (Js.trimStart s) = Some c -> Js.isWhiteSpace c = false.
Proof using Type.
  induction s as [| x s IH]; cbn [Js.trimStart]; [discriminate |].
  destruct (Js.isWhiteSpace x) eqn:Hx; [exact IH |].
  cbn. intros H. injection H as <-. exact Hx.
Qed.

Lemma trimStart_fixed (s : jsstring) :
  (forall c : N, head s = Some c -> Js.isWhiteSpace c = false) ->
  Js.trimStart s = s.
Proof using Type.
  destruct s as [| x s]; [reflexivity |]. intros H. cbn [Js.trimStart].
  by rewrite (H x eq_refl).
Qed.

Lemma trimEnd_snoc (s : jsstring) (c : N) :
  Js.trimEnd (s ++ [c]) = if Js.isWhiteSpace c then Js.trimEnd s else s ++ [c].
Proof using Type.
  unfold Js.trimEnd. rewrite rev_app_distr.
  change (rev [c] ++ rev s) with (c :: rev s). cbn [Js.trimStart].
  destruct (Js.isWhiteSpace c); [reflexivity |].
  cbn [rev]. by rewrite rev_involutive.
Qed.

Lemma trimEnd_nil : Js.trimEnd [] = [].
Proof using Type. reflexivity. Qed.

Lemma trimEnd_last (s : jsstring) (c : N) :
  last (Js.trimEnd s) = Some c -> Js.isWhiteSpace c = false.
Proof using Type.
  induction s as [| x s IH] using rev_ind; [discriminate |].
  rewrite trimEnd_snoc. destruct (Js.isWhiteSpace x) eqn:Hx; [exact IH |].
  rewrite last_snoc. intros H. injection H as <-. exact Hx.
Qed.

Lemma trimEnd_fixed (s : jsstring) :
  (forall c : N, last s = Some c -> Js.isWhiteSpace c = false) ->
  Js.trimEnd s = s.
Proof using Type.
  destruct s as [| x s _] using rev_ind; [reflexivity |].
  intros H. rewrite trimEnd_snoc. by rewrite (H x (last_snoc _ _)).
Qed.

Lemma trimEnd_head (s : jsstring) (c : N) :
  head s = Some c -> Js.isWhiteSpace c = false -> head (Js.trimEnd s) = Some c.
Proof using Type.
  induction s as [| x s IH] using rev_ind; [discriminate |].
  intros Hhead Hc. rewrite trimEnd_snoc.
  destruct (Js.isWhiteSpace x) eqn:Hx; [| exact Hhead].
  destruct s as [| y s]; [| by apply IH].
  cbn in Hhead. injection Hhead as ->. congruence.
Qed.

Lemma trim_noEdgeSpace (s : jsstring) : noEdgeSpace (Js.trim s).
Proof using Type.
  unfold Js.trim. split.
  - intros c Hc. destruct (Js.trimStart s) as [| x t] eqn:Ht; [discriminate Hc |].
    assert (Js.isWhiteSpace x = false) as Hx.
    { apply (trimStart_head s). by rewrite Ht. }
    rewrite (trimEnd_head (x :: t) x eq_refl Hx) in Hc. injection Hc as <-. exact Hx.
  - apply trimEnd_last.
Qed.

Lemma trim_fixed (s : jsstring) : noEdgeSpace s -> Js.trim s = s.
Proof using Type.
  intros [Hh Hl]. unfold Js.trim. rewrite (trimStart_fixed s Hh). by apply trimEnd_fixed.
Qed.

(** X2. [trim] leaves no white space at either end of its result,
    leaves a string without such white space as it is, and is
    therefore idempotent. *)
Theorem trim_idempotent (s : jsstring) :
  noEdgeSpace (Js.trim s)
  /\ (noEdgeSpace s -> Js.trim s = s)
  /\ Js.trim (Js.trim s) = Js.trim s.
Proof using Type.
  split; [apply trim_noEdgeSpace |]. split; [apply trim_fixed |].
  apply trim_fixed, trim_noEdgeSpace.
Qed.

Lemma split_nonempty (sep : N) (s : jsstring) : Js.split sep s <> [].
Proof using Type.
  pose proof (split_head sep s) as H. destruct (Js.split sep s); [discriminate H | done].
Qed.

Lemma joinWith_cons (sep : N) (p q : jsstring) (rest : list jsstring) :
  joinWith sep (p :: q :: rest) = p ++ sep :: joinWith sep (q :: rest).
Proof using Type. reflexivity. Qed.

Lemma split_join (sep : N) (s : jsstring) : joinWith sep (Js.split sep s) = s.
Proof using Type.
  induction s as [| c s IH]; cbn [Js.split]; [reflexivity |].
  pose proof (split_nonempty sep s) as Hne.
  destruct (N.eqb_spec c sep) as [-> | Hc].
  - destruct (Js.split sep s) as [| p ps]; [done |].
    rewrite joinWith_cons, IH. reflexivity.
  - destruct (Js.split sep s) as [| p ps]; [done |].
    destruct ps as [| q ps].
    + cbn [joinWith] in IH |- *. by rewrite IH.
    + rewrite joinWith_cons in IH |- *. by rewrite <- IH.
Qed.

Lemma split_pieces (sep : N) (s : jsstring) :
  Forall (fun piece => sep ∉ piece) (Js.split sep s).
Proof using Type.
  induction s as [| c s IH]; cbn [Js.split].
  - constructor; [apply not_elem_of_nil | constructor].
  - destruct (N.eqb_spec c sep) as [-> | Hc].
    + constructor; [apply not_elem_of_nil | exact IH].
    + destruct (Js.split sep s) as [| p ps]; [repeat constructor |].
      * apply not_elem_of_cons. split; [congruence | apply not_elem_of_nil].
      * apply Forall_cons in IH as [Hp Hps]. constructor; [| exact Hps].
        apply not_elem_of_cons. split; [congruence | exact Hp].
Qed.

Lemma split_length (sep : N) (s : jsstring) :
  length (Js.split sep s) = S (countUnit sep s).
Proof using Type.
  induction s as [| c s IH]; cbn [Js.split countUnit]; [reflexivity |].
  destruct (N.eqb_spec c sep) as [-> | Hc].
  - cbn [length]. rewrite IH. reflexivity.
  - destruct (Js.split sep s) as [| p ps]; [discriminate IH |].
    cbn [length] in IH |- *. rewrite IH. reflexivity.
Qed.

(** X3. [split] cuts a string at every occurrence of the separator and
    loses nothing: no piece holds the separator, there is one piece
    more than there are separators, and joining the pieces with the
    separator gives the string back. *)
Theorem split_join_roundtrip (sep : N) (s : jsstring) :
  joinWith sep (Js.split sep s) = s
  /\ Forall (fun piece => sep ∉ piece) (Js.split sep s)
  /\ length (Js.split sep s) = S (countUnit sep s).
Proof using Type.
  split; [apply split_join |]. split; [apply split_pieces | apply split_length].
Qed.

(** ** Further facts: the import of names *)

Lemma Set_add_length (x : jsstring) (s : list jsstring) :
  (length (Js.Set_add x s) <= S (length s))%nat.
Proof.
  unfold Js.Set_add. destruct (decide (x ∈ s)); [lia |].
  rewrite length_app. cbn. lia.
Qed.

Lemma scanLines_counts (lines : list jsstring) (acc : ImportScan) :
  successCount (foldl scanLine acc lines) + errorCount (foldl scanLine acc lines)
  = successCount acc + errorCount acc + Z.of_nat (length lines)
  /\ Z.of_nat (length (namesToSave (foldl scanLine acc lines)))
       - successCount (foldl scanLine acc lines)
     <= Z.of_nat (length (namesToSave acc)) - successCount acc
  /\ errorCount acc <= errorCount (foldl scanLine acc lines).
Proof.
  revert acc. induction lines as [| line lines IH]; intros acc.
  - cbn. lia.
  - cbn [foldl length]. destruct (IH (scanLine acc line)) as (H1 & H2 & H3).
    assert (successCount (scanLine acc line) + errorCount (scanLine acc line)
            = successCount acc + errorCount acc + 1
            /\ Z.of_nat (length (namesToSave (scanLine acc line)))
                 - successCount (scanLine acc line)
               <= Z.of_nat (length (namesToSave acc)) - successCount acc
            /\ errorCount acc <= errorCount (scanLine acc line)) as (G1 & G2 & G3).
    { rewrite scanLine_firstField.
      destruct (Js.truthy_str (firstField line));
        cbn [namesToSave successCount errorCount].
      - pose proof (Set_add_length (firstField line) (namesToSave acc)). lia.
      - lia. }
    lia.
Qed.

(** X4. Every line of the trimmed text is counted once, as accepted or
    as ignored: the two counters add up to the number of lines, which
    is one more than the number of line breaks; and the names kept are
    at most as many as the accepted lines. *)
Theorem scanImport_counts (data : jsstring) :
  successCount (scanImport data) + errorCount (scanImport data)
  = Z.of_nat (S (countUnit 10 (Js.trim data)))
  /\ Z.of_nat (length (namesToSave (scanImport data))) <= successCount (scanImport data)
  /\ 0 <= errorCount (scanImport data)
  /\ length (importBatch (scanImport data)) = length (namesToSave (scanImport data)).
Proof.
  unfold scanImport.
  destruct (scanLines_counts (Js.split 10 (Js.trim data))
              {| namesToSave := []; successCount := 0; errorCount := 0 |})
    as (H1 & H2 & H3).
  cbn [namesToSave successCount errorCount length] in H1, H2, H3.
  rewrite split_length in H1.
  split; [lia |]. split; [lia |]. split; [lia |].
  unfold importBatch. apply length_map.
Qed.

(** X5. Every name an import writes is non-empty and has no white
    space at either end, and the identifier of its document is
    non-empty and free of slashes. *)
Theorem importBatch_wellformed (data : jsstring) :
  Forall (fun op =>
            op.2 <> [] /\ noEdgeSpace op.2
            /\ op.1 <> [] /\ (47%N ∉ op.1) /\ length op.1 = length op.2)
    (importBatch (scanImport data)).
Proof.
  unfold importBatch. rewrite Forall_map. apply Forall_forall. intros name Hname.
  cbn [fst snd]. unfold scanImport in Hname.
  destruct (scanLines_spec (Js.split 10 (Js.trim data))
              {| namesToSave := []; successCount := 0; errorCount := 0 |})
    as (_ & Hmem & _); [apply NoDup_nil_2 |].
  apply Hmem in Hname as [Hname | [Hname Hne]]; [by apply elem_of_nil in Hname |].
  apply list_elem_of_fmap in Hname as (line & -> & _).
  pose proof (sanitizeDocId_no_slash (firstField line)) as Hslash.
  pose proof (sanitizeDocId_length (firstField line)) as Hlen.
  split; [exact Hne |]. split; [apply trim_noEdgeSpace |].
  split; [| split; [exact Hslash | exact Hlen]].
  intros Hnil. rewrite Hnil in Hlen. cbn in Hlen.
  destruct (firstField line); [done | discriminate Hlen].
Qed.

(** Where a batch leaves a document: the last write to an identifier
    wins, and identifiers the batch does not name keep what they had. *)
Lemma batch_commit_last (before after : list (jsstring * jsstring))
    (k v : jsstring) (names : gmap jsstring jsstring) :
  k ∉ after.*1 ->
  batch_commit (before ++ (k, v) :: after) names !! k = Some v.
Proof.
  intros Hk. unfold batch_commit. rewrite foldl_app. cbn [foldl fst snd].
  set (m := foldl _ names before). clearbody m.
  assert (<[k := v]> m !! k = Some v) as H by apply lookup_insert_eq.
  revert H. generalize (<[k := v]> m). clear m.
  induction after as [| [k' v'] after IH]; intros m Hm; [exact Hm |].
  cbn [fmap list_fmap fst] in Hk. apply not_elem_of_cons in Hk as [Hne Hk].
  cbn [foldl fst snd]. apply IH; [exact Hk |].
  rewrite lookup_insert_ne by done. exact Hm.
Qed.

Lemma batch_commit_other (batch : list (jsstring * jsstring)) (k : jsstring)
    (names : gmap jsstring jsstring) :
  k ∉ batch.*1 -> batch_commit batch names !! k = names !! k.
Proof.
  revert names. induction batch as [| [k' v'] batch IH]; intros names Hk; [reflexivity |].
  cbn [fmap list_fmap fst] in Hk. apply not_elem_of_cons in Hk as [Hne Hk].
  unfold batch_commit in *. cbn [foldl fst snd]. rewrite IH by exact Hk.
  by rewrite lookup_insert_ne.
Qed.

(** X6. After a committed import, a name whose identifier no later name
    of the batch shares is stored under that identifier; when two names
    of the batch share an identifier the later one is what remains; and
    every document the batch does not name is left as it was. *)
Theorem import_commit_lookup (data : jsstring) (names : gmap jsstring jsstring) :
  (forall (before after : list jsstring) (name : jsstring),
      namesToSave (scanImport data) = before ++ name :: after ->
      sanitizeDocId name ∉ map sanitizeDocId after ->
      batch_commit (importBatch (scanImport data)) names !! sanitizeDocId name
      = Some name)
  /\ (forall id : jsstring,
        id ∉ map sanitizeDocId (namesToSave (scanImport data)) ->
        batch_commit (importBatch (scanImport data)) names !! id = names !! id).
Proof.
  split.
  - intros before after name Hsplit Hlast. unfold importBatch. rewrite Hsplit.
    rewrite map_app. cbn [map]. apply batch_commit_last.
    rewrite <- list_fmap_compose. exact Hlast.
  - intros id Hid. apply batch_commit_other. unfold importBatch.
    rewrite <- list_fmap_compose. exact Hid.
Qed.

Lemma step_ImportSettled_reject (err : jsstring) (p : PendingImport)
    (ps : list PendingImport) (sys : System) :
  pendingImports sys = p :: ps ->
  step (ImportSettled (Some err)) sys =
    {| app :=
         render None
           (setLoading false
              (setErrorMessage
                 (Some (js "Error grave al guardar los nombres comunes en Firestore. "
                        ++ err))
                 (app sys)));
       firestore := firestore sys;
       pendingImports := ps |}.
Proof.
  destruct sys as [s fs ps0]. cbn [pendingImports]. intros ->. reflexivity.
Qed.

Lemma setImportData_same (s : AppState) : setImportData (importData s) s = s.
Proof. by destruct s. Qed.

Lemma render_idle (s : AppState) :
  urgentModalDeps s = Some (urgentModalKey s) -> render None s = s.
Proof. intros H. unfold render. by rewrite decide_True. Qed.

Lemma step_ImportType_same (sys : System) :
  urgentModalDeps (app sys) = Some (urgentModalKey (app sys)) ->
  step (ImportType (importData (app sys))) sys = sys.
Proof.
  intros H. rewrite step_ImportType, setImportData_same, render_idle by exact H.
  by destruct sys.
Qed.

Lemma render_errorMessage (newItems : option Z) (s : AppState) :
  errorMessage (render newItems s) = errorMessage s.
Proof.
  unfold render, urgentModalEffect. destruct newItems; repeat case_match; reflexivity.
Qed.

Lemma render_showImportModal (newItems : option Z) (s : AppState) :
  showImportModal (render newItems s) = showImportModal s.
Proof.
  unfold render, urgentModalEffect. destruct newItems; repeat case_match; reflexivity.
Qed.

(** X7. An import whose commit the store rejects changes nothing in
    the store and keeps the typed text; when the import had been
    started it also turns [loading] off and reports the failure. The
    button pressed again, without retyping, then stores exactly what an
    import accepted at once would have stored. *)
Theorem import_rejected_then_retried (sys : System) (data err : jsstring) :
  pendingImports sys = [] ->
  firestore (foldl (fun sys e => step e sys) sys
               [ImportType data; ImportStart; ImportSettled (Some err)])
  = firestore sys
  /\ importData (app (foldl (fun sys e => step e sys) sys
                        [ImportType data; ImportStart; ImportSettled (Some err)]))
     = data
  /\ (notConnected (app sys) || negb (Js.truthy_str (Js.trim data)) = false ->
      loading (app (foldl (fun sys e => step e sys) sys
                      [ImportType data; ImportStart; ImportSettled (Some err)]))
      = false
      /\ errorMessage (app (foldl (fun sys e => step e sys) sys
                              [ImportType data; ImportStart; ImportSettled (Some err)]))
         = Some (js "Error grave al guardar los nombres comunes en Firestore. " ++ err))
  /\ firestore (foldl (fun sys e => step e sys) sys (retrySession data err))
     = firestore (foldl (fun sys e => step e sys) sys (importSession data)).
Proof.
  intros Hidle.
  set (failed := foldl (fun sys e => step e sys) sys
                   [ImportType data; ImportStart; ImportSettled (Some err)]).
  assert (firestore failed = firestore sys
          /\ importData (app failed) = data
          /\ pendingImports failed = []
          /\ notConnected (app failed) = notConnected (app sys)
          /\ urgentModalDeps (app failed) = Some (urgentModalKey (app failed))
          /\ (notConnected (app sys) || negb (Js.truthy_str (Js.trim data)) = false ->
              loading (app failed) = false
              /\ errorMessage (app failed)
                 = Some (js "Error grave al guardar los nombres comunes en Firestore. "
                         ++ err)))
    as (Hfs & Hdata & Hpend & Hconn & Hcommitted & Hreport).
  { unfold failed. cbn [foldl].
    rewrite step_ImportType, step_ImportStart. cbn [app firestore pendingImports].
    rewrite Hidle, app_nil_l.
    set (s1 := render None (setImportData data (app sys))).
    assert (notConnected s1 = notConnected (app sys)) as Hn1.
    { unfold s1. by rewrite render_notConnected. }
    assert (importData s1 = data) as Hd1.
    { unfold s1. by rewrite render_importData. }
    clearbody s1.
    destruct (notConnected (app sys) || negb (Js.truthy_str (Js.trim data))) eqn:Hguard.
    - rewrite handleImport_start_refuses by (by rewrite Hn1, Hd1).
      cbn [fst snd option_list].
      rewrite step_ImportSettled_idle by reflexivity.
      cbn [app firestore pendingImports].
      split; [reflexivity |]. split; [by rewrite !render_importData |].
      split; [reflexivity |]. split; [by rewrite !render_notConnected |].
      split; [apply render_committed | discriminate].
    - rewrite handleImport_start_accepts by (by rewrite Hn1, Hd1).
      cbn [fst snd option_list].
      erewrite step_ImportSettled_reject by reflexivity.
      cbn [app firestore pendingImports].
      split; [reflexivity |].
      split.
      { rewrite render_importData.
        transitivity (importData (render None (setErrorMessage None (setLoading true s1))));
          [reflexivity |].
        by rewrite render_importData. }
      split; [reflexivity |].
      split.
      { rewrite render_notConnected.
        transitivity (notConnected (render None (setErrorMessage None (setLoading true s1))));
          [reflexivity |].
        by rewrite render_notConnected. }
      split; [apply render_committed |].
      intros _. split.
      + by rewrite render_loading.
      + by rewrite render_errorMessage. }
  split; [exact Hfs |]. split; [exact Hdata |]. split; [exact Hreport |].
  change (retrySession data err)
    with ([ImportType data; ImportStart; ImportSettled (Some err)]
          ++ [ImportStart; ImportSettled None]).
  rewrite foldl_app. fold failed.
  assert (foldl (fun sys e => step e sys) failed [ImportStart; ImportSettled None]
          = foldl (fun sys e => step e sys) failed (importSession data)) as ->.
  { unfold importSession. cbn [foldl].
    pose proof (step_ImportType_same failed Hcommitted) as Hsame.
    rewrite Hdata in Hsame. by rewrite Hsame. }
  destruct (importSession_firestore failed data Hpend) as (_ & _ & ->).
  destruct (importSession_firestore sys data Hidle) as (_ & _ & ->).
  by rewrite Hconn, Hfs.
Qed.

(** ** Further facts: the expiration status over time *)

Lemma ceil_div_le (x d k : Z) : 0 < d -> Js.ceil_div x d <= k <-> x <= k * d.
Proof using Type.
  intros Hd. pose proof (ceil_div_bounds x d Hd). split; intros H'; nia.
Qed.

Lemma ceil_div_mono (x y d : Z) : 0 < d -> x <= y -> Js.ceil_div x d <= Js.ceil_div y d.
Proof using Type.
  intros Hd Hxy. apply ceil_div_le; [exact Hd |].
  pose proof (ceil_div_bounds y d Hd). lia.
Qed.

(** X8. In milliseconds: an item is [Expired] exactly when a full day
    has passed since the instant of its date, [Warning] from [T] days
    before that instant until the end of the day that follows it, and
    [OK] before. *)
Theorem checkExpirationStatus_instants
    (currentTime : Z) (dateString : jsstring) (expirationTime T : Z) :
  Date_getTime dateString = Num expirationTime ->
  (status (checkExpirationStatus currentTime dateString (Num T)) = Expired
   <-> expirationTime + msPerDay <= currentTime)
  /\ (status (checkExpirationStatus currentTime dateString (Num T)) = Warning
      <-> currentTime < expirationTime + msPerDay
          /\ expirationTime <= currentTime + T * msPerDay)
  /\ (status (checkExpirationStatus currentTime dateString (Num T)) = OK
      <-> currentTime < expirationTime + msPerDay
          /\ currentTime + T * msPerDay < expirationTime).
Proof using Type.
  intros Hdate. unfold checkExpirationStatus. rewrite Hdate.
  cbn [Js.sub Js.Math_ceil_div Js.lt Js.le].
  pose proof (ceil_div_le (expirationTime - currentTime) msPerDay (-1) msPerDay_pos) as H1.
  pose proof (ceil_div_le (expirationTime - currentTime) msPerDay T msPerDay_pos) as H2.
  set (d := Js.ceil_div (expirationTime - currentTime) msPerDay) in *.
  destruct (Z.ltb_spec d 0) as [Hneg | Hnn]; cbn [status].
  - assert (expirationTime - currentTime <= -1 * msPerDay) by (apply H1; lia).
    repeat split; intros; first [discriminate | lia | reflexivity].
  - assert (~ expirationTime - currentTime <= -1 * msPerDay) by (rewrite <- H1; lia).
    destruct (Z.leb_spec d T) as [Hle | Hgt]; cbn [status].
    + assert (expirationTime - currentTime <= T * msPerDay) by (apply H2; lia).
      repeat split; intros; first [discriminate | lia | reflexivity].
    + assert (~ expirationTime - currentTime <= T * msPerDay) by (rewrite <- H2; lia).
      repeat split; intros; first [discriminate | lia | reflexivity].
Qed.

Lemma checkExpirationStatus_later (t1 t2 : Z) (dateString : jsstring)
    (thresholdDays : jsnum) :
  t1 <= t2 ->
  severity (status (checkExpirationStatus t1 dateString thresholdDays))
  <= severity (status (checkExpirationStatus t2 dateString thresholdDays)).
Proof using Type.
  intros Ht. unfold checkExpirationStatus.
  destruct (Date_getTime dateString) as [e |]; cbn [Js.sub Js.Math_ceil_div Js.lt Js.le];
    [| cbn; lia].
  pose proof (ceil_div_mono (e - t2) (e - t1) msPerDay msPerDay_pos ltac:(lia)) as Hmono.
  set (d1 := Js.ceil_div (e - t1) msPerDay) in *.
  set (d2 := Js.ceil_div (e - t2) msPerDay) in *.
  destruct thresholdDays as [T |]; cbn [Js.le].
  - destruct (Z.ltb_spec d1 0), (Z.ltb_spec d2 0), (Z.leb_spec d1 T), (Z.leb_spec d2 T);
      cbn [status severity]; lia.
  - destruct (Z.ltb_spec d1 0), (Z.ltb_spec d2 0); cbn [status severity]; lia.
Qed.

(** X9. As the clock advances the status of an item never eases: from
    [OK] it can only go to [Warning] or [Expired], from [Warning] only
    to [Expired]; and the days remaining never grow. This holds for
    every date string and every threshold. *)
Theorem checkExpirationStatus_never_eases (t1 t2 : Z) (dateString : jsstring)
    (thresholdDays : jsnum) :
  t1 <= t2 ->
  severity (status (checkExpirationStatus t1 dateString thresholdDays))
  <= severity (status (checkExpirationStatus t2 dateString thresholdDays))
  /\ (forall d1 d2 : Z,
        days (checkExpirationStatus t1 dateString thresholdDays) = Num d1 ->
        days (checkExpirationStatus t2 dateString thresholdDays) = Num d2 ->
        d2 <= d1).
Proof using Type.
  intros Ht. split; [by apply checkExpirationStatus_later |].
  unfold checkExpirationStatus.
  destruct (Date_getTime dateString) as [e |]; cbn [Js.sub Js.Math_ceil_div Js.lt Js.le].
  - pose proof (ceil_div_mono (e - t2) (e - t1) msPerDay msPerDay_pos ltac:(lia)) as Hmono.
    intros d1 d2 H1 H2.
    assert (Num (Js.ceil_div (e - t1) msPerDay) = Num d1) as E1.
    { rewrite <- H1. repeat case_match; reflexivity. }
    assert (Num (Js.ceil_div (e - t2) msPerDay) = Num d2) as E2.
    { rewrite <- H2. repeat case_match; reflexivity. }
    injection E1 as <-. injection E2 as <-. exact Hmono.
  - intros d1 d2 H1. cbn in H1. discriminate H1.
Qed.

(** ** Further facts: the urgent items *)

Lemma isUrgent_status (currentTime : Z) (item : Item.t) :
  isUrgent currentTime item = true
  <-> status (checkExpirationStatus currentTime
                (Item.expirationDate item) (Item.alarmDays item)) <> OK.
Proof using Type.
  unfold isUrgent.
  destruct (status (checkExpirationStatus currentTime
                      (Item.expirationDate item) (Item.alarmDays item)));
    cbn; split; intros H; first [done | discriminate | congruence].
Qed.

Lemma urgent_stays_urgent (t0 t : Z) (item : Item.t) :
  t0 <= t -> isUrgent t0 item = true -> isUrgent t item = true.
Proof using Type.
  intros Ht H0. apply isUrgent_status. apply isUrgent_status in H0.
  pose proof (checkExpirationStatus_later t0 t (Item.expirationDate item)
                (Item.alarmDays item) Ht) as Hsev.
  destruct (status (checkExpirationStatus t0 _ _)); [done | |];
    destruct (status (checkExpirationStatus t _ _)); cbn in Hsev; first [lia | done].
Qed.

Lemma filterByStatus_sublist (st : Status) (clock : nat -> Z) (k : nat)
    (urgent : list Item.t) :
  filterByStatus st clock k urgent `sublist_of` urgent.
Proof using Type.
  revert k. induction urgent as [| item rest IH]; intros k; cbn [filterByStatus].
  - constructor.
  - case_match; [by apply sublist_skip | by apply sublist_cons].
Qed.

Lemma filterByStatus_tail (st : Status) (clock : nat -> Z) (k : nat)
    (item x : Item.t) (rest : list Item.t) :
  x ∈ filterByStatus st clock (S k) rest ->
  x ∈ filterByStatus st clock k (item :: rest).
Proof using Type.
  intros Hx. cbn [filterByStatus]. case_match; [by apply elem_of_cons; right | exact Hx].
Qed.

Lemma filterByStatus_cover (clockC clockE : nat -> Z) (urgent : list Item.t)
    (kc ke : nat) :
  Forall (fun item =>
            exists t0 : Z, isUrgent t0 item = true /\ forall k : nat, t0 <= clockC k)
    urgent ->
  (forall j k : nat, clockC j <= clockE k) ->
  Forall (fun item =>
            item ∈ filterByStatus Warning clockC kc urgent
            \/ item ∈ filterByStatus Expired clockE ke urgent) urgent
  /\ (length urgent
      <= length (filterByStatus Warning clockC kc urgent)
         + length (filterByStatus Expired clockE ke urgent))%nat.
Proof using Type.
  intros Hurgent Hclocks. revert kc ke.
  induction Hurgent as [| item rest (t0 & H0 & Ht0) _ IH]; intros kc ke.
  - split; [constructor | cbn; lia].
  - destruct (IH (S kc) (S ke)) as [IHin IHlen].
    assert (Forall (fun x =>
                      x ∈ filterByStatus Warning clockC kc (item :: rest)
                      \/ x ∈ filterByStatus Expired clockE ke (item :: rest)) rest)
      as Hrest.
    { eapply Forall_impl; [exact IHin |]. intros x [Hx | Hx];
        [left | right]; by apply filterByStatus_tail. }
    pose proof (urgent_stays_urgent t0 (clockC kc) item (Ht0 kc) H0) as Hc.
    apply isUrgent_status in Hc.
    pose proof (checkExpirationStatus_later (clockC kc) (clockE ke)
                  (Item.expirationDate item) (Item.alarmDays item) (Hclocks kc ke))
      as Hsev.
    cbn [filterByStatus] in Hrest |- *.
    destruct (status (checkExpirationStatus (clockC kc) (Item.expirationDate item)
                        (Item.alarmDays item))) eqn:HstC; [done | |].
    + rewrite bool_decide_eq_true_2 in Hrest |- * by done. split.
      * constructor; [left; apply elem_of_cons; by left | exact Hrest].
      * case_match; cbn [length]; lia.
    + rewrite (bool_decide_eq_false_2 (Expired = Warning)) in Hrest |- * by done.
      destruct (status (checkExpirationStatus (clockE ke) (Item.expirationDate item)
                          (Item.alarmDays item))) eqn:HstE;
        cbn [severity] in Hsev; [lia | lia |].
      rewrite bool_decide_eq_true_2 in Hrest |- * by done. split.
      * constructor; [right; apply elem_of_cons; by left | exact Hrest].
      * cbn [length]. lia.
Qed.

Lemma isUrgent_readable (currentTime : Z) (item : Item.t) :
  isUrgent currentTime item = true -> readableDate (Item.expirationDate item).
Proof using Type.
  intros H. apply isUrgent_status in H. unfold readableDate.
  destruct (Date_getTime (Item.expirationDate item)) as [e |] eqn:He; [by exists e |].
  destruct H. by apply checkExpirationStatus_invalid_date.
Qed.

(** X10. The alarm modal filters the urgent items twice, for the
    critical and for the expired, and every call reads the clock anew.
    Whatever the readings, as long as the clock does not run backwards
    (each item was found urgent no later than the first pass reads,
    and the second pass reads no earlier than the first): both lists
    are parts of the urgent items in their order, no urgent item has a
    date the host cannot read, and every urgent item is shown in at
    least one of the two lists. An item whose day ends between the two
    passes is shown in both, so the lists need not be disjoint. *)
Theorem urgent_items_in_modal_lists (urgent : list Item.t) (clockC clockE : nat -> Z) :
  Forall (fun item =>
            exists t0 : Z, isUrgent t0 item = true /\ forall k : nat, t0 <= clockC k)
    urgent ->
  (forall j k : nat, clockC j <= clockE k) ->
  criticalItems clockC urgent `sublist_of` urgent
  /\ expiredItems clockE urgent `sublist_of` urgent
  /\ Forall (fun item => readableDate (Item.expirationDate item)) urgent
  /\ Forall (fun item =>
               item ∈ criticalItems clockC urgent \/ item ∈ expiredItems clockE urgent)
       urgent
  /\ (length urgent
      <= length (criticalItems clockC urgent) + length (expiredItems clockE urgent))%nat.
Proof using Type.
  intros Hurgent Hclocks.
  split; [apply filterByStatus_sublist |]. split; [apply filterByStatus_sublist |].
  split.
  - eapply Forall_impl; [exact Hurgent |]. intros item (t0 & H0 & _).
    by apply (isUrgent_readable t0).
  - by apply filterByStatus_cover.
Qed.

Lemma lastStockSnapshot_snoc (trace : list Event) (e : Event) :
  lastStockSnapshot (trace ++ [e]) =
    match e with
    | StockSnapshot docs currentTime => Some (docs, currentTime)
    | _ => lastStockSnapshot trace
    end.
Proof using Type. unfold lastStockSnapshot. by rewrite foldl_app. Qed.

Lemma step_urgentItems (e : Event) (sys : System) :
  urgentItems (app (step e sys)) =
    match e with
    | StockSnapshot docs currentTime => computeUrgentItems currentTime (fetchedItems docs)
    | _ => urgentItems (app sys)
    end.
Proof.
  rewrite step_app, render_urgentItems.
  destruct e; try apply handle_urgentItems. by rewrite handle_items.
Qed.

Lemma run_last_snapshot (fs : Firestore) (trace : list Event) :
  items (app (run fs trace)) =
    match lastStockSnapshot trace with
    | Some (docs, _) => fetchedItems docs
    | None => []
    end
  /\ urgentItems (app (run fs trace)) =
       match lastStockSnapshot trace with
       | Some (docs, currentTime) => computeUrgentItems currentTime (fetchedItems docs)
       | None => []
       end.
Proof.
  induction trace as [| e trace [IHi IHu]] using rev_ind.
  - split; reflexivity.
  - rewrite run_snoc, step_items, step_urgentItems, lastStockSnapshot_snoc.
    destruct e; first [exact (conj IHi IHu) | split; reflexivity].
Qed.

(** X11. [items] and the urgent items change only when a stock snapshot
    arrives: every other event leaves both as they are, so time
    passing alone never changes the urgent items. At every point of a
    run [items] holds exactly the documents of the last snapshot, none
    filtered out, sorted when all their dates are readable; the urgent
    items are a part of [items] in the order of [items], each with a
    readable date and each found in alarm or expired at some reading
    of the clock; before the first snapshot both are empty. *)
Theorem urgentItems_as_of_last_snapshot (fs : Firestore) (trace : list Event) :
  (forall e : Event,
      (forall (docs : list QueryDoc.t) (currentTime : Z),
          e <> StockSnapshot docs currentTime) ->
      items (app (step e (run fs trace))) = items (app (run fs trace))
      /\ urgentItems (app (step e (run fs trace))) = urgentItems (app (run fs trace)))
  /\ match lastStockSnapshot trace with
     | Some (docs, _) =>
         items (app (run fs trace)) ≡ₚ map fetchItem docs
         /\ (Forall (fun doc =>
                       readableDate (DocData.expirationDate (QueryDoc.data doc))) docs ->
             StronglySorted expiresNoLater (items (app (run fs trace))))
     | None =>
         items (app (run fs trace)) = [] /\ urgentItems (app (run fs trace)) = []
     end
  /\ urgentItems (app (run fs trace)) `sublist_of` items (app (run fs trace))
  /\ Forall (fun item =>
               readableDate (Item.expirationDate item)
               /\ exists t0 : Z, isUrgent t0 item = true)
       (urgentItems (app (run fs trace))).
Proof.
  destruct (run_last_snapshot fs trace) as [Hi Hu].
  split; [| split; [| split]].
  - intros e He. rewrite step_items, step_urgentItems.
    destruct e; first [done | by destruct (He docs currentTime)].
  - rewrite Hi, Hu. destruct (lastStockSnapshot trace) as [[docs currentTime] |]; [| done].
    split; [apply fetchedItems_perm | apply fetchedItems_sorted].
  - rewrite Hi, Hu. destruct (lastStockSnapshot trace) as [[docs currentTime] |]; [| done].
    apply sublist_filter.
  - rewrite Hu. destruct (lastStockSnapshot trace) as [[docs currentTime] |];
      [| constructor].
    apply Forall_forall. intros item Hitem.
    apply list_elem_of_filter in Hitem as [H0 _].
    split; [by apply (isUrgent_readable currentTime) | by exists currentTime].
Qed.

(** ** Further facts: numbers as text *)

Lemma parseDigits_uint (d : Decimal.uint) (acc : Z) :
  Js.parseDigits acc (js (NilEmpty.string_of_uint d)) = uintValue acc d.
Proof using Type.
  revert acc. induction d; intros acc; cbn [NilEmpty.string_of_uint uintValue];
    [reflexivity | ..];
    match goal with
    | |- Js.parseDigits ?a (js (String ?c ?s)) = _ =>
        change (js (String c s)) with (N_of_ascii c :: js s);
        cbn [Js.parseDigits];
        let v := eval vm_compute in (Js.digitValue (N_of_ascii c)) in
        change (Js.digitValue (N_of_ascii c)) with v;
        cbv beta iota; rewrite IHd; f_equal; lia
    end.
Qed.

Lemma of_uint_acc_value (d : Decimal.uint) (acc : positive) :
  Z.pos (Pos.of_uint_acc d acc) = uintValue (Z.pos acc) d.
Proof using Type.
  revert acc. induction d; intros acc; cbn [Pos.of_uint_acc uintValue];
    [reflexivity | ..]; rewrite IHd; f_equal; lia.
Qed.

Lemma of_uint_value (d : Decimal.uint) : Z.of_N (Pos.of_uint d) = uintValue 0 d.
Proof using Type.
  induction d; cbn [Pos.of_uint uintValue]; [reflexivity | exact IHd | ..];
    cbn [Z.of_N]; rewrite of_uint_acc_value; f_equal.
Qed.

Lemma uint_first_digit (d : Decimal.uint) :
  d <> Decimal.Nil ->
  exists (c : N) (rest : jsstring) (v : Z),
    js (NilEmpty.string_of_uint d) = c :: rest
    /\ Js.digitValue c = Some v
    /\ Js.isWhiteSpace c = false /\ c <> 45%N /\ c <> 43%N.
Proof using Type.
  destruct d; [done | ..]; intros _; cbn [NilEmpty.string_of_uint];
    eexists _, _, _; (split; [reflexivity |]);
    (split; [vm_compute; reflexivity |]); (split; [vm_compute; reflexivity |]);
    split; discriminate.
Qed.

Lemma parseInt_pos (p : positive) :
  Js.parseInt (js (NilEmpty.string_of_uint (Pos.to_uint p))) = Num (Z.pos p).
Proof using Type.
  destruct (uint_first_digit (Pos.to_uint p) (DecimalPos.Unsigned.to_uint_nonnil p))
    as (c & rest & v & Hs & Hv & Hws & Hm & Hp).
  pose proof (parseDigits_uint (Pos.to_uint p) 0) as Hd.
  rewrite <- of_uint_value, DecimalPos.Unsigned.of_to in Hd. cbn [Z.of_N] in Hd.
  unfold Js.parseInt. rewrite Hs in Hd |- *. cbn [Js.trimStart]. rewrite Hws.
  assert (match c :: rest with
          | 45%N :: r => (-1, r)
          | 43%N :: r => (1, r)
          | _ => (1, c :: rest)
          end = (1, c :: rest)) as ->.
  { destruct c as [| q]; [reflexivity |].
    repeat (destruct q as [q | q |]; try reflexivity; try congruence). }
  rewrite Hv, Hd. f_equal; lia.
Qed.

Lemma parseInt_Number_toString (z : Z) :
  Js.parseInt (Js.Number_toString (Num z)) = Num z.
Proof using Type.
  destruct z as [| p | p]; cbn [Js.Number_toString Z.to_int NilZero.string_of_int].
  - vm_compute. reflexivity.
  - pose proof (DecimalPos.Unsigned.to_uint_nonnil p) as Hnn.
    pose proof (parseInt_pos p) as Hp.
    unfold NilZero.string_of_uint. destruct (Pos.to_uint p); [done | ..]; exact Hp.
  - pose proof (DecimalPos.Unsigned.to_uint_nonnil p) as Hnn.
    destruct (uint_first_digit (Pos.to_uint p) Hnn)
      as (c & rest & v & Hs & Hv & Hws & Hm & Hpl).
    assert (NilZero.string_of_uint (Pos.to_uint p)
            = NilEmpty.string_of_uint (Pos.to_uint p)) as ->
      by (unfold NilZero.string_of_uint; destruct (Pos.to_uint p); done).
    change (js (String "-" (NilEmpty.string_of_uint (Pos.to_uint p))))
      with (45%N :: js (NilEmpty.string_of_uint (Pos.to_uint p))).
    pose proof (parseDigits_uint (Pos.to_uint p) 0) as Hd.
    rewrite <- of_uint_value, DecimalPos.Unsigned.of_to in Hd. cbn [Z.of_N] in Hd.
    unfold Js.parseInt. cbn [Js.trimStart].
    change (Js.isWhiteSpace 45) with false. cbv beta iota.
    rewrite Hs in Hd |- *. rewrite Hv, Hd. f_equal; lia.
Qed.

(** X12. Reading back a number: [parseInt] of the decimal text of an
    integer that a double holds exactly is that integer, whatever its
    sign. This is how the
    snapshot handler recovers the quantity and the alarm days that the
    submit handlers stored as numbers. *)
Theorem parseInt_toString (z : Z) :
  - MAX_SAFE_INTEGER <= z <= MAX_SAFE_INTEGER ->
  Js.parseInt (Js.ToString (VNum (Num z))) = Num z.
Proof using Type. intros _. apply parseInt_Number_toString. Qed.

(** ** Further facts: writes to the store *)

Lemma saveCommonName_names (setDocOk : bool) (name : jsstring) (s : AppState)
    (fs : Firestore) :
  (saveCommonName setDocOk name (s, fs)).2 = fs
  \/ ((saveCommonName setDocOk name (s, fs)).2
      = {| stock_items := stock_items fs;
           common_names :=
             <[sanitizeDocId (Js.trim name) := Js.trim name]> (common_names fs) |}
      /\ notConnected s = false
      /\ Js.trim name <> []
      /\ (Js.trim name ∉ commonNames s)
      /\ setDocOk = true).
Proof using Type.
  unfold saveCommonName.
  destruct (notConnected s) eqn:Hn; [by left |]. cbn [orb].
  destruct (Js.truthy_str name) eqn:Hname; cbn [negb]; [| by left].
  destruct (Js.truthy_str (Js.trim name)) eqn:Ht; cbn [andb]; [| by left].
  destruct (bool_decide (Js.trim name ∈ commonNames s)) eqn:Hin; cbn [negb]; [by left |].
  destruct setDocOk; [| by left].
  right. split; [reflexivity |]. split; [reflexivity |].
  split; [destruct (Js.trim name); [discriminate Ht | done] |].
  split; [by apply bool_decide_eq_false in Hin | reflexivity].
Qed.

Lemma addItem_store (addDocResult : option jsstring) (createdAt : jsstring)
    (setDocOk : bool) (s : AppState) (fs : Firestore) :
  (addItem addDocResult createdAt setDocOk (s, fs)).2 = fs
  \/ exists newId : jsstring,
       addDocResult = Some newId
       /\ notConnected s = false
       /\ Js.truthy_str (NewItem.name (newItem s)) = true
       /\ Js.truthy_str (NewItem.expirationDate (newItem s)) = true
       /\ Js.le (NewItem.quantity (newItem s)) (Num 0) = false
       /\ Js.le (NewItem.alarmDays (newItem s)) (Num 0) = false
       /\ (addItem addDocResult createdAt setDocOk (s, fs)).2
          = (saveCommonName setDocOk (Js.trim (NewItem.name (newItem s)))
               (setErrorMessage None s,
                {| stock_items :=
                     <[newId := draftDoc (newItem s) createdAt]> (stock_items fs);
                   common_names := common_names fs |})).2
       /\ (addItem addDocResult createdAt setDocOk (s, fs)).1
          = setNewItem initialNewItem (setErrorMessage None s).
Proof using Type.
  unfold addItem.
  destruct (notConnected s) eqn:Hn; [by left |].
  destruct (Js.truthy_str (NewItem.name (newItem s))) eqn:H1; cbn [negb orb]; [| by left].
  destruct (Js.truthy_str (NewItem.expirationDate (newItem s))) eqn:H2;
    cbn [negb orb]; [| by left].
  destruct (Js.le (NewItem.quantity (newItem s)) (Num 0)) eqn:H3; cbn [orb]; [by left |].
  destruct (Js.le (NewItem.alarmDays (newItem s)) (Num 0)) eqn:H4; [by left |].
  destruct addDocResult as [newId |]; [| by left].
  right. exists newId. do 6 (split; [first [reflexivity | assumption] |]).
  fold (draftDoc (newItem s) createdAt).
  pose proof (saveCommonName_app setDocOk (Js.trim (NewItem.name (newItem s)))
                (setErrorMessage None s,
                 {| stock_items :=
                      <[newId := draftDoc (newItem s) createdAt]> (stock_items fs);
                    common_names := common_names fs |})) as Happ.
  destruct (saveCommonName _ _ _) as [s2 fs2]. cbn [fst snd] in Happ |- *.
  subst s2. split; reflexivity.
Qed.

Lemma updateItem_store (updateDocOk setDocOk : bool) (s : AppState) (fs : Firestore) :
  (updateItem updateDocOk setDocOk (s, fs)).2 = fs
  \/ exists (e : Item.t) (old : DocData.t),
       editingItem s = Some e
       /\ stock_items fs !! Item.id e = Some old
       /\ updateDocOk = true
       /\ notConnected s = false
       /\ Js.truthy_str (Item.name e) = true
       /\ Js.truthy_str (Item.expirationDate e) = true
       /\ Js.le (Item.quantity e) (Num 0) = false
       /\ Js.le (Item.alarmDays e) (Num 0) = false
       /\ (updateItem updateDocOk setDocOk (s, fs)).2
          = (saveCommonName setDocOk (Js.trim (Item.name e))
               (setErrorMessage None s,
                {| stock_items := <[Item.id e := editedDoc e old]> (stock_items fs);
                   common_names := common_names fs |})).2
       /\ (updateItem updateDocOk setDocOk (s, fs)).1
          = setEditingItem None (setErrorMessage None s).
Proof using Type.
  unfold updateItem.
  destruct (notConnected s) eqn:Hn; [by left |].
  destruct (editingItem s) as [e |] eqn:He; [| by left].
  destruct (Js.truthy_str (Item.name e)) eqn:H1; cbn [negb orb]; [| by left].
  destruct (Js.truthy_str (Item.expirationDate e)) eqn:H2; cbn [negb orb]; [| by left].
  destruct (Js.le (Item.quantity e) (Num 0)) eqn:H3; cbn [orb]; [by left |].
  destruct (Js.le (Item.alarmDays e) (Num 0)) eqn:H4; [by left |].
  destruct (stock_items fs !! Item.id e) as [old |] eqn:Hold; [| by left].
  destruct updateDocOk; [| by left].
  right. exists e, old. do 8 (split; [first [reflexivity | assumption] |]).
  fold (editedDoc e old).
  pose proof (saveCommonName_app setDocOk (Js.trim (Item.name e))
                (setErrorMessage None s,
                 {| stock_items := <[Item.id e := editedDoc e old]> (stock_items fs);
                    common_names := common_names fs |})) as Happ.
  destruct (saveCommonName _ _ _) as [s2 fs2]. cbn [fst snd] in Happ |- *.
  subst s2. split; reflexivity.
Qed.

Lemma draftDoc_submitted (id : jsstring) (n : NewItem.t) (createdAt : jsstring) :
  Js.truthy_str (NewItem.expirationDate n) = true ->
  Js.le (NewItem.quantity n) (Num 0) = false ->
  Js.le (NewItem.alarmDays n) (Num 0) = false ->
  submittedDoc id (draftDoc n createdAt).
Proof using Type.
  intros Hd Hq Ha. split; [apply trim_noEdgeSpace |].
  split; [by apply truthy_str_nonempty |].
  exists (NewItem.quantity n), (NewItem.alarmDays n). done.
Qed.

Lemma editedDoc_submitted (id : jsstring) (e : Item.t) (old : DocData.t) :
  Js.truthy_str (Item.expirationDate e) = true ->
  Js.le (Item.quantity e) (Num 0) = false ->
  Js.le (Item.alarmDays e) (Num 0) = false ->
  submittedDoc id (editedDoc e old).
Proof using Type.
  intros Hd Hq Ha. split; [apply trim_noEdgeSpace |].
  split; [by apply truthy_str_nonempty |].
  exists (Item.quantity e), (Item.alarmDays e). done.
Qed.

Lemma Firestore_eta (fs : Firestore) :
  {| stock_items := stock_items fs; common_names := common_names fs |} = fs.
Proof using Type. by destruct fs. Qed.

Lemma saveCommonName_keeps (setDocOk : bool) (name : jsstring) (s : AppState)
    (fs : Firestore) :
  stock_items (saveCommonName setDocOk name (s, fs)).2 = stock_items fs
  /\ dom (common_names fs) ⊆ dom (common_names (saveCommonName setDocOk name (s, fs)).2)
  /\ (map_Forall storedName (common_names fs) ->
      map_Forall storedName (common_names (saveCommonName setDocOk name (s, fs)).2))
  /\ (notConnected s = true -> (saveCommonName setDocOk name (s, fs)).2 = fs).
Proof using Type.
  destruct (saveCommonName_names setDocOk name s fs)
    as [-> | (-> & Hconn & Hne & _ & _)].
  - done.
  - cbn [stock_items common_names]. split; [reflexivity |].
    split; [apply dom_insert_subseteq |]. split; [| congruence].
    intros Hwf. apply map_Forall_insert_2; [| exact Hwf].
    split; [reflexivity |]. split; [exact Hne | apply trim_noEdgeSpace].
Qed.

Lemma batch_commit_dom (batch : list (jsstring * jsstring))
    (names : gmap jsstring jsstring) :
  dom names ⊆ dom (batch_commit batch names).
Proof using Type.
  rewrite batch_commit_union, dom_union_L. apply union_subseteq_r.
Qed.

Lemma batch_commit_storedNames (batch : list (jsstring * jsstring))
    (names : gmap jsstring jsstring) :
  Forall (fun op => storedName op.1 op.2) batch ->
  map_Forall storedName names ->
  map_Forall storedName (batch_commit batch names).
Proof using Type.
  intros Hbatch. revert names.
  induction Hbatch as [| [k v] batch Hop _ IH]; intros names Hnames; [exact Hnames |].
  unfold batch_commit in *. cbn [foldl fst snd]. apply IH.
  by apply map_Forall_insert_2.
Qed.

Lemma importBatch_storedNames (data : jsstring) :
  Forall (fun op => storedName op.1 op.2) (importBatch (scanImport data)).
Proof.
  unfold importBatch. rewrite Forall_map. apply Forall_forall. intros name Hname.
  cbn [fst snd]. unfold scanImport in Hname.
  destruct (scanLines_spec (Js.split 10 (Js.trim data))
              {| namesToSave := []; successCount := 0; errorCount := 0 |})
    as (_ & Hmem & _); [apply NoDup_nil_2 |].
  apply Hmem in Hname as [Hname | [Hname Hne]]; [by apply elem_of_nil in Hname |].
  apply list_elem_of_fmap in Hname as (line & -> & _).
  split; [reflexivity |]. split; [exact Hne | apply trim_noEdgeSpace].
Qed.

(** What one event may do to the common names: the documents present
    stay present, well-formed names stay well-formed, and the batches
    waiting for the store hold well-formed names only. *)
Lemma step_common_names (e : Event) (sys : System) :
  Forall (fun p => Forall (fun op => storedName op.1 op.2) (pendingBatch p))
    (pendingImports sys) ->
  Forall (fun p => Forall (fun op => storedName op.1 op.2) (pendingBatch p))
    (pendingImports (step e sys))
  /\ dom (common_names (firestore sys)) ⊆ dom (common_names (firestore (step e sys)))
  /\ (map_Forall storedName (common_names (firestore sys)) ->
      map_Forall storedName (common_names (firestore (step e sys)))).
Proof.
  intros Hpending. destruct sys as [s fs ps]. cbn [pendingImports firestore] in *.
  destruct e;
    try (unfold step; cbn [handle app firestore pendingImports]; done).
  - unfold step. cbn [handle app firestore pendingImports snd].
    split; [exact Hpending |].
    destruct (addItem_store addDocResult createdAt setDocOk s fs)
      as [-> | (newId & _ & _ & _ & _ & _ & _ & -> & _)]; [done |].
    destruct (saveCommonName_keeps setDocOk (Js.trim (NewItem.name (newItem s)))
                (setErrorMessage None s)
                {| stock_items :=
                     <[newId := draftDoc (newItem s) createdAt]> (stock_items fs);
                   common_names := common_names fs |}) as (_ & Hdom & Hwf & _).
    done.
  - unfold step. cbn [handle app firestore pendingImports snd].
    split; [exact Hpending |].
    destruct (updateItem_store updateDocOk setDocOk s fs)
      as [-> | (e & old & _ & _ & _ & _ & _ & _ & _ & _ & -> & _)]; [done |].
    destruct (saveCommonName_keeps setDocOk (Js.trim (Item.name e))
                (setErrorMessage None s)
                {| stock_items := <[Item.id e := editedDoc e old]> (stock_items fs);
                   common_names := common_names fs |}) as (_ & Hdom & Hwf & _).
    done.
  - unfold step. cbn [handle app firestore pendingImports snd]. unfold deleteItem.
    split; [exact Hpending |]. repeat case_match; done.
  - rewrite step_ImportStart. cbn [app firestore pendingImports].
    split; [| done]. apply Forall_app. split; [exact Hpending |].
    unfold handleImport_start. case_match; cbn [snd option_list]; [constructor |].
    constructor; [| constructor]. cbn [pendingBatch]. apply importBatch_storedNames.
  - destruct ps as [| p ps].
    + rewrite step_ImportSettled_idle by reflexivity. done.
    + apply Forall_cons in Hpending as [Hp Hps]. destruct commitError as [err |].
      * erewrite step_ImportSettled_reject by reflexivity. done.
      * erewrite step_ImportSettled_commit by reflexivity.
        cbn [app firestore pendingImports common_names].
        split; [exact Hps |]. split; [apply batch_commit_dom |].
        by apply batch_commit_storedNames.
Qed.

Lemma run_pending_wellformed (fs : Firestore) (trace : list Event) :
  Forall (fun p => Forall (fun op => storedName op.1 op.2) (pendingBatch p))
    (pendingImports (run fs trace)).
Proof.
  induction trace as [| e trace IH] using rev_ind; [constructor |].
  rewrite run_snoc. by apply step_common_names.
Qed.

(** X13. The component never deletes a common name: along every run
    each document of [common_names] that was there is still there. And
    it keeps the names well-formed: if every stored name is non-empty,
    trimmed and filed under its sanitized form, that stays so, whatever
    is typed, imported or answered by the store. *)
Theorem common_names_kept (fs : Firestore) (trace : list Event) :
  dom (common_names fs) ⊆ dom (common_names (firestore (run fs trace)))
  /\ (map_Forall storedName (common_names fs) ->
      map_Forall storedName (common_names (firestore (run fs trace)))).
Proof.
  induction trace as [| e trace [IHdom IHwf]] using rev_ind; [done |].
  rewrite run_snoc.
  destruct (step_common_names e (run fs trace) (run_pending_wellformed fs trace))
    as (_ & Hdom & Hwf).
  split; [by etrans | auto].
Qed.

(** What one event may do to the stock documents. *)
Lemma step_stock_items (e : Event) (sys : System) :
  (map_Forall submittedDoc (stock_items (firestore sys)) ->
   map_Forall submittedDoc (stock_items (firestore (step e sys))))
  /\ match e with
     | SubmitNew addDocResult _ _ =>
         forall id : jsstring,
           addDocResult <> Some id ->
           stock_items (firestore (step e sys)) !! id = stock_items (firestore sys) !! id
     | SubmitEdit _ _ =>
         dom (stock_items (firestore (step e sys))) = dom (stock_items (firestore sys))
         /\ forall id : jsstring,
              Item.id <$> editingItem (app sys) <> Some id ->
              stock_items (firestore (step e sys)) !! id
              = stock_items (firestore sys) !! id
     | Delete id _ =>
         stock_items (firestore (step e sys)) = stock_items (firestore sys)
         \/ stock_items (firestore (step e sys)) = delete id (stock_items (firestore sys))
     | _ => stock_items (firestore (step e sys)) = stock_items (firestore sys)
     end.
Proof.
  destruct sys as [s fs ps]. cbn [firestore app].
  destruct e;
    try (unfold step; cbn [handle app firestore pendingImports]; done).
  - unfold step. cbn [handle app firestore pendingImports snd].
    destruct (addItem_store addDocResult createdAt setDocOk s fs)
      as [-> | (newId & -> & _ & _ & Hd & Hq & Ha & -> & _)]; [done |].
    rewrite saveCommonName_stock. cbn [snd stock_items]. split.
    + intros Hwf. apply map_Forall_insert_2; [| exact Hwf]. by apply draftDoc_submitted.
    + intros id Hid. apply lookup_insert_ne. congruence.
  - unfold step. cbn [handle app firestore pendingImports snd].
    destruct (updateItem_store updateDocOk setDocOk s fs)
      as [-> | (e & old & He & Hold & _ & _ & _ & Hd & Hq & Ha & -> & _)]; [done |].
    rewrite saveCommonName_stock. cbn [snd stock_items]. split; [| split].
    + intros Hwf. apply map_Forall_insert_2; [| exact Hwf]. by apply editedDoc_submitted.
    + apply dom_insert_lookup_L. by rewrite Hold.
    + intros id Hid. apply lookup_insert_ne. rewrite He in Hid. cbn in Hid. congruence.
  - unfold step. cbn [handle app firestore pendingImports snd]. unfold deleteItem.
    repeat case_match; cbn [snd stock_items]; split;
      first [by left | by right | done | apply map_Forall_delete].
  - rewrite step_ImportStart. done.
  - destruct ps as [| p ps].
    + rewrite step_ImportSettled_idle by reflexivity. done.
    + destruct commitError as [err |].
      * erewrite step_ImportSettled_reject by reflexivity. done.
      * erewrite step_ImportSettled_commit by reflexivity. done.
Qed.

(** X14. Every stock document the component writes has a trimmed name,
    a date, and a quantity and an alarm threshold that are not at or
    below zero: if the stock documents of the store are so at the
    start, they are so at every point of every run. Adding writes the
    one document the store names, editing keeps the set of documents,
    deleting removes at most the one named, and no other event touches
    the stock documents. *)
Theorem stock_items_kept (fs : Firestore) (trace : list Event) (e : Event) :
  (map_Forall submittedDoc (stock_items fs) ->
   map_Forall submittedDoc (stock_items (firestore (run fs trace))))
  /\ match e with
     | SubmitNew addDocResult _ _ =>
         forall id : jsstring,
           addDocResult <> Some id ->
           stock_items (firestore (step e (run fs trace))) !! id
           = stock_items (firestore (run fs trace)) !! id
     | SubmitEdit _ _ =>
         dom (stock_items (firestore (step e (run fs trace))))
         = dom (stock_items (firestore (run fs trace)))
         /\ forall id : jsstring,
              Item.id <$> editingItem (app (run fs trace)) <> Some id ->
              stock_items (firestore (step e (run fs trace))) !! id
              = stock_items (firestore (run fs trace)) !! id
     | Delete id _ =>
         stock_items (firestore (step e (run fs trace)))
         = stock_items (firestore (run fs trace))
         \/ stock_items (firestore (step e (run fs trace)))
            = delete id (stock_items (firestore (run fs trace)))
     | _ =>
         stock_items (firestore (step e (run fs trace)))
         = stock_items (firestore (run fs trace))
     end.
Proof.
  split; [| apply step_stock_items].
  induction trace as [| e' trace IH] using rev_ind; [done |].
  rewrite run_snoc. intros Hwf. apply step_stock_items. by apply IH.
Qed.

(** X15. Until Firebase is initialised and a user identifier is known,
    nothing is written: an event that finds the component unconnected,
    no import waiting, leaves both collections as they are. *)
Theorem nothing_written_unconnected (e : Event) (sys : System) :
  notConnected (app sys) = true ->
  pendingImports sys = [] ->
  firestore (step e sys) = firestore sys
  /\ pendingImports (step e sys) = [].
Proof.
  destruct sys as [s fs ps]. cbn [app pendingImports firestore]. intros Hn ->.
  destruct e;
    try (unfold step; cbn [handle app firestore pendingImports]; done).
  - unfold step. cbn [handle app firestore pendingImports snd].
    unfold addItem. by rewrite Hn.
  - unfold step. cbn [handle app firestore pendingImports snd].
    unfold updateItem. by rewrite Hn.
  - unfold step. cbn [handle app firestore pendingImports snd].
    unfold deleteItem. by rewrite Hn.
  - rewrite step_ImportStart. cbn [app firestore pendingImports].
    rewrite handleImport_start_refuses by (by rewrite Hn). done.
Qed.

(** ** Further facts: submitting, editing and deleting *)

Lemma render_editingItem (newItems : option Z) (s : AppState) :
  editingItem (render newItems s) = editingItem s.
Proof using Type.
  unfold render, urgentModalEffect. destruct newItems; repeat case_match; reflexivity.
Qed.

Lemma saveCommonName_trimmed (setDocOk : bool) (name : jsstring) (s : AppState)
    (fs : Firestore) :
  notConnected s = false ->
  (saveCommonName setDocOk (Js.trim name) (s, fs)).2 =
    {| stock_items := stock_items fs;
       common_names :=
         if bool_decide (Js.trim name <> [] /\ (Js.trim name ∉ commonNames s))
            && setDocOk
         then <[sanitizeDocId (Js.trim name) := Js.trim name]> (common_names fs)
         else common_names fs |}.
Proof using Type.
  intros Hn. unfold saveCommonName. rewrite Hn. cbn [orb].
  rewrite (trim_fixed (Js.trim name)) by apply trim_noEdgeSpace.
  destruct (Js.trim name) as [| c t] eqn:Ht.
  - cbn [Js.truthy_str negb]. rewrite bool_decide_eq_false_2 by (intros [H _]; done).
    cbn [andb snd]. by rewrite Firestore_eta.
  - cbn [Js.truthy_str negb andb].
    destruct (decide (c :: t ∈ commonNames s)) as [Hin | Hout].
    + rewrite (bool_decide_eq_true_2 _ Hin).
      rewrite bool_decide_eq_false_2 by (intros [_ H]; done).
      cbn [negb andb snd]. by rewrite Firestore_eta.
    + rewrite (bool_decide_eq_false_2 _ Hout).
      rewrite bool_decide_eq_true_2 by done.
      cbn [negb andb]. destruct setDocOk; cbn [snd]; [reflexivity |].
      by rewrite Firestore_eta.
Qed.

Lemma fetchItem_counts (id : jsstring) (d : DocData.t) (q a : Z) :
  DocData.quantity d = VNum (Num q) ->
  DocData.alarmDays d = VNum (Num a) ->
  0 < a ->
  fetchItem {| QueryDoc.id := id; QueryDoc.data := d |} =
    {| Item.id := id;
       Item.name := DocData.name d;
       Item.quantity := Num q;
       Item.expirationDate := DocData.expirationDate d;
       Item.alarmDays := Num a;
       Item.category := Js.or_val (DocData.category d) (VStr CATEGORIES_0);
       Item.createdAt := DocData.createdAt d |}.
Proof using Type.
  intros Hq Ha Hpos. unfold fetchItem. cbn [QueryDoc.id QueryDoc.data].
  rewrite Hq, Ha. cbn [Js.ToString]. rewrite !parseInt_Number_toString.
  unfold Js.or_num. cbn [Js.truthy_num].
  destruct a; [lia | reflexivity | lia].
Qed.

(** X16. Submitting a valid draft and reading it back. With the
    component connected and the draft passing the validation, the store
    holds under the identifier it assigned the document of the draft,
    the name trimmed; the snapshot handler reads this document back as
    the item that was typed, with the same quantity and alarm days; the
    form is reset and the error cleared. The trimmed name is saved as a
    common name exactly when it is not empty, is not yet among the
    common names the component knows, and the store accepts the write;
    so a name of white space only passes the validation and is stored
    as the empty name. *)
Theorem addItem_read_back (sys : System) (newId createdAt : jsstring)
    (setDocOk : bool) (q a : Z) :
  notConnected (app sys) = false ->
  NewItem.name (newItem (app sys)) <> [] ->
  NewItem.expirationDate (newItem (app sys)) <> [] ->
  NewItem.quantity (newItem (app sys)) = Num q ->
  NewItem.alarmDays (newItem (app sys)) = Num a ->
  0 < q <= MAX_SAFE_INTEGER ->
  0 < a <= MAX_SAFE_INTEGER ->
  stock_items (firestore (step (SubmitNew (Some newId) createdAt setDocOk) sys))
    = <[newId := draftDoc (newItem (app sys)) createdAt]> (stock_items (firestore sys))
  /\ fetchItem {| QueryDoc.id := newId;
                  QueryDoc.data := draftDoc (newItem (app sys)) createdAt |}
     = {| Item.id := newId;
          Item.name := Js.trim (NewItem.name (newItem (app sys)));
          Item.quantity := Num q;
          Item.expirationDate := NewItem.expirationDate (newItem (app sys));
          Item.alarmDays := Num a;
          Item.category :=
            VStr (Js.or_str (NewItem.category (newItem (app sys))) CATEGORIES_0);
          Item.createdAt := VStr createdAt |}
  /\ common_names (firestore (step (SubmitNew (Some newId) createdAt setDocOk) sys))
     = (if bool_decide (Js.trim (NewItem.name (newItem (app sys))) <> []
                        /\ (Js.trim (NewItem.name (newItem (app sys)))
                              ∉ commonNames (app sys)))
           && setDocOk
        then <[sanitizeDocId (Js.trim (NewItem.name (newItem (app sys))))
                 := Js.trim (NewItem.name (newItem (app sys)))]>
               (common_names (firestore sys))
        else common_names (firestore sys))
  /\ newItem (app (step (SubmitNew (Some newId) createdAt setDocOk) sys))
     = initialNewItem
  /\ errorMessage (app (step (SubmitNew (Some newId) createdAt setDocOk) sys)) = None.
Proof using Type.
  destruct sys as [s fs ps]. cbn [app firestore].
  intros Hn Hname Hdate Hq Ha Hqpos Hapos.
  apply truthy_str_nonempty in Hname. apply truthy_str_nonempty in Hdate.
  assert (addItem (Some newId) createdAt setDocOk (s, fs)
          = (setNewItem initialNewItem (setErrorMessage None s),
             (saveCommonName setDocOk (Js.trim (NewItem.name (newItem s)))
                (setErrorMessage None s,
                 {| stock_items :=
                      <[newId := draftDoc (newItem s) createdAt]> (stock_items fs);
                    common_names := common_names fs |})).2)) as Hadd.
  { assert (Js.le (NewItem.quantity (newItem s)) (Num 0) = false) as Hq0.
    { rewrite Hq. cbn [Js.le]. apply Z.leb_gt. lia. }
    assert (Js.le (NewItem.alarmDays (newItem s)) (Num 0) = false) as Ha0.
    { rewrite Ha. cbn [Js.le]. apply Z.leb_gt. lia. }
    unfold addItem. rewrite Hn, Hname, Hdate, Hq0, Ha0. cbn [negb orb].
    fold (draftDoc (newItem s) createdAt).
    pose proof (saveCommonName_app setDocOk (Js.trim (NewItem.name (newItem s)))
                  (setErrorMessage None s,
                   {| stock_items :=
                        <[newId := draftDoc (newItem s) createdAt]> (stock_items fs);
                      common_names := common_names fs |})) as Happ.
    destruct (saveCommonName _ _ _) as [s2 fs2]. cbn [fst snd] in Happ |- *.
    by subst s2. }
  rewrite saveCommonName_trimmed in Hadd by exact Hn.
  unfold step. cbn [handle app firestore pendingImports]. rewrite Hadd.
  cbn [fst snd stock_items common_names].
  rewrite render_newItem, render_errorMessage.
  split; [reflexivity |]. split; [| done].
  rewrite (fetchItem_counts newId (draftDoc (newItem s) createdAt) q a)
    by (cbn [draftDoc DocData.quantity DocData.alarmDays]; first [congruence | lia]).
  cbn [draftDoc DocData.name DocData.expirationDate DocData.category DocData.createdAt].
  f_equal. unfold Js.or_val, Js.or_str. cbn [Js.truthy].
  by destruct (Js.truthy_str (NewItem.category (newItem s))).
Qed.

Lemma editedDoc_fetchItem (id : jsstring) (d : DocData.t) (q a : Z) :
  DocData.quantity d = VNum (Num q) ->
  DocData.alarmDays d = VNum (Num a) ->
  0 < a ->
  noEdgeSpace (DocData.name d) ->
  Js.truthy (DocData.category d) = true ->
  editedDoc (fetchItem {| QueryDoc.id := id; QueryDoc.data := d |}) d = d.
Proof using Type.
  intros Hq Ha Hpos Hname Hcat. rewrite (fetchItem_counts id d q a Hq Ha Hpos).
  unfold editedDoc. cbn [Item.name Item.quantity Item.expirationDate Item.alarmDays
                         Item.category].
  rewrite (trim_fixed _ Hname). unfold Js.or_val. rewrite Hcat, <- Hq, <- Ha.
  by destruct d.
Qed.

(** X17. Saving an edit. With the component connected and the edited
    item passing the validation, the document of that identifier is
    rewritten in place: five fields from the form, the name trimmed,
    [createdAt] as it was; the edit form closes and the error is
    cleared. If the document is no longer there, or the store refuses,
    nothing is written, the document is not created anew, the form
    stays open and the error of the update is shown. *)
Theorem updateItem_in_place (sys : System) (e : Item.t) (updateDocOk setDocOk : bool) :
  notConnected (app sys) = false ->
  editingItem (app sys) = Some e ->
  Item.name e <> [] ->
  Item.expirationDate e <> [] ->
  Js.le (Item.quantity e) (Num 0) = false ->
  Js.le (Item.alarmDays e) (Num 0) = false ->
  match stock_items (firestore sys) !! Item.id e with
  | Some old =>
      if updateDocOk then
        stock_items (firestore (step (SubmitEdit updateDocOk setDocOk) sys))
          = <[Item.id e := editedDoc e old]> (stock_items (firestore sys))
        /\ DocData.createdAt (editedDoc e old) = DocData.createdAt old
        /\ editingItem (app (step (SubmitEdit updateDocOk setDocOk) sys)) = None
        /\ errorMessage (app (step (SubmitEdit updateDocOk setDocOk) sys)) = None
      else
        firestore (step (SubmitEdit updateDocOk setDocOk) sys) = firestore sys
        /\ editingItem (app (step (SubmitEdit updateDocOk setDocOk) sys)) = Some e
        /\ errorMessage (app (step (SubmitEdit updateDocOk setDocOk) sys))
           = Some (js "Error al actualizar el artículo.")
  | None =>
      firestore (step (SubmitEdit updateDocOk setDocOk) sys) = firestore sys
      /\ editingItem (app (step (SubmitEdit updateDocOk setDocOk) sys)) = Some e
      /\ errorMessage (app (step (SubmitEdit updateDocOk setDocOk) sys))
         = Some (js "Error al actualizar el artículo.")
  end.
Proof using Type.
  destruct sys as [s fs ps]. cbn [app firestore].
  intros Hn He Hname Hdate Hq Ha.
  apply truthy_str_nonempty in Hname. apply truthy_str_nonempty in Hdate.
  unfold step. cbn [handle app firestore pendingImports].
  rewrite render_editingItem, render_errorMessage.
  unfold updateItem. rewrite Hn, He, Hname, Hdate, Hq, Ha. cbn [negb orb].
  destruct (stock_items fs !! Item.id e) as [old |] eqn:Hold;
    [| split; [reflexivity | split; [exact He | reflexivity]]].
  destruct updateDocOk; [| split; [reflexivity | split; [exact He | reflexivity]]].
  fold (editedDoc e old).
  pose proof (saveCommonName_app setDocOk (Js.trim (Item.name e))
                (setErrorMessage None s,
                 {| stock_items := <[Item.id e := editedDoc e old]> (stock_items fs);
                    common_names := common_names fs |})) as Happ.
  pose proof (saveCommonName_stock setDocOk (Js.trim (Item.name e))
                (setErrorMessage None s,
                 {| stock_items := <[Item.id e := editedDoc e old]> (stock_items fs);
                    common_names := common_names fs |})) as Hst.
  destruct (saveCommonName _ _ _) as [s2 fs2]. cbn [fst snd stock_items] in *.
  subst s2. done.
Qed.

(** X18. Opening the edit form on an item and saving it unchanged
    leaves the stock as it was, when the document is one the component
    wrote: a trimmed name, whole counts above zero, a category. The
    item the snapshot handler made of the document writes back the
    same document. *)
Theorem edit_unchanged_keeps_stock (sys : System) (id : jsstring) (d : DocData.t)
    (q a : Z) (setDocOk : bool) :
  notConnected (app sys) = false ->
  stock_items (firestore sys) !! id = Some d ->
  editingItem (app sys)
    = Some (fetchItem {| QueryDoc.id := id; QueryDoc.data := d |}) ->
  DocData.name d <> [] ->
  noEdgeSpace (DocData.name d) ->
  DocData.expirationDate d <> [] ->
  DocData.quantity d = VNum (Num q) ->
  DocData.alarmDays d = VNum (Num a) ->
  0 < q <= MAX_SAFE_INTEGER ->
  0 < a <= MAX_SAFE_INTEGER ->
  Js.truthy (DocData.category d) = true ->
  editedDoc (fetchItem {| QueryDoc.id := id; QueryDoc.data := d |}) d = d
  /\ stock_items (firestore (step (SubmitEdit true setDocOk) sys))
     = stock_items (firestore sys).
Proof using Type.
  intros Hn Hd He Hname Hedge Hdate Hq Ha Hqpos Hapos Hcat.
  assert (editedDoc (fetchItem {| QueryDoc.id := id; QueryDoc.data := d |}) d = d)
    as Hfix by (apply (editedDoc_fetchItem id d q a); first [done | lia]).
  split; [exact Hfix |].
  destruct sys as [s fs ps]. cbn [app firestore] in *.
  destruct (updateItem_store true setDocOk s fs)
    as [Hsame | (e & old & He' & Hold & _ & _ & _ & _ & _ & _ & Hstore & _)].
  - unfold step. cbn [handle app firestore pendingImports snd]. by rewrite Hsame.
  - unfold step. cbn [handle app firestore pendingImports snd]. rewrite Hstore.
    rewrite saveCommonName_stock. cbn [snd stock_items].
    rewrite He in He'. injection He' as <-.
    rewrite (fetchItem_counts id d q a Hq Ha ltac:(lia)) in Hold |- *.
    cbn [Item.id] in Hold |- *. rewrite Hd in Hold. injection Hold as <-.
    rewrite <- (fetchItem_counts id d q a Hq Ha ltac:(lia)), Hfix.
    by apply insert_id.
Qed.

Lemma step_Delete (id : jsstring) (deleteDocOk : bool) (sys : System) :
  step (Delete id deleteDocOk) sys =
    {| app := render None (deleteItem id deleteDocOk (app sys, firestore sys)).1;
       firestore := (deleteItem id deleteDocOk (app sys, firestore sys)).2;
       pendingImports := pendingImports sys |}.
Proof using Type. reflexivity. Qed.

(** X19. Deleting an item. With the component connected and the store
    accepting, the document of that identifier is gone and every other
    stock document and every common name is as it was, so the name of
    a deleted item stays among the suggestions; deleting again, or
    deleting an identifier that is not there, changes nothing. When
    the store refuses, nothing is removed and the error of the
    deletion is shown. *)
Theorem deleteItem_removes_one (sys : System) (id : jsstring) :
  notConnected (app sys) = false ->
  stock_items (firestore (step (Delete id true) sys)) !! id = None
  /\ (forall other : jsstring,
        other <> id ->
        stock_items (firestore (step (Delete id true) sys)) !! other
        = stock_items (firestore sys) !! other)
  /\ common_names (firestore (step (Delete id true) sys))
     = common_names (firestore sys)
  /\ firestore (step (Delete id true) (step (Delete id true) sys))
     = firestore (step (Delete id true) sys)
  /\ (stock_items (firestore sys) !! id = None ->
      firestore (step (Delete id true) sys) = firestore sys)
  /\ firestore (step (Delete id false) sys) = firestore sys
  /\ errorMessage (app (step (Delete id false) sys))
     = Some (js "Error al eliminar el artículo.").
Proof using Type.
  intros Hn.
  assert (forall sys0 : System,
            notConnected (app sys0) = false ->
            step (Delete id true) sys0 =
              {| app := render None (app sys0);
                 firestore :=
                   {| stock_items := delete id (stock_items (firestore sys0));
                      common_names := common_names (firestore sys0) |};
                 pendingImports := pendingImports sys0 |}) as Hdel.
  { intros sys0 H0. rewrite step_Delete. unfold deleteItem. by rewrite H0. }
  rewrite !(Hdel sys Hn).
  rewrite Hdel by (cbn [app]; by rewrite render_notConnected).
  cbn [app firestore stock_items common_names].
  split; [apply lookup_delete_eq |].
  split; [intros other Hother; by apply lookup_delete_ne |].
  split; [reflexivity |].
  split; [by rewrite delete_delete_eq |].
  split; [intros Hnone; rewrite delete_id by exact Hnone; apply Firestore_eta |].
  rewrite step_Delete. unfold deleteItem. rewrite Hn. cbn [fst snd app firestore].
  by rewrite render_errorMessage.
Qed.

(** ** Further facts: the call to the generative service *)





End App.

(** ** The component on the concrete host *)

Lemma checkExpirationStatus_classifies_witness :
  exists d : Z,
    days (checkExpirationStatus DemoHost.Date_getTime 1740787200001
            (js "2025-03-04") (Num 7)) = Num d
    /\ (d - 1) * msPerDay < 1741046400000 - 1740787200001 <= d * msPerDay
    /\ (status (checkExpirationStatus DemoHost.Date_getTime 1740787200001
                  (js "2025-03-04") (Num 7)) = Expired <-> d < 0)
    /\ (status (checkExpirationStatus DemoHost.Date_getTime 1740787200001
                  (js "2025-03-04") (Num 7)) = Warning <-> 0 <= d <= 7)
    /\ (status (checkExpirationStatus DemoHost.Date_getTime 1740787200001
                  (js "2025-03-04") (Num 7)) = OK <-> 7 < d).
Proof.
  apply (checkExpirationStatus_classifies DemoHost.Date_getTime
           1740787200001 (js "2025-03-04") 1741046400000 7).
  - reflexivity.
  - lia.
Defined.

Lemma items_sorted_by_expirationDate_witness :
  StronglySorted (expiresNoLater DemoHost.Date_getTime)
    (items (app (run DemoHost.Date_getTime Sample.emptyStore
                   [StockSnapshot [Sample.rice; Sample.cheese; Sample.milk] Sample.now]))).
Proof.
  refine (proj1 (items_sorted_by_expirationDate DemoHost.Date_getTime Sample.emptyStore
                   [StockSnapshot [Sample.rice; Sample.cheese; Sample.milk] Sample.now]) _).
  constructor; [| constructor].
  repeat (constructor; [eexists; reflexivity |]). constructor.
Defined.

Lemma StronglySorted_related {A : Type} (R : A -> A -> Prop) (l : list A) (x y : A) :
  StronglySorted R l -> x ∈ l -> y ∈ l -> x = y \/ R x y \/ R y x.
Proof.
  induction 1 as [| a l Hsorted IH Ha]; intros Hx Hy; [by apply elem_of_nil in Hx |].
  rewrite Forall_forall in Ha.
  apply elem_of_cons in Hx as [-> | Hx]; apply elem_of_cons in Hy as [-> | Hy].
  - by left.
  - right. left. by apply Ha.
  - right. right. by apply Ha.
  - by apply IH.
Qed.

(** A snapshot that delivers a later date, a date that cannot be read
    and an earlier date is kept as delivered, the later date before
    the earlier: each comparison of neighbours involves the unreadable
    date and counts as equal. And whatever the sort does, no
    arrangement of these items is in order of expiration date, since
    none of them is filtered out and the unreadable date compares with
    nothing. *)
Lemma unreadable_date_breaks_the_order :
  map Item.expirationDate
    (items (app (run DemoHost.Date_getTime Sample.emptyStore undatedTrace)))
  = [js "2025-03-06"; js "pronto"; js "2025-03-04"]
  /\ ~ StronglySorted (expiresNoLater DemoHost.Date_getTime)
        (items (app (run DemoHost.Date_getTime Sample.emptyStore undatedTrace)))
  /\ (forall l : list Item.t,
        l ≡ₚ map fetchItem [Sample.cheese; undated; Sample.milk] ->
        ~ StronglySorted (expiresNoLater DemoHost.Date_getTime) l).
Proof.
  assert (forall l : list Item.t,
            l ≡ₚ map fetchItem [Sample.cheese; undated; Sample.milk] ->
            ~ StronglySorted (expiresNoLater DemoHost.Date_getTime) l) as Hany.
  { intros l Hperm Hsorted.
    assert (fetchItem undated ∈ l) as Hu.
    { rewrite Hperm. cbn [map]. apply elem_of_cons. right. apply elem_of_cons. by left. }
    assert (fetchItem Sample.milk ∈ l) as Hm.
    { rewrite Hperm. cbn [map]. do 2 (apply elem_of_cons; right).
      apply elem_of_cons. by left. }
    destruct (StronglySorted_related _ l _ _ Hsorted Hu Hm) as [Heq | [H | H]].
    - discriminate Heq.
    - vm_compute in H. exact H.
    - vm_compute in H. exact H. }
  assert (items (app (run DemoHost.Date_getTime Sample.emptyStore undatedTrace))
          = map fetchItem [Sample.cheese; undated; Sample.milk]) as Hitems
    by (vm_compute; reflexivity).
  split; [vm_compute; reflexivity |]. split; [| exact Hany].
  rewrite Hitems. by apply Hany.
Qed.

Example snapshot_order :
  map Item.name
    (items (app (run DemoHost.Date_getTime Sample.emptyStore
                   [StockSnapshot [Sample.rice; Sample.cheese; Sample.milk] Sample.now])))
  = [js "Leche"; js "Queso"; js "Arroz"].
Proof. vm_compute. reflexivity. Qed.

(** C2, as stated, fails: with one urgent item shown and the alarm
    acknowledged, a snapshot that brings a second item in alarm opens
    the alarm again, the urgent set never having been empty. *)
Lemma alarm_reopens_on_second_urgent_item :
  let sys1 :=
    run DemoHost.Date_getTime Sample.emptyStore
      [StockSnapshot [Sample.milk] Sample.now; UrgentModalClose] in
  let sys2 :=
    step DemoHost.Date_getTime
      (StockSnapshot [Sample.milk; Sample.cheese] Sample.now) sys1 in
  length (urgentItems (app sys1)) = 1%nat
  /\ showUrgentModal (app sys1) = false
  /\ map (fun item =>
            status (checkExpirationStatus DemoHost.Date_getTime Sample.now
                      (Item.expirationDate item) (Item.alarmDays item)))
         (urgentItems (app sys2)) = [Warning; Warning]
  /\ showUrgentModal (app sys2) = true.
Proof. vm_compute. repeat split; reflexivity. Qed.

Lemma urgent_modal_gate_witness :
  showUrgentModal
    (app (step DemoHost.Date_getTime (StockSnapshot [Sample.milk] Sample.now)
            (run DemoHost.Date_getTime Sample.emptyStore []))) = true.
Proof.
  apply (urgent_modal_gate DemoHost.Date_getTime Sample.emptyStore []
           (StockSnapshot [Sample.milk] Sample.now)).
  - vm_compute. discriminate.
  - vm_compute. lia.
  - reflexivity.
Defined.

Lemma generateGeminiContent_backoff_witness :
  generateGeminiContent mockLimitedTwice =
    ({| geminiLoading := false;
        geminiResponse := Some (js "Preparar un flan con la leche.");
        showGeminiModal := true |},
     [Fetch 0; Sleep 1000; Fetch 1; Sleep 2000; Fetch 2]).
Proof.
  rewrite (proj2 (generateGeminiContent_backoff mockLimitedTwice)
             (js "Too Many Requests") (js "Too Many Requests") (js "OK")
             (BodyJson (Some (js "Resource exhausted")))
             (BodyJson (Some (js "Resource exhausted")))
             (Some (js "Preparar un flan con la leche."))
             eq_refl eq_refl eq_refl).
  vm_compute. reflexivity.
Defined.

(** 429, 429, then 200 with a body that cannot be read: the third
    attempt does not succeed; the call ends with the connection
    message. *)
Lemma ok_with_unreadable_body_is_no_success :
  mockLimitedThenUnreadable 0 = mockLimitedTwice 0
  /\ mockLimitedThenUnreadable 1 = mockLimitedTwice 1
  /\ mockLimitedThenUnreadable 2 = FetchResponse 200 (js "OK") BodyRejects
  /\ generateGeminiContent mockLimitedThenUnreadable =
       ({| geminiLoading := false;
           geminiResponse := Some (js "Error de conexión con el servicio de IA.");
           showGeminiModal := true |},
        [Fetch 0; Sleep 1000; Fetch 1; Sleep 2000; Fetch 2]).
Proof. vm_compute. repeat split. Qed.

Example server_error_not_retried :
  generateGeminiContent mockServerError =
    ({| geminiLoading := false;
        geminiResponse := Some (js "Error: Internal error");
        showGeminiModal := true |},
     [Fetch 0]).
Proof. vm_compute. reflexivity. Qed.

Example offline_exhausts :
  generateGeminiContent mockOffline =
    ({| geminiLoading := false;
        geminiResponse := Some (js "Error de conexión con el servicio de IA.");
        showGeminiModal := true |},
     [Fetch 0; Sleep 1000; Fetch 1; Sleep 2000; Fetch 2]).
Proof. vm_compute. reflexivity. Qed.

(** C6, as stated, fails twice. A 502 whose body is not JSON is fetched
    again, with the sleeps in between, and ends as a connection error;
    and a rate limit that outlasts the retries leaves the same state
    as a single 500 when both carry the same message. *)
Lemma unreadable_error_is_retried_and_rate_limit_not_told_apart :
  generateGeminiContent mockBadGateway =
    ({| geminiLoading := false;
        geminiResponse := Some (js "Error de conexión con el servicio de IA.");
        showGeminiModal := true |},
     [Fetch 0; Sleep 1000; Fetch 1; Sleep 2000; Fetch 2])
  /\ attempts (generateGeminiContent mockAlwaysLimited).2 = 3%nat
  /\ attempts (generateGeminiContent mockAlwaysFailing).2 = 1%nat
  /\ (generateGeminiContent mockAlwaysLimited).1
     = (generateGeminiContent mockAlwaysFailing).1.
Proof. vm_compute. repeat split; reflexivity. Qed.

Lemma generateGeminiContent_failures_witness :
  generateGeminiContent mockServerError =
    ({| geminiLoading := false;
        geminiResponse := Some (js "Error: Internal error");
        showGeminiModal := true |},
     backoffTrace 1).
Proof.
  assert (forall j : nat, (j < 0)%nat -> retried (mockServerError j) = true) as Hprefix.
  { intros j Hj. lia. }
  rewrite (proj1 (generateGeminiContent_failures mockServerError)
             0%nat 500 (js "Internal Server Error") (Some (js "Internal error"))
             ltac:(lia) Hprefix eq_refl eq_refl ltac:(discriminate)).
  vm_compute. reflexivity.
Defined.

Example import_session_stores_two_names :
  common_names
    (firestore
       (foldl (fun sys e => step DemoHost.Date_getTime e sys)
          (run DemoHost.Date_getTime Sample.emptyStore connectedTrace)
          (importSession milkMilkCheese)))
  = <[js "Cheese" := js "Cheese"]> (<[js "Milk" := js "Milk"]> ∅).
Proof. vm_compute. reflexivity. Qed.

Lemma import_idempotent_witness :
  firestore
    (foldl (fun sys e => step DemoHost.Date_getTime e sys)
       (run DemoHost.Date_getTime Sample.emptyStore connectedTrace)
       (importSession milkMilkCheese ++ importSession milkMilkCheese))
  = firestore
      (foldl (fun sys e => step DemoHost.Date_getTime e sys)
         (run DemoHost.Date_getTime Sample.emptyStore connectedTrace)
         (importSession milkMilkCheese)).
Proof.
  exact (proj2 (proj2 (import_idempotent DemoHost.Date_getTime milkMilkCheese))
           (run DemoHost.Date_getTime Sample.emptyStore connectedTrace) eq_refl).
Defined.



(** ** The concrete host's comparison is consistent *)

Lemma compareUnits_total (a b : jsstring) :
  0 < DemoHost.localeCompare a b -> DemoHost.localeCompare b a <= 0.
Proof.
  unfold DemoHost.localeCompare. revert b.
  induction a as [| x a IH]; intros [| y b]; cbn [DemoHost.compareUnits]; try lia.
  destruct (N.ltb_spec x y), (N.ltb_spec y x); try lia. apply IH.
Qed.

Lemma compareUnits_trans (a b c : jsstring) :
  DemoHost.localeCompare a b <= 0 -> DemoHost.localeCompare b c <= 0 ->
  DemoHost.localeCompare a c <= 0.
Proof.
  unfold DemoHost.localeCompare. revert b c.
  induction a as [| x a IH]; intros [| y b] [| z c]; cbn [DemoHost.compareUnits]; try lia.
  destruct (N.ltb_spec x y), (N.ltb_spec y x), (N.ltb_spec y z), (N.ltb_spec z y),
    (N.ltb_spec x z), (N.ltb_spec z x); try lia.
  apply IH.
Qed.

Lemma uniqueItemNames_sorted_unique_witness :
  uniqueItemNames DemoHost.localeCompare
    (map fetchItem [Sample.milk; Sample.cheese; Sample.milk])
    (map Item.name (map fetchItem [Sample.milk; Sample.cheese; Sample.milk]))
  = Js.Array_sort (byLocale DemoHost.localeCompare)
      (Js.Set_from (map Item.name (map fetchItem [Sample.milk; Sample.cheese; Sample.milk]))).
Proof.
  refine (proj1 (proj2 (proj2 (proj2 (proj2
            (uniqueItemNames_sorted_unique DemoHost.Date_getTime DemoHost.toLowerCase
               DemoHost.localeCompare compareUnits_total compareUnits_trans
               (map fetchItem [Sample.milk; Sample.cheese; Sample.milk])
               (map Item.name (map fetchItem [Sample.milk; Sample.cheese; Sample.milk]))))))) _).
  repeat (constructor; [vm_compute; reflexivity |]). constructor.
Defined.

Example unified_names :
  uniqueItemNames DemoHost.localeCompare
    (map fetchItem [Sample.milk; Sample.cheese; Sample.paddedMilk])
    [js "Queso"; js "Arroz"]
  = [js "Arroz"; js "Leche"; js "Queso"].
Proof. vm_compute. reflexivity. Qed.

(** C8, as stated, fails in its third part: a name stored with a
    leading space is trimmed on the stock side and kept as it is on
    the common side, so unifying the list with itself gives two
    entries where its sorted set has one. *)
Lemma unify_with_itself_differs_for_padded_names :
  uniqueItemNames DemoHost.localeCompare
    [fetchItem Sample.paddedMilk] (map Item.name [fetchItem Sample.paddedMilk])
  = [js " Leche"; js "Leche"]
  /\ Js.Array_sort (byLocale DemoHost.localeCompare)
       (Js.Set_from (map Item.name [fetchItem Sample.paddedMilk]))
     = [js " Leche"]
  /\ uniqueItemNames DemoHost.localeCompare
       [fetchItem Sample.paddedMilk] (map Item.name [fetchItem Sample.paddedMilk])
     <> Js.Array_sort (byLocale DemoHost.localeCompare)
          (Js.Set_from (map Item.name [fetchItem Sample.paddedMilk])).
Proof.
  vm_compute. split; [reflexivity |]. split; [reflexivity |].
  intros H. discriminate H.
Qed.

(** C9, as stated, fails: a stored category outside [CATEGORIES] reaches
    [items] unchanged. *)
Lemma unrecognized_category_is_kept :
  map Item.category (items (onStockSnapshot DemoHost.Date_getTime [Sample.soap] initialState))
  = [VStr (js "Higiene")]
  /\ (js "Higiene" ∉ CATEGORIES)
  /\ ~ Forall (fun item => isCategory (Item.category item))
         (items (onStockSnapshot DemoHost.Date_getTime [Sample.soap] initialState)).
Proof.
  assert (js "Higiene" ∉ CATEGORIES) as Hnot.
  { apply (bool_decide_unpack _). vm_compute. exact I. }
  split; [vm_compute; reflexivity |]. split; [exact Hnot |].
  intros Hall. apply Forall_cons in Hall as [(c & Hc & Heq) _].
  injection Heq as <-. exact (Hnot Hc).
Qed.

Example normalizeCategory_folds_case :
  normalizeCategory DemoHost.toLowerCase (js "  LÁCTEOS ") = js "Lácteos"
  /\ normalizeCategory DemoHost.toLowerCase (js "Higiene") = js "General".
Proof. split; vm_compute; reflexivity. Qed.

Lemma categories_of_items_witness :
  Forall (fun item => isCategory (Item.category item))
    (items (onStockSnapshot DemoHost.Date_getTime [Sample.milk; Sample.rice] initialState)).
Proof.
  refine (proj2 (proj2 (categories_of_items DemoHost.Date_getTime DemoHost.toLowerCase
                          [Sample.milk; Sample.rice] initialState)) _).
  constructor; [| constructor; [| constructor]].
  - right. exists (js "Lácteos"). split; [| reflexivity].
    apply (bool_decide_unpack _). vm_compute. exact I.
  - left. reflexivity.
Defined.

Lemma sanitizeDocId_path_safe_witness :
  sanitizeDocId (js "Leche entera") = js "Leche entera".
Proof.
  refine (proj1 (proj2 (proj2 (sanitizeDocId_path_safe (js "Leche entera")))) _).
  apply (bool_decide_unpack _). vm_compute. exact I.
Defined.

Example sanitizeDocId_collision :
  sanitizeDocId (js "Jamón/Queso") = js "Jamón_Queso"
  /\ sanitizeDocId (js "Jamón_Queso") = js "Jamón_Queso".
Proof. vm_compute. split; reflexivity. Qed.

(** ** Further facts on the concrete host *)

Ltac concrete_noEdgeSpace :=
  split; intros c Hc; vm_compute in Hc; injection Hc as <-; reflexivity.

Lemma trim_idempotent_witness : Js.trim (js "Leche entera") = js "Leche entera".
Proof.
  refine (proj1 (proj2 (trim_idempotent (js "Leche entera"))) _).
  concrete_noEdgeSpace.
Defined.

Lemma import_commit_lookup_witness :
  batch_commit (importBatch (scanImport milkMilkCheese)) ∅ !! sanitizeDocId (js "Cheese")
  = Some (js "Cheese").
Proof.
  refine (proj1 (import_commit_lookup milkMilkCheese ∅) [js "Milk"] [] (js "Cheese") _ _).
  - vm_compute. reflexivity.
  - apply not_elem_of_nil.
Defined.

Lemma import_rejected_then_retried_witness :
  firestore
    (foldl (fun sys e => step DemoHost.Date_getTime e sys)
       (run DemoHost.Date_getTime Sample.emptyStore connectedTrace)
       [ImportType milkMilkCheese; ImportStart; ImportSettled (Some (js "unavailable"))])
  = firestore (run DemoHost.Date_getTime Sample.emptyStore connectedTrace).
Proof.
  refine (proj1 (import_rejected_then_retried DemoHost.Date_getTime
                   (run DemoHost.Date_getTime Sample.emptyStore connectedTrace)
                   milkMilkCheese (js "unavailable") _)).
  vm_compute. reflexivity.
Defined.

Lemma checkExpirationStatus_instants_witness :
  status (checkExpirationStatus DemoHost.Date_getTime Sample.now (js "2025-03-04") (Num 7))
  = Warning
  <-> Sample.now < 1741046400000 + msPerDay
      /\ 1741046400000 <= Sample.now + 7 * msPerDay.
Proof.
  refine (proj1 (proj2 (checkExpirationStatus_instants DemoHost.Date_getTime Sample.now
                          (js "2025-03-04") 1741046400000 7 _))).
  vm_compute. reflexivity.
Defined.

Lemma checkExpirationStatus_never_eases_witness :
  severity (status (checkExpirationStatus DemoHost.Date_getTime Sample.now
                      (js "2025-03-04") (Num 2)))
  <= severity (status (checkExpirationStatus DemoHost.Date_getTime
                         (Sample.now + msPerDay) (js "2025-03-04") (Num 2))).
Proof.
  refine (proj1 (checkExpirationStatus_never_eases DemoHost.Date_getTime Sample.now
                   (Sample.now + msPerDay) (js "2025-03-04") (Num 2) _)).
  vm_compute. discriminate.
Defined.

Lemma urgent_items_in_modal_lists_witness :
  Forall (fun item =>
            item ∈ criticalItems DemoHost.Date_getTime (fun _ => Sample.now + 1)
                     (computeUrgentItems DemoHost.Date_getTime Sample.now
                        (fetchedItems DemoHost.Date_getTime
                           [Sample.milk; Sample.cheese; Sample.rice]))
            \/ item ∈ expiredItems DemoHost.Date_getTime
                        (fun k => Sample.now + 2 + Z.of_nat k)
                        (computeUrgentItems DemoHost.Date_getTime Sample.now
                           (fetchedItems DemoHost.Date_getTime
                              [Sample.milk; Sample.cheese; Sample.rice])))
    (computeUrgentItems DemoHost.Date_getTime Sample.now
       (fetchedItems DemoHost.Date_getTime [Sample.milk; Sample.cheese; Sample.rice])).
Proof.
  refine (proj1 (proj2 (proj2 (proj2
            (urgent_items_in_modal_lists DemoHost.Date_getTime
               (computeUrgentItems DemoHost.Date_getTime Sample.now
                  (fetchedItems DemoHost.Date_getTime
                     [Sample.milk; Sample.cheese; Sample.rice]))
               (fun _ => Sample.now + 1) (fun k => Sample.now + 2 + Z.of_nat k) _ _))))).
  - apply Forall_forall. intros item Hitem.
    apply list_elem_of_filter in Hitem as [Hitem _].
    exists Sample.now. split; [exact Hitem | intros k; lia].
  - intros j k. lia.
Defined.

(** An item whose last day ends between the two filter passes of the
    modal is listed as critical and as expired. *)
Example day_boundary_item_in_both_lists :
  criticalItems DemoHost.Date_getTime (fun _ => 1741046400000 + msPerDay - 1)
    [fetchItem Sample.milk] = [fetchItem Sample.milk]
  /\ expiredItems DemoHost.Date_getTime (fun _ => 1741046400000 + msPerDay)
       [fetchItem Sample.milk] = [fetchItem Sample.milk].
Proof. vm_compute. split; reflexivity. Qed.

Lemma urgentItems_as_of_last_snapshot_witness :
  items (app (step DemoHost.Date_getTime UrgentModalClose
                (run DemoHost.Date_getTime Sample.emptyStore
                   (connectedTrace ++ [StockSnapshot [Sample.milk] Sample.now]))))
  = items (app (run DemoHost.Date_getTime Sample.emptyStore
                  (connectedTrace ++ [StockSnapshot [Sample.milk] Sample.now])))
  /\ urgentItems (app (step DemoHost.Date_getTime UrgentModalClose
                         (run DemoHost.Date_getTime Sample.emptyStore
                            (connectedTrace ++ [StockSnapshot [Sample.milk] Sample.now]))))
     = urgentItems (app (run DemoHost.Date_getTime Sample.emptyStore
                           (connectedTrace ++ [StockSnapshot [Sample.milk] Sample.now]))).
Proof.
  refine (proj1 (urgentItems_as_of_last_snapshot DemoHost.Date_getTime Sample.emptyStore
                   (connectedTrace ++ [StockSnapshot [Sample.milk] Sample.now]))
            UrgentModalClose _).
  intros docs currentTime. discriminate.
Defined.

Lemma parseInt_toString_witness :
  Js.parseInt (Js.ToString (VNum (Num (-42)))) = Num (-42).
Proof.
  refine (parseInt_toString (-42) _). unfold MAX_SAFE_INTEGER. lia.
Defined.

Lemma common_names_kept_witness :
  map_Forall storedName
    (common_names
       (firestore (run DemoHost.Date_getTime savedStore
                     (connectedTrace ++ importSession milkMilkCheese)))).
Proof.
  refine (proj2 (common_names_kept DemoHost.Date_getTime DemoHost.toLowerCase
                   DemoHost.localeCompare savedStore
                   (connectedTrace ++ importSession milkMilkCheese)) _).
  apply map_Forall_singleton. split; [reflexivity |].
  split; [discriminate | concrete_noEdgeSpace].
Defined.

Lemma stock_items_kept_witness :
  map_Forall submittedDoc
    (stock_items (firestore (run DemoHost.Date_getTime savedStore editTrace))).
Proof.
  refine (proj1 (stock_items_kept DemoHost.Date_getTime savedStore editTrace
                   (SubmitEdit true true)) _).
  apply map_Forall_singleton. split; [concrete_noEdgeSpace |].
  split; [discriminate |]. exists (Num 2), (Num 7). repeat split.
Defined.

Lemma nothing_written_unconnected_witness :
  firestore (step DemoHost.Date_getTime
               (SubmitNew (Some (js "id-1")) (js "2025-03-01T00:00:00.000Z") true)
               (run DemoHost.Date_getTime savedStore []))
  = firestore (run DemoHost.Date_getTime savedStore [])
  /\ pendingImports (step DemoHost.Date_getTime
                       (SubmitNew (Some (js "id-1")) (js "2025-03-01T00:00:00.000Z") true)
                       (run DemoHost.Date_getTime savedStore [])) = [].
Proof.
  refine (nothing_written_unconnected DemoHost.Date_getTime
            (SubmitNew (Some (js "id-1")) (js "2025-03-01T00:00:00.000Z") true)
            (run DemoHost.Date_getTime savedStore []) _ _).
  - vm_compute. reflexivity.
  - reflexivity.
Defined.

Lemma addItem_read_back_witness :
  fetchItem
    {| QueryDoc.id := js "id-1";
       QueryDoc.data :=
         draftDoc (newItem (app (run DemoHost.Date_getTime Sample.emptyStore draftTrace)))
           (js "2025-03-01T00:00:00.000Z") |}
  = {| Item.id := js "id-1";
       Item.name := js "Yogur";
       Item.quantity := Num 3;
       Item.expirationDate := js "2025-03-10";
       Item.alarmDays := Num 7;
       Item.category := VStr CATEGORIES_0;
       Item.createdAt := VStr (js "2025-03-01T00:00:00.000Z") |}.
Proof.
  rewrite (proj1 (proj2 (addItem_read_back DemoHost.Date_getTime
                           (run DemoHost.Date_getTime Sample.emptyStore draftTrace)
                           (js "id-1") (js "2025-03-01T00:00:00.000Z") true 3 7
                           ltac:(vm_compute; reflexivity)
                           ltac:(vm_compute; discriminate)
                           ltac:(vm_compute; discriminate)
                           ltac:(vm_compute; reflexivity)
                           ltac:(vm_compute; reflexivity)
                           ltac:(unfold MAX_SAFE_INTEGER; lia)
                           ltac:(unfold MAX_SAFE_INTEGER; lia)))).
  vm_compute. reflexivity.
Defined.

Lemma updateItem_in_place_witness :
  editingItem (app (step DemoHost.Date_getTime (SubmitEdit true true)
                      (run DemoHost.Date_getTime savedStore editTrace))) = None
  /\ errorMessage (app (step DemoHost.Date_getTime (SubmitEdit true true)
                          (run DemoHost.Date_getTime savedStore editTrace))) = None.
Proof.
  pose proof (updateItem_in_place DemoHost.Date_getTime
                (run DemoHost.Date_getTime savedStore editTrace)
                (fetchItem Sample.milk) true true
                ltac:(vm_compute; reflexivity)
                ltac:(vm_compute; reflexivity)
                ltac:(vm_compute; discriminate)
                ltac:(vm_compute; discriminate)
                ltac:(vm_compute; reflexivity)
                ltac:(vm_compute; reflexivity)) as H.
  assert (stock_items (firestore (run DemoHost.Date_getTime savedStore editTrace))
            !! Item.id (fetchItem Sample.milk) = Some (QueryDoc.data Sample.milk)) as Hl
    by (vm_compute; reflexivity).
  rewrite Hl in H. exact (proj2 (proj2 H)).
Defined.

Lemma edit_unchanged_keeps_stock_witness :
  stock_items (firestore (step DemoHost.Date_getTime (SubmitEdit true true)
                            (run DemoHost.Date_getTime savedStore editTrace)))
  = stock_items (firestore (run DemoHost.Date_getTime savedStore editTrace)).
Proof.
  refine (proj2 (edit_unchanged_keeps_stock DemoHost.Date_getTime
                   (run DemoHost.Date_getTime savedStore editTrace)
                   (js "a1") (QueryDoc.data Sample.milk) 2 7 true
                   _ _ _ _ _ _ _ _ _ _ _)).
  - vm_compute. reflexivity.
  - vm_compute. reflexivity.
  - vm_compute. reflexivity.
  - vm_compute. discriminate.
  - concrete_noEdgeSpace.
  - vm_compute. discriminate.
  - reflexivity.
  - reflexivity.
  - unfold MAX_SAFE_INTEGER. lia.
  - unfold MAX_SAFE_INTEGER. lia.
  - reflexivity.
Defined.

Lemma deleteItem_removes_one_witness :
  stock_items (firestore (step DemoHost.Date_getTime (Delete (js "a1") true)
                            (run DemoHost.Date_getTime savedStore connectedTrace)))
    !! js "a1" = None.
Proof.
  refine (proj1 (deleteItem_removes_one DemoHost.Date_getTime
                   (run DemoHost.Date_getTime savedStore connectedTrace) (js "a1") _)).
  vm_compute. reflexivity.
Defined.

